(** * Newton package installer: the Dock link protocol engine

    A shallow embedding of [src/newton_installer.py]: the frame check
    sequence, the frame codec ([send_frame], [recv_frame]), the
    acknowledgement wait ([wait_la_frame]) and the installation engine
    ([run_installer]), followed by the properties proved about them.

    Python integers are unbounded, so they are modelled as [Z]; [%] with a
    positive modulus is [Z.modulo], [//] is [Z.div], [&], [^], [<<] are
    [Z.land], [Z.lxor], [Z.shiftl].  A [bytes] or [bytearray] object is a
    [list Z] whose elements lie in 0..255; building one from integers
    ([bytes([...])]) checks that range and raises [ValueError] otherwise. *)

From Stdlib Require Import String Ascii QArith ZArith List Lia Bool.
From Stdlib Require DecimalString.
Import ListNotations.
Open Scope Z_scope.

(** ** Outcomes and the state monad of the embedding *)

(** The exceptions the modelled code can raise. *)
Inductive exn : Type :=
| Exception (msg : string)
| ValueError (msg : string)
| IndexError (msg : string)
| OverflowError (msg : string)
| AttributeError (msg : string)
| SerialException (msg : string)
| OSError (msg : string).

(** [str(e)] *)
Definition str_exn (e : exn) : string :=
  match e with
  | Exception m | ValueError m | IndexError m | OverflowError m
  | AttributeError m | SerialException m | OSError m => m
  end.

(** What running a piece of code ends in.  [Hang] stands for a Python loop
    that never exits (a [while True] polling a port that stays silent);
    [OutOfFuel] is the embedding's own artefact and is shown unreachable for
    the fuel the loops are started with. *)
Inductive outcome (A : Type) : Type :=
| Ret (a : A)
| Raise (e : exn)
| Hang
| OutOfFuel.
Arguments Ret {A} a.
Arguments Raise {A} e.
Arguments Hang {A}.
Arguments OutOfFuel {A}.

Definition M (S A : Type) : Type := S -> outcome A * S.

Definition ret {S A} (a : A) : M S A := fun s => (Ret a, s).
Definition raise {S A} (e : exn) : M S A := fun s => (Raise e, s).
Definition hang {S A} : M S A := fun s => (Hang, s).
Definition out_of_fuel {S A} : M S A := fun s => (OutOfFuel, s).

Definition bind {S A B} (m : M S A) (k : A -> M S B) : M S B :=
  fun s =>
    match m s with
    | (Ret a, s') => k a s'
    | (Raise e, s') => (Raise e, s')
    | (Hang, s') => (Hang, s')
    | (OutOfFuel, s') => (OutOfFuel, s')
    end.

Definition get {S} : M S S := fun s => (Ret s, s).
Definition modify {S} (f : S -> S) : M S unit := fun s => (Ret tt, f s).

Declare Scope monad_scope.
Delimit Scope monad_scope with monad.
Notation "x <- m ;; k" := (bind m (fun x => k))
  (at level 61, m at next level, right associativity) : monad_scope.
Notation "m ;; k" := (bind m (fun _ => k))
  (at level 61, right associativity) : monad_scope.
Open Scope monad_scope.

(** ** Bytes *)

Definition is_byte (b : Z) : Prop := 0 <= b < 256.
Definition is_byteb (b : Z) : bool := (0 <=? b) && (b <? 256).

(** [bytes([...])]: a list of integers becomes a bytes object, or the
    constructor raises. *)
Definition bytes {S} (l : list Z) : M S (list Z) :=
  if forallb is_byteb l then ret l
  else raise (ValueError "bytes must be in range(0, 256)").

(** [recv[i]] on a bytes object, for a non-negative literal index. *)
Definition index {S} (l : list Z) (i : nat) : M S Z :=
  match nth_error l i with
  | Some b => ret b
  | None => raise (IndexError "bytearray index out of range")
  end.

(** [range(n)] as the list it iterates over. *)
Definition range (n : nat) : list Z := map Z.of_nat (seq 0 n).

(** ** Constants *)

Definition MAX_INFO_LEN : nat := 256.

Definition FRAME_START : list Z := [0x16; 0x10; 0x02].
Definition FRAME_END : list Z := [0x10; 0x03].

Definition LR_FRAME : list Z :=
  [0x17; 0x01; 0x02; 0x01; 0x06; 0x01; 0x00; 0x00;
   0x00; 0x00; 0xff; 0x02; 0x01; 0x02; 0x03; 0x01;
   0x01; 0x04; 0x02; 0x40; 0x00; 0x08; 0x01; 0x03].

(** ** The frame check sequence, [fcs_calc] *)

(** One turn of the loop body of [fcs_calc], for loop variable [i]. *)
Definition fcs_bit (octet : Z) (fcs_word : Z) (i : Z) : Z :=
  if xorb (Z.land (fcs_word mod 256) 0x01 =? 0x01)
          (negb (Z.land octet (Z.shiftl 1 i) =? 0))
  then Z.lxor (fcs_word / 2) 0xa001
  else fcs_word / 2.

Definition fcs_calc (fcs_word octet : Z) : Z :=
  fold_left (fcs_bit octet) (range 8) fcs_word.

(** ** The serial port *)

(** [rx] holds the bytes the peer delivers, oldest first; a read on an empty
    [rx] is a read that times out and returns an empty bytes object.
    [tx_rev] holds the bytes written so far, newest first, so that a write
    costs its own length; [tx] reads them in the order they were written. *)
Record port : Type := mkPort {
  rx : list Z;
  tx_rev : list Z;
  is_open : bool
}.

Definition tx (p : port) : list Z := rev (tx_rev p).

Definition port_write (data : list Z) : M port unit :=
  modify (fun p => mkPort (rx p) (rev_append data (tx_rev p)) (is_open p)).

(** [self.port.read(n)]: up to [n] bytes, fewer when the read times out. *)
Definition port_read (n : nat) : M port (list Z) :=
  fun p => (Ret (firstn n (rx p)), mkPort (skipn n (rx p)) (tx_rev p) (is_open p)).

(** ** [send_frame] *)

(** The loop [for b in ...] of [send_frame], shared by head and info. *)
Fixpoint send_octets (octets : list Z) (fcs_word : Z) : M port Z :=
  match octets with
  | [] => ret fcs_word
  | b :: rest =>
      let fcs_word := fcs_calc fcs_word b in
      one <- bytes [b] ;;
      port_write one ;;
      (if b =? 0x10
       then esc <- bytes [0x10] ;; port_write esc
       else ret tt) ;;
      send_octets rest fcs_word
  end.

Definition send_frame (head : list Z) (info : option (list Z)) : M port unit :=
  let fcs_word := 0 in
  port_write FRAME_START ;;
  fcs_word <- send_octets head fcs_word ;;
  fcs_word <- match info with
              | Some ((_ :: _) as i) => send_octets i fcs_word
              | _ => ret fcs_word
              end ;;
  port_write FRAME_END ;;
  let fcs_word := fcs_calc fcs_word (nth 1 FRAME_END 0) in
  trailer <- bytes [fcs_word mod 256; fcs_word / 256] ;;
  port_write trailer.

(** ** [recv_frame] *)

(** First loop: hunt for the start marker.  [Some rest] when [state] reached
    3, with the bytes left unread; [None] when a read timed out. *)
Fixpoint recv_hunt (state : Z) (input : list Z) : option (list Z) :=
  if 3 <=? state then Some input
  else
    match input with
    | [] => None
    | b :: input' =>
        let state :=
          if (state =? 0) && (b =? 0x16) then 1
          else if (state =? 1) && (b =? 0x10) then 2
          else if (state =? 2) && (b =? 0x02) then 3
          else 0 in
        recv_hunt state input'
    end.

(** Second loop: un-stuff the body up to the end marker.  The result is the
    accumulated check word, the frame data and the bytes left unread. *)
Fixpoint recv_body (state fcs_word : Z) (frame_data : list Z) (input : list Z)
  : option (Z * list Z * list Z) :=
  if 2 <=? state then Some (fcs_word, frame_data, input)
  else
    match input with
    | [] => None
    | val :: input' =>
        if state =? 0 then
          if val =? 0x10 then recv_body 1 fcs_word frame_data input'
          else recv_body 0 (fcs_calc fcs_word val) (frame_data ++ [val]) input'
        else if state =? 1 then
          if val =? 0x10 then
            recv_body 0 (fcs_calc fcs_word val) (frame_data ++ [val]) input'
          else if val =? 0x03 then
            recv_body 2 (fcs_calc fcs_word val) frame_data input'
          else recv_body 1 fcs_word frame_data input'
        else recv_body state fcs_word frame_data input'
    end.

Definition set_rx (input : list Z) : M port unit :=
  modify (fun p => mkPort input (tx_rev p) (is_open p)).

(** [recv_frame]: [None] is Python's [None].  The two loops read one byte at
    a time, so what they leave in [rx] is what they did not reach; a loop
    that gives up has read everything there was. *)
Definition recv_frame : M port (option (list Z)) :=
  p <- get ;;
  match recv_hunt 0 (rx p) with
  | None => set_rx [] ;; ret None
  | Some input =>
      match recv_body 0 0 [] input with
      | None => set_rx [] ;; ret None
      | Some (fcs_word, frame_data, input) =>
          set_rx input ;;
          fcs_in <- port_read 2 ;;
          if (length fcs_in <? 2)%nat then ret None
          else if negb (fcs_word mod 256 =? nth 0 fcs_in 0)
                  || negb (fcs_word / 256 =? nth 1 fcs_in 0)
               then ret None
               else ret (Some frame_data)
      end
  end.


(** The bytes [send_frame] puts on the wire for a frame, as a peer using
    the same codec would produce them. *)
Definition encode (head : list Z) (info : option (list Z)) : list Z :=
  tx (snd (send_frame head info (mkPort [] [] true))).

(** ** The check sequence and the wire format in the words of the protocol
    description *)

Module Spec.

(** One bit of the bit-serial CRC: XOR the low bit of the running value
    with bit [i] of the octet; when the result is 1, shift right and XOR
    with the polynomial, otherwise just shift right. *)
Definition update_bit (octet running_value i : Z) : Z :=
  if xorb (Z.testbit running_value 0) (Z.testbit octet i)
  then Z.lxor (Z.shiftr running_value 1) 0xA001
  else Z.shiftr running_value 1.

(** The eight bits of the octet, least significant first. *)
Definition update (running_value octet : Z) : Z :=
  fold_left (update_bit octet) [0; 1; 2; 3; 4; 5; 6; 7] running_value.

(** Byte-stuffing: a logical escape byte is transmitted twice. *)
Definition stuff (logical : list Z) : list Z :=
  flat_map (fun b => if b =? 0x10 then [0x10; 0x10] else [b]) logical.

(** The checksum of a frame: the fold of [update], starting from 0, over
    the header, the payload and the terminator byte. *)
Definition checksum (header payload : list Z) : Z :=
  fold_left update (header ++ payload ++ [0x03]) 0.

(** Start marker, stuffed header, stuffed payload, end marker, checksum
    low byte first. *)
Definition wire (header payload : list Z) : list Z :=
  [0x16; 0x10; 0x02] ++ stuff header ++ stuff payload ++ [0x10; 0x03]
  ++ [checksum header payload mod 256; checksum header payload / 256].

End Spec.

(** The payload of a frame whose info argument may be [None]. *)
Definition payload (info : option (list Z)) : list Z :=
  match info with Some i => i | None => [] end.

(** Replacing the byte at position [pos] of a byte string by [v]:
    [s[:pos] + bytes([v]) + s[pos+1:]]. *)
Definition corrupt (pos : nat) (v : Z) (s : list Z) : list Z :=
  firstn pos s ++ v :: skipn (S pos) s.

(** ** Chunking a package *)

(** [range(start, stop, step)] for a positive step, run as the loop it is:
    yield [i] while it is below [stop].  [stop] turns are enough. *)
Fixpoint range_loop (fuel i stop step : nat) : list nat :=
  match fuel with
  | O => []
  | S fuel =>
      if (i <? stop)%nat then i :: range_loop fuel (i + step) stop step
      else []
  end.

Definition py_range (start stop step : nat) : list nat :=
  range_loop stop start stop step.

(** [data[i:j]] for [0 <= i <= j]. *)
Definition slice (data : list Z) (i j : nat) : list Z :=
  firstn (j - i) (skipn i data).

(** [while len(chunk) % 4 != 0: chunk += b'\x00'].  Three turns are enough,
    see [pad4_aligned]. *)
Fixpoint pad_loop (fuel : nat) (chunk : list Z) : list Z :=
  match fuel with
  | O => chunk
  | S fuel =>
      if negb (length chunk mod 4 =? 0)%nat then pad_loop fuel (chunk ++ [0])
      else chunk
  end.

Definition pad4 (chunk : list Z) : list Z := pad_loop 3 chunk.

(** The chunk the transfer loop sends for offset [i]. *)
Definition chunk_at (data : list Z) (i : nat) : list Z :=
  pad4 (slice data i (i + MAX_INFO_LEN)).

(** All chunks of a package, in the order of the loop. *)
Definition package_chunks (data : list Z) : list (list Z) :=
  map (chunk_at data) (py_range 0 (length data) MAX_INFO_LEN).

(** The part of chunk number [k] of an [L]-byte package that is file
    content. *)
Definition unpadded (L k : nat) (chunk : list Z) : list Z :=
  firstn (Nat.min MAX_INFO_LEN (L - k * MAX_INFO_LEN)) chunk.

Fixpoint unpadded_from (L k : nat) (chunks : list (list Z)) : list (list Z) :=
  match chunks with
  | [] => []
  | c :: rest => unpadded L k c :: unpadded_from L (S k) rest
  end.

(** Padding of chunk number [k]: what follows the file content. *)
Definition padding (L k : nat) (chunk : list Z) : list Z :=
  skipn (Nat.min MAX_INFO_LEN (L - k * MAX_INFO_LEN)) chunk.

(** [ceil(L / C)] *)
Definition ceil_div (L C : nat) : nat := ((L + C - 1) / C)%nat.

(** ** The installer object and its surroundings *)

(** The fields of [NewtonInstallerGUI] the engine touches.  [debug_text]
    holds the lines [log] inserted, and [progress] every value assigned to
    [self.progress['value']], oldest first. *)
Record gui : Type := mkGui {
  gui_port : option port;
  lt_seq_no : Z;
  file_list : list string;
  debug_text : list string;
  progress : list Q;
  start_btn_enabled : bool
}.

(** What the engine asks of the world around it: the text of the port
    combobox, the value of [int(self.speed_combo.get())] ([None] when [int]
    raises), the bytes the device behind a port name will deliver ([None]
    when [serial.Serial] raises), and the contents of the files ([None]
    when [open] raises). *)
Record world : Type := mkWorld {
  port_combo : string;
  speed_combo : option Z;
  serial_Serial : string -> option (list Z);
  open_rb : string -> option (list Z)
}.

Definition set_port (q : option port) (g : gui) : gui :=
  mkGui q (lt_seq_no g) (file_list g) (debug_text g) (progress g)
        (start_btn_enabled g).
Definition set_lt_seq_no (n : Z) (g : gui) : gui :=
  mkGui (gui_port g) n (file_list g) (debug_text g) (progress g)
        (start_btn_enabled g).
Definition add_debug_text (msg : string) (g : gui) : gui :=
  mkGui (gui_port g) (lt_seq_no g) (file_list g) (debug_text g ++ [msg])
        (progress g) (start_btn_enabled g).
Definition add_progress (v : Q) (g : gui) : gui :=
  mkGui (gui_port g) (lt_seq_no g) (file_list g) (debug_text g)
        (progress g ++ [v]) (start_btn_enabled g).
Definition set_start_btn (b : bool) (g : gui) : gui :=
  mkGui (gui_port g) (lt_seq_no g) (file_list g) (debug_text g) (progress g) b.

(** Running a port operation on [self.port]. *)
Definition on_port {A} (m : M port A) : M gui A :=
  fun g =>
    match gui_port g with
    | None =>
        (Raise (AttributeError "'NoneType' object has no attribute"), g)
    | Some p => let (r, p') := m p in (r, set_port (Some p') g)
    end.

(** The bytes the port has still to deliver. *)
Definition pending (g : gui) : list Z :=
  match gui_port g with Some p => rx p | None => [] end.

(** Whether the port has nothing left to deliver. *)
Definition silent : M gui bool :=
  g <- get ;;
  ret (match gui_port g with
       | Some p => match rx p with [] => true | _ :: _ => false end
       | None => false
       end).

Definition log (msg : string) : M gui unit := modify (add_debug_text msg).

(** [try: m  except Exception as e: h e] *)
Definition try_except {S A} (m : M S A) (h : exn -> M S A) : M S A :=
  fun s =>
    match m s with
    | (Raise e, s') => h e s'
    | r => r
    end.

(** [try: m  finally: f] *)
Definition try_finally {S A} (m : M S A) (f : M S unit) : M S A :=
  fun s =>
    match m s with
    | (Hang, s') => (Hang, s')
    | (OutOfFuel, s') => (OutOfFuel, s')
    | (r, s') =>
        match f s' with
        | (Ret _, s'') => (r, s'')
        | (Raise e, s'') => (Raise e, s'')
        | (Hang, s'') => (Hang, s'')
        | (OutOfFuel, s'') => (OutOfFuel, s'')
        end
    end.

(** ** [send_la_frame], [send_lt_frame], [wait_la_frame] *)

Definition send_la_frame (seq : Z) : M gui unit :=
  head <- bytes [0x03; 0x05; seq; 0x01] ;;
  on_port (send_frame head None).

Definition send_lt_frame (info : list Z) : M gui unit :=
  g <- get ;;
  head <- bytes [0x02; 0x04; lt_seq_no g] ;;
  on_port (send_frame head (Some info)).

(** The loop of [wait_la_frame].  On a port with nothing left to deliver
    every [recv_frame] returns [None] and changes nothing
    ([recv_frame_silent]), so the loop never exits: [Hang]. *)
Fixpoint wait_la_loop (fuel : nat) (seq : Z) : M gui bool :=
  match fuel with
  | O => out_of_fuel
  | S fuel =>
      quiet <- silent ;;
      if quiet then hang
      else
        recv <- on_port recv_frame ;;
        match recv with
        | Some ((_ :: _) as recv) =>
            t <- index recv 1 ;;
            (if t =? 0x04
             then s <- index recv 2 ;; send_la_frame s
             else ret tt) ;;
            t <- index recv 1 ;;
            if t =? 0x05 then
              s <- index recv 2 ;;
              if s =? seq then ret true else wait_la_loop fuel seq
            else wait_la_loop fuel seq
        | _ => wait_la_loop fuel seq
        end
  end.

(** Every turn on a port that still has bytes reads at least one of them, so
    one turn more than there are bytes is enough fuel
    ([wait_la_loop_fuel]). *)
Definition wait_la_frame (seq : Z) : M gui bool :=
  g <- get ;;
  wait_la_loop (S (length (pending g))) seq.

(** ** [run_installer] *)

(** The loops [while True: recv = self.recv_frame(); if recv and recv[1] ==
    tag: ...; break] of the handshake; [body] is what the loop does before
    [break]. *)
Fixpoint await_loop (fuel : nat) (tag : Z) (body : list Z -> M gui unit)
  : M gui unit :=
  match fuel with
  | O => out_of_fuel
  | S fuel =>
      quiet <- silent ;;
      if quiet then hang
      else
        recv <- on_port recv_frame ;;
        match recv with
        | Some ((_ :: _) as recv) =>
            t <- index recv 1 ;;
            if t =? tag then body recv else await_loop fuel tag body
        | _ => await_loop fuel tag body
        end
  end.

Definition await (tag : Z) (body : list Z -> M gui unit) : M gui unit :=
  g <- get ;;
  await_loop (S (length (pending g))) tag body.

(** The bytes of an ASCII literal [b"..."]. *)
Definition ascii_bytes (s : string) : list Z :=
  map (fun c => Z.of_N (N_of_ascii c)) (list_ascii_of_string s).

(** [chr(b)] for a byte. *)
Definition chr (b : Z) : ascii := ascii_of_N (Z.to_N b).

(** The owner-name loop: every second byte of [name_bytes] up to a zero. *)
Fixpoint owner_name (name_bytes : list Z) : string :=
  match name_bytes with
  | [] => EmptyString
  | b :: rest =>
      if b =? 0 then EmptyString
      else String (chr b)
             (match rest with
              | [] => EmptyString
              | _ :: rest' => owner_name rest'
              end)
  end.

(** [n.to_bytes(4, byteorder='big')] *)
Definition to_bytes4_big {S} (n : Z) : M S (list Z) :=
  if (0 <=? n) && (n <? 2 ^ 32)
  then ret [n / 2 ^ 24 mod 256; n / 2 ^ 16 mod 256; n / 2 ^ 8 mod 256; n mod 256]
  else raise (OverflowError "int too big to convert").

(** [self.lt_seq_no += 1] *)
Definition incr_lt_seq_no : M gui unit :=
  modify (fun g => set_lt_seq_no (lt_seq_no g + 1) g).

(** [self.lt_seq_no = (self.lt_seq_no + 1) % 256] *)
Definition incr_lt_seq_no_mod : M gui unit :=
  modify (fun g => set_lt_seq_no ((lt_seq_no g + 1) mod 256) g).

(** [self.wait_la_frame(self.lt_seq_no)] *)
Definition wait_la_current : M gui bool :=
  g <- get ;;
  wait_la_frame (lt_seq_no g).

(** The value [(i / f_len) * 100].  Python computes it in binary floating
    point; the embedding keeps the exact rational, which is the same number
    wherever the float is exact (0 in particular). *)
Definition progress_value (i f_len : nat) : Q :=
  ((inject_Z (Z.of_nat i) / inject_Z (Z.of_nat f_len)) * 100)%Q.

(** The loop [for i in range(0, f_len, MAX_INFO_LEN)]. *)
Fixpoint send_chunks (data : list Z) (f_len : nat) (offsets : list nat)
  : M gui unit :=
  match offsets with
  | [] => ret tt
  | i :: offsets =>
      let chunk := chunk_at data i in
      send_lt_frame chunk ;;
      wait_la_current ;;
      incr_lt_seq_no_mod ;;
      modify (add_progress (progress_value i f_len)) ;;
      send_chunks data f_len offsets
  end.

(** The body of the loop [for path in self.file_list].  When [open] fails
    the text of the [OSError] is the operating system's; the one given here
    is Python's for a file that does not exist and whose name has no quote
    or backslash in it. *)
Definition upload (w : world) (path : string) : M gui unit :=
  match open_rb w path with
  | None =>
      raise (OSError ("[Errno 2] No such file or directory: '" ++ path ++ "'"))
  | Some data =>
      let f_len := length data in
      log ("Uploading " ++ path ++ "...") ;;
      len4 <- to_bytes4_big (Z.of_nat f_len) ;;
      let lpkg := (ascii_bytes "newtdocklpkg" ++ len4)%list in
      send_lt_frame lpkg ;;
      wait_la_current ;;
      incr_lt_seq_no ;;
      send_chunks data f_len (py_range 0 f_len MAX_INFO_LEN) ;;
      log ("Finished " ++ path)
  end.

Fixpoint upload_all (w : world) (paths : list string) : M gui unit :=
  match paths with
  | [] => ret tt
  | path :: paths => upload w path ;; upload_all w paths
  end.

(** [send_la_frame(recv[2])] *)
Definition acknowledge (recv : list Z) : M gui unit :=
  s <- index recv 2 ;;
  send_la_frame s.

(** The handshake, from the wait for the peer's request to the
    acknowledgement of its last dock frame. *)
Definition handshake : M gui unit :=
  await 0x01 (fun _ => ret tt) ;;

  log "Connected! Sending LR Frame..." ;;
  on_port (send_frame LR_FRAME None) ;;
  wait_la_current ;;
  incr_lt_seq_no ;;

  await 0x04 acknowledge ;;

  log "Sending dockdock handshake..." ;;
  send_lt_frame (ascii_bytes "newtdockdock" ++ [0; 0; 0; 4; 0; 0; 0; 4]) ;;
  wait_la_current ;;
  incr_lt_seq_no ;;

  await 0x04 (fun recv =>
    acknowledge recv ;;
    log ("Newton Owner: " ++ owner_name (skipn 24 recv))) ;;

  send_lt_frame (ascii_bytes "newtdockstim" ++ [0; 0; 0; 4; 0; 0; 0; 0x1e]) ;;
  wait_la_current ;;
  incr_lt_seq_no ;;

  await 0x04 acknowledge.

(** [self.port = serial.Serial(selected_port, int(...), timeout=2)] and the
    log line that follows it. *)
Definition open_port (w : world) : M gui unit :=
  let selected_port := port_combo w in
  (if (selected_port =? EmptyString)%string
      || (selected_port =? "No ports found")%string
   then raise (Exception "Please select a valid serial port.")
   else ret tt) ;;
  match speed_combo w with
  | None => raise (ValueError "invalid literal for int() with base 10")
  | Some _ =>
      match serial_Serial w selected_port with
      | None =>
          raise (SerialException ("could not open port " ++ selected_port))
      | Some input =>
          modify (set_port (Some (mkPort input [] true))) ;;
          log ("Port " ++ selected_port ++ " opened. Waiting for Newton...")
      end
  end.

(** The [try] block of [run_installer]. *)
Definition session (w : world) : M gui unit :=
  open_port w ;;
  handshake ;;

  g <- get ;;
  upload_all w (file_list g) ;;

  send_lt_frame (ascii_bytes "newtdockdisc" ++ [0; 0; 0; 0]) ;;
  log "Session Finished." ;;
  on_port (modify (fun p => mkPort (rx p) (tx_rev p) false)).

Definition run_installer (w : world) : M gui unit :=
  try_finally
    (try_except (session w) (fun e => log ("ERROR: " ++ str_exn e)))
    (modify (set_start_btn true)).

(** The state [__init__] leaves, with a queue of files added. *)
Definition fresh_gui (files : list string) : gui :=
  mkGui None 0 files [] [] true.

(** ** Peers and worlds for concrete sessions *)

(** An acknowledgement (LA) frame and a sequenced payload (LT) frame as the
    peer sends them. *)
Definition peer_la (seq : Z) : list Z := encode [0x03; 0x05; seq; 0x01] None.
Definition peer_lt (seq : Z) (info : list Z) : list Z :=
  encode [0x02; 0x04; seq] (Some info).

(** Acknowledgements for the sequence numbers [first], [first+1], ... *)
Fixpoint peer_las (count : nat) (first : Z) : list Z :=
  match count with
  | O => []
  | S count => peer_la first ++ peer_las count (first + 1)
  end.

(** The peer's side of the handshake: its link request, then for each of
    the three handshake frames an acknowledgement followed by a dock frame
    of its own; the second dock frame carries the owner name "Al" from
    payload offset 24 - 3. *)
Definition peer_handshake : list Z :=
  encode LR_FRAME None
  ++ peer_la 0
  ++ peer_lt 1 (ascii_bytes "newtdockrtdk")
  ++ peer_la 1
  ++ peer_lt 2 (ascii_bytes "newtdockname" ++ repeat 0 9 ++ [0x41; 0; 0x6c; 0; 0; 0])
  ++ peer_la 2
  ++ peer_lt 3 (ascii_bytes "newtdockdres").

(** A world with one serial port, COM1, behind which the peer delivers
    [input], and with the given files. *)
Definition com1_world (input : list Z) (files : list (string * list Z)) : world :=
  mkWorld "COM1" (Some 38400)
    (fun name => if (name =? "COM1")%string then Some input else None)
    (fun path =>
       match find (fun f => (fst f =? path)%string) files with
       | Some f => Some (snd f)
       | None => None
       end).

(** ** Reading a stream frame by frame *)

(** What one call of [recv_frame] returns on a port that will deliver
    [input], and what it leaves unread. *)
Definition reads (input : list Z) : option (list Z) * list Z :=
  match recv_frame (mkPort input [] true) with
  | (Ret r, p) => (r, rx p)
  | (_, p) => (None, rx p)
  end.

(** [frames_read input frames rest]: calling [recv_frame] over and over on
    [input] returns the frames [frames], in this order, between calls that
    return [None] or an empty frame, and leaves [rest]. *)
Inductive frames_read : list Z -> list (list Z) -> list Z -> Prop :=
| read_none (input : list Z) : frames_read input [] input
| read_nothing (input rest out : list Z) (frames : list (list Z)) :
    reads input = (None, rest) ->
    frames_read rest frames out ->
    frames_read input frames out
| read_empty (input rest out : list Z) (frames : list (list Z)) :
    reads input = (Some [], rest) ->
    frames_read rest frames out ->
    frames_read input frames out
| read_frame (input rest out : list Z) (x : Z) (frame : list Z)
             (frames : list (list Z)) :
    reads input = (Some (x :: frame), rest) ->
    frames_read rest frames out ->
    frames_read input ((x :: frame) :: frames) out.

(** An acknowledgement frame for [seq]: [recv[1] == 0x05 and recv[2] == seq]. *)
Definition is_la_for (seq : Z) (frame : list Z) : Prop :=
  nth_error frame 1 = Some 0x05 /\ nth_error frame 2 = Some seq.

(** The acknowledgement a dock frame ([recv[1] == 0x04]) is owed: an LA
    frame for its sequence number; nothing for any other frame. *)
Definition dock_ack (frame : list Z) : list Z :=
  match nth_error frame 1, nth_error frame 2 with
  | Some tag, Some seq =>
      if tag =? 0x04 then encode [0x03; 0x05; seq; 0x01] None else []
  | _, _ => []
  end.

(** The installer in the middle of a session, its port about to deliver
    [input]. *)
Definition gui_on (input : list Z) (seq : Z) : gui :=
  mkGui (Some (mkPort input [] true)) seq [] [] [] false.

(** ** Four sessions *)

(** The peer acknowledges every frame; one package of 300 bytes 0x41. *)
Definition session_300 : outcome unit * gui :=
  run_installer
    (com1_world (peer_handshake ++ peer_las 3 3) [("a.pkg"%string, repeat 0x41 300)])
    (fresh_gui ["a.pkg"%string]).

(** The peer acknowledges every frame; the queued file cannot be opened. *)
Definition session_missing_file : outcome unit * gui :=
  run_installer (com1_world peer_handshake []) (fresh_gui ["a.pkg"%string]).

(** The peer opens with a valid frame whose body is the single byte 0x01. *)
Definition session_short_frame : outcome unit * gui :=
  run_installer (com1_world (encode [0x01] None) []) (fresh_gui ["a.pkg"%string]).

(** The peer acknowledges every frame; a package of 64256 bytes, which
    makes 251 chunks, followed by a second package. *)
Definition session_two_packages : outcome unit * gui :=
  run_installer
    (com1_world (peer_handshake ++ peer_las 253 3)
       [("a.pkg"%string, repeat 0x41 (Z.to_nat 64256)); ("b.pkg"%string, [1; 2; 3; 4; 5])])
    (fresh_gui ["a.pkg"%string; "b.pkg"%string]).

(** Whether the port of the installer is open. *)
Definition port_is_open (g : gui) : bool :=
  match gui_port g with Some p => is_open p | None => false end.


(** ** Further peers *)

(** Acknowledgements for [first], [first + 1], ... with the sequence field
    wrapping at 256, as a peer answering a long transfer sends them. *)
Fixpoint peer_las_wrap (count : nat) (first : Z) : list Z :=
  match count with
  | O => []
  | S count => peer_la first ++ peer_las_wrap count ((first + 1) mod 256)
  end.

(** The frames of a list of (header, info) pairs one after the other on the
    wire, and what each of them carries. *)
Definition encode_all (frames : list (list Z * option (list Z))) : list Z :=
  flat_map (fun f => encode (fst f) (snd f)) frames.

Definition carried (frames : list (list Z * option (list Z))) : list (list Z) :=
  map (fun f => fst f ++ payload (snd f)) frames.

(** The installer with its port open on [input], [t] written so far. *)
Definition gui_at (input t : list Z) (o : bool) (seq : Z)
           (files dt : list string) (pr : list Q) (sb : bool) : gui :=
  mkGui (Some (mkPort input t o)) seq files dt pr sb.

(** What the installer writes during a handshake that starts with the
    counter at [n], against a peer whose three dock frames carry the
    sequence numbers [s1], [s2], [s3]: its link request, and three times an
    acknowledgement of the peer's dock frame, with the two command frames
    in between. *)
Definition handshake_writes (n s1 s2 s3 : Z) : list Z :=
  encode LR_FRAME None
  ++ encode [0x03; 0x05; s1; 0x01] None
  ++ encode [0x02; 0x04; n + 1]
       (Some (ascii_bytes "newtdockdock" ++ [0; 0; 0; 4; 0; 0; 0; 4]))
  ++ encode [0x03; 0x05; s2; 0x01] None
  ++ encode [0x02; 0x04; n + 2]
       (Some (ascii_bytes "newtdockstim" ++ [0; 0; 0; 4; 0; 0; 0; 0x1e]))
  ++ encode [0x03; 0x05; s3; 0x01] None.

(** What a conforming peer sends during that handshake: a frame [request]
    with tag 0x01, then an acknowledgement for each of the three frames it
    is sent, each followed by a dock frame of its own. *)
Definition peer_handshake_frames (request : list Z) (n : Z)
           (s1 : Z) (i1 : list Z) (s2 : Z) (i2 : list Z) (s3 : Z) (i3 : list Z)
  : list Z :=
  encode request None
  ++ peer_la n ++ peer_lt s1 i1
  ++ peer_la (n + 1) ++ peer_lt s2 i2
  ++ peer_la (n + 2) ++ peer_lt s3 i3.

(** ** What a transfer writes *)

(** The chunk frames of a transfer that starts with the counter at [seq]:
    one sequenced payload frame per chunk, the sequence field following the
    counter around 256. *)
Fixpoint chunk_frames (seq : Z) (chunks : list (list Z)) : list Z :=
  match chunks with
  | [] => []
  | chunk :: chunks =>
      encode [0x02; 0x04; seq] (Some chunk)
      ++ chunk_frames ((seq + 1) mod 256) chunks
  end.

(** The payload of the begin frame of a package of [f_len] bytes: the
    command and the length, most significant byte first. *)
Definition package_begin (f_len : nat) : list Z :=
  ascii_bytes "newtdocklpkg"
  ++ [Z.of_nat f_len / 2 ^ 24 mod 256; Z.of_nat f_len / 2 ^ 16 mod 256;
      Z.of_nat f_len / 2 ^ 8 mod 256; Z.of_nat f_len mod 256].

(** Everything written for one package, the counter being [seq] when it
    begins, and the counter after it. *)
Definition upload_writes (seq : Z) (data : list Z) : list Z :=
  encode [0x02; 0x04; seq] (Some (package_begin (length data)))
  ++ chunk_frames (seq + 1) (package_chunks data).

Definition counter_after (seq : Z) (data : list Z) : Z :=
  (seq + 1 + Z.of_nat (length (package_chunks data))) mod 256.

(** The acknowledgements a peer sends for one package. *)
Definition peer_upload_acks (seq : Z) (data : list Z) : list Z :=
  peer_la seq ++ peer_las_wrap (length (package_chunks data)) (seq + 1).

(** The same for a queue of packages. *)
Fixpoint uploads_writes (seq : Z) (queue : list (list Z)) : list Z :=
  match queue with
  | [] => []
  | data :: queue =>
      upload_writes seq data ++ uploads_writes (counter_after seq data) queue
  end.

Fixpoint counter_after_all (seq : Z) (queue : list (list Z)) : Z :=
  match queue with
  | [] => seq
  | data :: queue => counter_after_all (counter_after seq data) queue
  end.

Fixpoint peer_uploads_acks (seq : Z) (queue : list (list Z)) : list Z :=
  match queue with
  | [] => []
  | data :: queue =>
      peer_upload_acks seq data
      ++ peer_uploads_acks (counter_after seq data) queue
  end.

(** No package of the queue begins with the counter at 255. *)
Fixpoint begins_below_255 (seq : Z) (queue : list (list Z)) : Prop :=
  match queue with
  | [] => True
  | data :: queue =>
      seq <= 254 /\ begins_below_255 (counter_after seq data) queue
  end.

(** The lines logged and the progress reported for a queue. *)
Fixpoint uploads_log (paths : list string) : list string :=
  match paths with
  | [] => []
  | path :: paths =>
      ("Uploading " ++ path ++ "...")%string
      :: ("Finished " ++ path)%string :: uploads_log paths
  end.

Definition upload_progress (data : list Z) : list Q :=
  map (fun i => progress_value i (length data))
      (py_range 0 (length data) MAX_INFO_LEN).

Definition uploads_progress (queue : list (list Z)) : list Q :=
  flat_map upload_progress queue.

(** A queue of packages: what is required of each file. *)
Definition readable (w : world) (path : string) (data : list Z) : Prop :=
  open_rb w path = Some data
  /\ Forall is_byte data
  /\ Z.of_nat (length data) < 2 ^ 32.


(** Everything a session writes, started with the counter at [n], for a
    queue of packages: the handshake, the packages, the disconnect frame. *)
Definition session_writes (n s1 s2 s3 : Z) (queue : list (list Z)) : list Z :=
  handshake_writes n s1 s2 s3
  ++ uploads_writes (n + 3) queue
  ++ encode [0x02; 0x04; counter_after_all (n + 3) queue]
       (Some (ascii_bytes "newtdockdisc" ++ [0; 0; 0; 0])).

(** What it logs. *)
Definition session_log (name : string) (owner : string) (paths : list string)
  : list string :=
  [("Port " ++ name ++ " opened. Waiting for Newton...")%string;
   "Connected! Sending LR Frame..."%string;
   "Sending dockdock handshake..."%string;
   ("Newton Owner: " ++ owner)%string]
  ++ uploads_log paths ++ ["Session Finished."%string].

(** A port name the installer accepts. *)
Definition selectable (name : string) : Prop :=
  name <> EmptyString /\ name <> "No ports found"%string.

(** A name as 16-bit characters with the character code first: every
    character of [cs] followed by its second byte. *)
Definition wide (cs : list (ascii * Z)) : list Z :=
  flat_map (fun c => [Z.of_N (N_of_ascii (fst c)); snd c]) cs.

(** ** The port list *)

(** [str(n)] of a length. *)
Definition str_nat (n : nat) : string :=
  DecimalString.NilEmpty.string_of_uint (Nat.to_uint n).

(** [refresh_ports] on a machine whose serial ports have the device names
    [comports], in the order [serial.tools.list_ports.comports()] gives
    them.  It returns the surroundings with the new selection of the port
    combobox, which is what [run_installer] reads; the values offered in
    the drop-down list are read by none of the code. *)
Definition refresh_ports (comports : list string) (w : world) : M gui world :=
  let port_list := comports in
  let selected :=
    match port_list with
    | first :: _ => first
    | [] => "No ports found"%string
    end in
  log ("Enumerated " ++ str_nat (length port_list) ++ " ports.") ;;
  ret (mkWorld selected (speed_combo w) (serial_Serial w) (open_rb w)).

(** * Properties *)

Lemma lxor_below (n a b : Z) :
  0 <= n -> 0 <= a < 2 ^ n -> 0 <= b < 2 ^ n -> 0 <= Z.lxor a b < 2 ^ n.
Proof.
  intros Hn Ha Hb. split.
  - apply Z.lxor_nonneg. lia.
  - destruct (Z.eq_dec (Z.lxor a b) 0) as [->|Hne]; [lia|].
    assert (0 < n).
    { destruct (Z.eq_dec n 0) as [->|]; [|lia].
      replace a with 0 in Hne by (simpl in *; lia).
      replace b with 0 in Hne by (simpl in *; lia). now elim Hne. }
    apply Z.log2_lt_pow2.
    + assert (0 <= Z.lxor a b) by (apply Z.lxor_nonneg; lia). lia.
    + eapply Z.le_lt_trans; [apply Z.log2_lxor; lia|].
      apply Z.max_lub_lt.
      * destruct (Z.eq_dec a 0) as [->|]; [simpl; lia|]. apply Z.log2_lt_pow2; lia.
      * destruct (Z.eq_dec b 0) as [->|]; [simpl; lia|]. apply Z.log2_lt_pow2; lia.
Qed.

(** ** The check sequence *)

Lemma range_8 : range 8 = [0; 1; 2; 3; 4; 5; 6; 7].
Proof. reflexivity. Qed.

Lemma low_bit_test (w : Z) :
  (Z.land (w mod 256) 0x01 =? 0x01) = Z.testbit w 0.
Proof.
  change 0x01 with (Z.ones 1).
  rewrite Z.land_ones by lia.
  change (2 ^ 1) with 2.
  replace ((w mod 256) mod 2) with (w mod 2).
  - rewrite Z.bit0_odd, Zmod_odd. now destruct (Z.odd w).
  - rewrite Z.mod_mod_divide; [reflexivity|now exists 128].
Qed.

Lemma mask_bit_test (o i : Z) :
  0 <= i -> negb (Z.land o (Z.shiftl 1 i) =? 0) = Z.testbit o i.
Proof.
  intros Hi. rewrite Z.shiftl_1_l.
  destruct (Z.testbit o i) eqn:E.
  - destruct (Z.eqb_spec (Z.land o (2 ^ i)) 0) as [H0|]; [|reflexivity].
    assert (Hb : Z.testbit (Z.land o (2 ^ i)) i = true)
      by (rewrite Z.land_spec, E, Z.pow2_bits_true; auto).
    rewrite H0, Z.bits_0 in Hb. discriminate.
  - replace (Z.land o (2 ^ i)) with 0; [reflexivity|].
    symmetry. apply Z.bits_inj_0. intros n.
    rewrite Z.land_spec, Z.pow2_bits_eqb by assumption.
    destruct (Z.eqb_spec i n) as [->|]; [now rewrite E|apply andb_false_r].
Qed.

Lemma fcs_bit_spec (o w i : Z) :
  0 <= i -> fcs_bit o w i = Spec.update_bit o w i.
Proof.
  intros Hi. unfold fcs_bit, Spec.update_bit.
  rewrite low_bit_test, mask_bit_test by assumption.
  now rewrite Z.shiftr_div_pow2 by lia.
Qed.

Lemma fcs_calc_spec (w o : Z) : fcs_calc w o = Spec.update w o.
Proof.
  unfold fcs_calc, Spec.update. rewrite range_8. simpl.
  now rewrite !fcs_bit_spec by lia.
Qed.

Lemma fcs_bit_range (o w i : Z) :
  0 <= w < 2 ^ 16 -> 0 <= fcs_bit o w i < 2 ^ 16.
Proof.
  intros Hw. unfold fcs_bit.
  assert (0 <= w / 2 < 2 ^ 15).
  { split; [apply Z.div_pos; lia|apply Z.div_lt_upper_bound; lia]. }
  destruct (xorb _ _).
  - apply lxor_below; lia.
  - lia.
Qed.

Lemma fcs_calc_word (w o : Z) :
  0 <= w < 2 ^ 16 -> 0 <= fcs_calc w o < 2 ^ 16.
Proof.
  unfold fcs_calc. generalize (range 8). intros l. revert w.
  induction l as [|i l IH]; intros w Hw; simpl; [assumption|].
  apply IH, fcs_bit_range, Hw.
Qed.

Lemma fold_fcs_word (l : list Z) (w : Z) :
  0 <= w < 2 ^ 16 -> 0 <= fold_left fcs_calc l w < 2 ^ 16.
Proof.
  revert w. induction l as [|b l IH]; intros w Hw; simpl; [assumption|].
  apply IH, fcs_calc_word, Hw.
Qed.

Lemma word_halves (w : Z) :
  0 <= w < 2 ^ 16 -> is_byte (w mod 256) /\ is_byte (w / 256).
Proof.
  intros Hw. unfold is_byte. split.
  - apply Z.mod_pos_bound. lia.
  - split; [apply Z.div_pos; lia|apply Z.div_lt_upper_bound; lia].
Qed.

Lemma is_byteb_true (b : Z) : is_byte b -> is_byteb b = true.
Proof. unfold is_byte, is_byteb. intros. apply andb_true_intro. split; [apply Z.leb_le|apply Z.ltb_lt]; lia. Qed.

Lemma bytes_ok {S} (l : list Z) (s : S) :
  Forall is_byte l -> bytes l s = (Ret l, s).
Proof.
  intros H. unfold bytes.
  replace (forallb is_byteb l) with true; [reflexivity|].
  symmetry. apply forallb_forall. intros x Hx.
  apply is_byteb_true. rewrite Forall_forall in H. now apply H.
Qed.

(** C10: the check word stays a 16-bit value under every update with a
    byte, so its low and high halves are bytes and the trailer
    [bytes([fcs_word % 256, fcs_word // 256])] is built without error. *)
Theorem fcs_calc_keeps_16_bits (fcs_word octet : Z) (p : port) :
  0 <= fcs_word < 2 ^ 16 ->
  0 <= octet < 2 ^ 8 ->
  0 <= fcs_calc fcs_word octet < 2 ^ 16
  /\ 0 <= fcs_calc fcs_word octet mod 256 <= 255
  /\ 0 <= fcs_calc fcs_word octet / 256 <= 255
  /\ bytes [fcs_calc fcs_word octet mod 256; fcs_calc fcs_word octet / 256] p
     = (Ret [fcs_calc fcs_word octet mod 256; fcs_calc fcs_word octet / 256], p).
Proof.
  intros Hw _.
  pose proof (fcs_calc_word fcs_word octet Hw) as Hr.
  destruct (word_halves _ Hr) as [Hlo Hhi]. unfold is_byte in *.
  repeat split; try lia.
  apply bytes_ok. repeat constructor; unfold is_byte; lia.
Qed.

Lemma fcs_calc_keeps_16_bits_witness :
  0 <= fcs_calc 0xffff 0x10 < 2 ^ 16
  /\ 0 <= fcs_calc 0xffff 0x10 mod 256 <= 255
  /\ 0 <= fcs_calc 0xffff 0x10 / 256 <= 255
  /\ bytes [fcs_calc 0xffff 0x10 mod 256; fcs_calc 0xffff 0x10 / 256]
       (mkPort [] [] true)
     = (Ret [fcs_calc 0xffff 0x10 mod 256; fcs_calc 0xffff 0x10 / 256],
        mkPort [] [] true).
Proof. apply fcs_calc_keeps_16_bits; lia. Defined.

(** ** What [send_frame] writes *)

Lemma fold_fcs_spec (l : list Z) (w : Z) :
  fold_left fcs_calc l w = fold_left Spec.update l w.
Proof.
  revert w. induction l as [|b l IH]; intros w; simpl; [reflexivity|].
  now rewrite IH, fcs_calc_spec.
Qed.

Lemma send_octets_ok (l : list Z) :
  Forall is_byte l ->
  forall (w : Z) (p : port),
    send_octets l w p
    = (Ret (fold_left fcs_calc l w),
       mkPort (rx p) (rev (Spec.stuff l) ++ tx_rev p) (is_open p)).
Proof.
  induction 1 as [|b l Hb Hl IH]; intros w p.
  - destruct p; reflexivity.
  - cbn [send_octets]. unfold bind at 1.
    rewrite bytes_ok by (constructor; [assumption|constructor]).
    unfold bind at 1. cbn [port_write modify].
    unfold bind at 1.
    destruct (Z.eqb_spec b 0x10) as [->|Hne].
    + unfold bind at 1. rewrite bytes_ok by (repeat constructor; unfold is_byte; lia).
      cbn [port_write modify]. rewrite IH. cbn.
      change (16 =? 16) with true. cbn.
      now rewrite <- !app_assoc.
    + cbn [ret]. rewrite IH. cbn.
      destruct (Z.eqb_spec b 16) as [|_]; [contradiction|].
      cbn. now rewrite <- !app_assoc.
Qed.

Lemma send_frame_ok (head : list Z) (info : option (list Z)) (p : port) :
  Forall is_byte head ->
  Forall is_byte (payload info) ->
  send_frame head info p
  = (Ret tt,
     mkPort (rx p) (rev (Spec.wire head (payload info)) ++ tx_rev p) (is_open p)).
Proof.
  intros Hh Hi.
  assert (Hfold : fold_left fcs_calc (head ++ payload info ++ [0x03]) 0
                  = Spec.checksum head (payload info))
    by apply fold_fcs_spec.
  assert (Hw : 0 <= Spec.checksum head (payload info) < 2 ^ 16)
    by (rewrite <- Hfold; apply fold_fcs_word; lia).
  destruct (word_halves _ Hw) as [Hlo Hhi].
  rewrite !fold_left_app in Hfold. cbn [fold_left] in Hfold.
  unfold send_frame. unfold bind at 1. cbn [port_write modify].
  unfold bind at 1. rewrite send_octets_ok by assumption. cbn [rx tx_rev is_open].
  unfold bind at 1.
  assert (Hinfo :
    match info with
    | Some ((_ :: _) as i) => send_octets i (fold_left fcs_calc head 0)
    | _ => ret (fold_left fcs_calc head 0)
    end (mkPort (rx p) (rev (Spec.stuff head) ++ rev_append FRAME_START (tx_rev p)) (is_open p))
    = (Ret (fold_left fcs_calc (payload info) (fold_left fcs_calc head 0)),
       mkPort (rx p)
         (rev (Spec.stuff (payload info)) ++ rev (Spec.stuff head)
          ++ rev_append FRAME_START (tx_rev p)) (is_open p))).
  { destruct info as [[|b i]|]; try reflexivity.
    now rewrite send_octets_ok by assumption. }
  rewrite Hinfo. clear Hinfo.
  unfold bind at 1. cbn [port_write modify rx tx_rev is_open].
  change (nth 1 FRAME_END 0) with 0x03. rewrite Hfold.
  unfold bind at 1.
  rewrite bytes_ok by (constructor; [assumption|constructor; [assumption|constructor]]).
  cbn [port_write modify rx tx_rev is_open].
  f_equal. f_equal.
  unfold Spec.wire. rewrite !rev_append_rev, !rev_app_distr. cbn.
  now rewrite <- !app_assoc.
Qed.

(** C2: [fcs_calc] is the bit-serial CRC of the description, and the frame
    [send_frame] writes carries, low byte first, the fold of that update
    from 0 over the header bytes, the payload bytes and the terminator
    0x03, the bytes doubled by stuffing being counted once. *)
Theorem send_frame_checksum :
  (forall w o : Z, fcs_calc w o = Spec.update w o)
  /\ (forall (head : list Z) (info : option (list Z)) (p : port),
        Forall is_byte head ->
        Forall is_byte (payload info) ->
        exists p' : port,
          send_frame head info p = (Ret tt, p')
          /\ rx p' = rx p
          /\ tx p' =
             tx p ++ [0x16; 0x10; 0x02]
             ++ Spec.stuff head ++ Spec.stuff (payload info)
             ++ [0x10; 0x03]
             ++ [fold_left Spec.update (head ++ payload info ++ [0x03]) 0 mod 256;
                 fold_left Spec.update (head ++ payload info ++ [0x03]) 0 / 256]).
Proof.
  split; [exact fcs_calc_spec|].
  intros head info p Hh Hi. eexists. split; [now apply send_frame_ok|].
  split; [reflexivity|].
  unfold tx. cbn [tx_rev]. rewrite rev_app_distr, rev_involutive.
  reflexivity.
Qed.

Lemma send_frame_checksum_witness :
  Forall is_byte [0x02; 0x04; 0x10]
  /\ Forall is_byte (payload (Some [0x10; 0x41]))
  /\ exists p' : port,
       send_frame [0x02; 0x04; 0x10] (Some [0x10; 0x41]) (mkPort [] [] true)
       = (Ret tt, p')
       /\ rx p' = rx (mkPort [] [] true)
       /\ tx p' =
          tx (mkPort [] [] true) ++ [0x16; 0x10; 0x02]
          ++ Spec.stuff [0x02; 0x04; 0x10]
          ++ Spec.stuff (payload (Some [0x10; 0x41]))
          ++ [0x10; 0x03]
          ++ [fold_left Spec.update
                ([0x02; 0x04; 0x10] ++ payload (Some [0x10; 0x41]) ++ [0x03]) 0
              mod 256;
              fold_left Spec.update
                ([0x02; 0x04; 0x10] ++ payload (Some [0x10; 0x41]) ++ [0x03]) 0
              / 256].
Proof.
  assert (H1 : Forall is_byte [0x02; 0x04; 0x10])
    by (repeat (constructor; [unfold is_byte; lia|]); constructor).
  assert (H2 : Forall is_byte (payload (Some [0x10; 0x41])))
    by (repeat (constructor; [unfold is_byte; lia|]); constructor).
  split; [exact H1|]. split; [exact H2|].
  exact (proj2 send_frame_checksum _ _ _ H1 H2).
Defined.

(** ** What [recv_frame] reads *)

Lemma Spec_stuff_app (a b : list Z) :
  Spec.stuff (a ++ b) = Spec.stuff a ++ Spec.stuff b.
Proof. apply flat_map_app. Qed.


Lemma recv_hunt_marker (rest : list Z) :
  recv_hunt 0 (FRAME_START ++ rest) = Some rest.
Proof. destruct rest; reflexivity. Qed.

Section RecvBody.

Local Arguments fcs_calc : simpl never.

Lemma recv_body_data (w val : Z) (acc rest : list Z) :
  val <> 0x10 ->
  recv_body 0 w acc (val :: rest)
  = recv_body 0 (fcs_calc w val) (acc ++ [val]) rest.
Proof.
  intros Hne. cbn [recv_body].
  change (2 <=? 0) with false. change (0 =? 0) with true. cbv iota.
  destruct (Z.eqb_spec val 0x10); [contradiction|reflexivity].
Qed.

Lemma recv_body_escaped (w : Z) (acc rest : list Z) :
  recv_body 0 w acc (0x10 :: 0x10 :: rest)
  = recv_body 0 (fcs_calc w 0x10) (acc ++ [0x10]) rest.
Proof. reflexivity. Qed.

Lemma recv_body_end (w : Z) (acc rest : list Z) :
  recv_body 0 w acc (0x10 :: 0x03 :: rest) = Some (fcs_calc w 0x03, acc, rest).
Proof. destruct rest; reflexivity. Qed.

Lemma recv_body_stuffed (l : list Z) :
  forall (w : Z) (acc rest : list Z),
    recv_body 0 w acc (Spec.stuff l ++ FRAME_END ++ rest)
    = Some (fcs_calc (fold_left fcs_calc l w) 0x03, acc ++ l, rest).
Proof.
  induction l as [|b l IH]; intros w acc rest.
  - cbn [Spec.stuff flat_map app fold_left FRAME_END].
    now rewrite recv_body_end, app_nil_r.
  - cbn [Spec.stuff flat_map fold_left].
    fold (Spec.stuff l).
    destruct (Z.eqb_spec b 0x10) as [->|Hne].
    + cbn [app]. rewrite recv_body_escaped, IH.
      now rewrite <- app_assoc.
    + cbn [app]. rewrite recv_body_data by assumption.
      rewrite IH. now rewrite <- app_assoc.
Qed.

End RecvBody.

Lemma recv_frame_wire (head pl rest t : list Z) (o : bool) :
  recv_frame (mkPort (Spec.wire head pl ++ rest) t o)
  = (Ret (Some (head ++ pl)), mkPort rest t o).
Proof.
  assert (Hfold : fold_left fcs_calc (head ++ pl ++ [0x03]) 0
                  = Spec.checksum head pl) by apply fold_fcs_spec.
  rewrite app_assoc, fold_left_app in Hfold. cbn [fold_left] in Hfold.
  unfold recv_frame, bind at 1, get. cbn [rx].
  replace (Spec.wire head pl ++ rest)
    with (FRAME_START ++ Spec.stuff (head ++ pl) ++ FRAME_END
          ++ [Spec.checksum head pl mod 256; Spec.checksum head pl / 256]
          ++ rest)
    by (unfold Spec.wire; rewrite Spec_stuff_app, <- !app_assoc; reflexivity).
  rewrite recv_hunt_marker, recv_body_stuffed, Hfold.
  cbn. rewrite !Z.eqb_refl. reflexivity.
Qed.

Lemma tx_after_send (head : list Z) (info : option (list Z)) (p : port) :
  Forall is_byte head ->
  Forall is_byte (payload info) ->
  tx (snd (send_frame head info p)) = tx p ++ Spec.wire head (payload info).
Proof.
  intros Hh Hi. rewrite send_frame_ok by assumption.
  unfold tx. cbn [snd tx_rev]. now rewrite rev_app_distr, rev_involutive.
Qed.

Lemma encode_wire (head : list Z) (info : option (list Z)) :
  Forall is_byte head ->
  Forall is_byte (payload info) ->
  encode head info = Spec.wire head (payload info).
Proof. intros Hh Hi. unfold encode. now rewrite tx_after_send. Qed.

(** C1: whatever bytes the header and the optional payload hold, escape
    bytes included, the stream [send_frame] writes is read back by
    [recv_frame] as exactly the header followed by the payload, the check
    sequence having matched, and nothing of the stream is left unread. *)
Theorem send_recv_roundtrip (head : list Z) (info : option (list Z)) :
  Forall is_byte head ->
  Forall is_byte (payload info) ->
  exists sent : port,
    send_frame head info (mkPort [] [] true) = (Ret tt, sent)
    /\ recv_frame (mkPort (tx sent) [] true)
       = (Ret (Some (head ++ payload info)), mkPort [] [] true).
Proof.
  intros Hh Hi. eexists. split; [now apply send_frame_ok|].
  unfold tx. cbn [tx_rev]. rewrite app_nil_r, rev_involutive.
  rewrite <- (app_nil_r (Spec.wire _ _)). apply recv_frame_wire.
Qed.

Lemma send_recv_roundtrip_witness :
  Forall is_byte [0x10; 0x04; 0x10]
  /\ Forall is_byte (payload (Some [0x10; 0x10; 0x03; 0x16]))
  /\ exists sent : port,
       send_frame [0x10; 0x04; 0x10] (Some [0x10; 0x10; 0x03; 0x16])
         (mkPort [] [] true) = (Ret tt, sent)
       /\ recv_frame (mkPort (tx sent) [] true)
          = (Ret (Some ([0x10; 0x04; 0x10]
                        ++ payload (Some [0x10; 0x10; 0x03; 0x16]))),
             mkPort [] [] true).
Proof.
  assert (H1 : Forall is_byte [0x10; 0x04; 0x10])
    by (repeat (constructor; [unfold is_byte; lia|]); constructor).
  assert (H2 : Forall is_byte (payload (Some [0x10; 0x10; 0x03; 0x16])))
    by (repeat (constructor; [unfold is_byte; lia|]); constructor).
  split; [exact H1|]. split; [exact H2|].
  exact (send_recv_roundtrip _ _ H1 H2).
Defined.

(** C7, at the stream 0x16 0x16 0x10 0x02 ... : one stray 0x16 in front of a
    complete, valid frame.  The frame alone is read; with the stray byte in
    front the hunt for the start marker falls back to state 0 on the second
    0x16, misses the marker and reads the stream to its end. *)
Theorem recv_frame_misses_marker_after_0x16 :
  recv_frame (mkPort (encode [0x03; 0x05; 0x00; 0x01] None) [] true)
  = (Ret (Some [0x03; 0x05; 0x00; 0x01]), mkPort [] [] true)
  /\ firstn 4 (0x16 :: encode [0x03; 0x05; 0x00; 0x01] None)
     = [0x16; 0x16; 0x10; 0x02]
  /\ recv_hunt 0 (0x16 :: encode [0x03; 0x05; 0x00; 0x01] None) = None
  /\ recv_frame (mkPort (0x16 :: encode [0x03; 0x05; 0x00; 0x01] None) [] true)
     = (Ret None, mkPort [] [] true).
Proof. repeat (split; [vm_compute; reflexivity|]). vm_compute. reflexivity. Qed.

(** ** Chunking *)

Section Chunking.

Lemma ceil_div_step (x : nat) :
  (0 < x)%nat -> ceil_div x 256 = S (ceil_div (x - 256) 256).
Proof.
  intros Hx. unfold ceil_div.
  destruct (Nat.le_gt_cases x 256) as [Hle|Hgt].
  - replace (x - 256)%nat with 0%nat by lia.
    change ((0 + 256 - 1) / 256)%nat with 0%nat.
    symmetry. apply Nat.div_unique with (r := (x - 1)%nat); lia.
  - replace (x + 256 - 1)%nat with ((x - 256 + 256 - 1) + 1 * 256)%nat by lia.
    rewrite Nat.div_add by lia. lia.
Qed.

Lemma range_loop_offsets (fuel : nat) :
  forall i stop : nat,
    (stop - i <= fuel)%nat ->
    range_loop fuel i stop 256
    = map (fun k => (i + k * 256)%nat) (seq 0 (ceil_div (stop - i) 256)).
Proof.
  induction fuel as [|fuel IH]; intros i stop Hfuel.
  - replace (stop - i)%nat with 0%nat by lia. reflexivity.
  - cbn [range_loop]. destruct (Nat.ltb_spec i stop) as [Hlt|Hge].
    + rewrite IH by lia.
      rewrite (ceil_div_step (stop - i)) by lia.
      replace (stop - (i + 256))%nat with (stop - i - 256)%nat by lia.
      cbn [seq map]. f_equal; [lia|].
      rewrite <- seq_shift, map_map. apply map_ext. intros k. lia.
    + replace (stop - i)%nat with 0%nat by lia. reflexivity.
Qed.

Lemma py_range_offsets (L : nat) :
  py_range 0 L MAX_INFO_LEN
  = map (fun k => (k * 256)%nat) (seq 0 (ceil_div L 256)).
Proof.
  unfold py_range, MAX_INFO_LEN. rewrite range_loop_offsets by lia.
  now rewrite Nat.sub_0_r.
Qed.

Lemma pad_loop_zeros (fuel : nat) :
  forall chunk : list Z,
    ((4 - length chunk mod 4) mod 4 <= fuel)%nat ->
    pad_loop fuel chunk
    = chunk ++ repeat 0 ((4 - length chunk mod 4) mod 4).
Proof.
  induction fuel as [|fuel IH]; intros chunk Hfuel.
  - replace ((4 - length chunk mod 4) mod 4)%nat with 0%nat by lia.
    cbn. now rewrite app_nil_r.
  - cbn [pad_loop]. destruct (Nat.eqb_spec (length chunk mod 4) 0) as [H0|Hn].
    + cbn [negb]. rewrite H0. cbn. now rewrite app_nil_r.
    + cbn [negb].
      assert (Hm : (length chunk mod 4 < 4)%nat) by (apply Nat.mod_upper_bound; lia).
      assert (Hs : ((4 - length chunk mod 4) mod 4
                    = S ((4 - length (chunk ++ [0%Z]) mod 4) mod 4))%nat).
      { rewrite length_app. cbn [length].
        rewrite Nat.Div0.add_mod.
        destruct (length chunk mod 4)%nat as [|[|[|[|]]]] eqn:E; try lia; reflexivity. }
      rewrite IH by lia. rewrite Hs. cbn [repeat].
      now rewrite <- app_assoc.
Qed.

Lemma pad4_zeros (chunk : list Z) :
  pad4 chunk = chunk ++ repeat 0 ((4 - length chunk mod 4) mod 4).
Proof.
  apply pad_loop_zeros.
  assert ((4 - length chunk mod 4) mod 4 < 4)%nat by (apply Nat.mod_upper_bound; lia).
  lia.
Qed.

(** The loop of [pad4] has stopped because its condition is false, not
    because its three turns were used up. *)
Lemma pad4_aligned (chunk : list Z) : (length (pad4 chunk) mod 4 = 0)%nat.
Proof.
  rewrite pad4_zeros, length_app, repeat_length.
  assert (Hm : (length chunk mod 4 < 4)%nat) by (apply Nat.mod_upper_bound; lia).
  rewrite Nat.Div0.add_mod, Nat.Div0.mod_mod.
  destruct (length chunk mod 4)%nat as [|[|[|[|]]]]; try lia; reflexivity.
Qed.

Lemma length_slice (data : list Z) (k : nat) :
  length (slice data (k * 256) (k * 256 + MAX_INFO_LEN))
  = Nat.min MAX_INFO_LEN (length data - k * MAX_INFO_LEN).
Proof.
  unfold slice, MAX_INFO_LEN. rewrite length_firstn, length_skipn.
  replace (k * 256 + 256 - k * 256)%nat with 256%nat by lia. reflexivity.
Qed.

Lemma unpadded_chunk_at (data : list Z) (k : nat) :
  unpadded (length data) k (chunk_at data (k * 256))
  = slice data (k * 256) (k * 256 + MAX_INFO_LEN).
Proof.
  unfold unpadded, chunk_at. rewrite pad4_zeros, <- length_slice.
  rewrite firstn_app, Nat.sub_diag, firstn_all. cbn. now rewrite app_nil_r.
Qed.

Lemma padding_chunk_at (data : list Z) (k : nat) :
  padding (length data) k (chunk_at data (k * 256))
  = repeat 0 ((4 - length (slice data (k * 256) (k * 256 + MAX_INFO_LEN)) mod 4) mod 4).
Proof.
  unfold padding, chunk_at. rewrite pad4_zeros, <- length_slice.
  rewrite skipn_app, Nat.sub_diag, skipn_all. reflexivity.
Qed.

Lemma package_chunks_offsets (data : list Z) :
  package_chunks data
  = map (fun k => chunk_at data (k * 256)) (seq 0 (ceil_div (length data) 256)).
Proof. unfold package_chunks. now rewrite py_range_offsets, map_map. Qed.

Lemma unpadded_from_chunks (data : list Z) (n : nat) :
  forall k0 : nat,
    unpadded_from (length data) k0
      (map (fun k => chunk_at data (k * 256)) (seq k0 n))
    = map (fun k => slice data (k * 256) (k * 256 + MAX_INFO_LEN)) (seq k0 n).
Proof.
  induction n as [|n IH]; intros k0; [reflexivity|].
  cbn [seq map unpadded_from]. now rewrite unpadded_chunk_at, IH.
Qed.

Lemma firstn_plus {A} (a b : nat) :
  forall l : list A, firstn (a + b) l = firstn a l ++ firstn b (skipn a l).
Proof.
  induction a as [|a IH]; intros l; [reflexivity|].
  destruct l as [|x l]; cbn; [now rewrite firstn_nil|].
  now rewrite IH.
Qed.

Lemma concat_slices (data : list Z) (n : nat) :
  forall k0 : nat,
    concat (map (fun k => slice data (k * 256) (k * 256 + MAX_INFO_LEN)) (seq k0 n))
    = firstn (n * 256) (skipn (k0 * 256) data).
Proof.
  induction n as [|n IH]; intros k0; [reflexivity|].
  cbn [seq map concat]. rewrite IH. unfold slice, MAX_INFO_LEN.
  replace (k0 * 256 + 256 - k0 * 256)%nat with 256%nat by lia.
  replace (S k0 * 256)%nat with (256 + k0 * 256)%nat by lia.
  rewrite <- skipn_skipn.
  replace (S n * 256)%nat with (256 + n * 256)%nat by lia.
  symmetry. apply firstn_plus.
Qed.

Lemma ceil_div_bounds (L : nat) :
  (L <= ceil_div L 256 * 256 /\ (0 < L -> (ceil_div L 256 - 1) * 256 < L))%nat.
Proof.
  unfold ceil_div.
  pose proof (Nat.div_mod_eq (L + 256 - 1) 256) as Hd.
  pose proof (Nat.mod_upper_bound (L + 256 - 1) 256) as Hr.
  lia.
Qed.

Lemma nth_error_map_seq {A} (f : nat -> A) (n k : nat) (c : A) :
  nth_error (map f (seq 0 n)) k = Some c -> c = f k /\ (k < n)%nat.
Proof.
  intros H.
  assert (Hk : (k < n)%nat).
  { rewrite <- (length_seq n 0), <- (length_map f). apply nth_error_Some. congruence. }
  split; [|assumption].
  rewrite nth_error_map in H.
  rewrite nth_error_nth' with (d := 0%nat) in H by (rewrite length_seq; assumption).
  rewrite seq_nth in H by assumption. cbn in H. congruence.
Qed.

Lemma length_concat_le {A B} (f g : A -> list B) (l : list A) :
  (forall x, length (g x) <= length (f x))%nat ->
  (length (concat (map g l)) <= length (concat (map f l)))%nat.
Proof.
  intros Hfg. induction l as [|x l IH]; cbn; [lia|].
  rewrite !length_app. specialize (Hfg x). lia.
Qed.

Lemma skipn_last {A} (d : A) (n : nat) :
  forall l : list A, length l = S n -> skipn n l = [nth n l d].
Proof.
  induction n as [|n IH]; intros [|x l] Hl; try discriminate.
  - destruct l; [reflexivity|discriminate].
  - cbn. apply IH. cbn in Hl. lia.
Qed.

Lemma all_chunks_cover (data : list Z) :
  concat (map (fun k => slice data (k * 256) (k * 256 + MAX_INFO_LEN))
              (seq 0 (ceil_div (length data) 256)))
  = data.
Proof.
  rewrite concat_slices. cbn [Nat.mul skipn].
  apply firstn_all2. apply ceil_div_bounds.
Qed.

End Chunking.

(** The list of chunks the transfer loop builds for a package of [L > 0]
    bytes: [ceil (L / 256)] chunks, each a slice of the package followed by
    fewer than four zero bytes.  The theorem on the transfer driver ties
    the list to the frames the loop writes. *)
Lemma package_chunks_layout (data : list Z) :
  (0 < length data)%nat ->
  length (package_chunks data) = ceil_div (length data) MAX_INFO_LEN
  /\ ((length (package_chunks data) - 1) * MAX_INFO_LEN < length data
      <= length (package_chunks data) * MAX_INFO_LEN)%nat
  /\ Forall (fun chunk => (length chunk mod 4 = 0)%nat) (package_chunks data)
  /\ (forall (k : nat) (chunk : list Z),
        nth_error (package_chunks data) k = Some chunk ->
        chunk = unpadded (length data) k chunk ++ padding (length data) k chunk
        /\ unpadded (length data) k chunk
           = slice data (k * MAX_INFO_LEN) (k * MAX_INFO_LEN + MAX_INFO_LEN)
        /\ padding (length data) k chunk
           = repeat 0 (length (padding (length data) k chunk))
        /\ (length (padding (length data) k chunk) < 4)%nat)
  /\ (length data <= length (concat (package_chunks data)))%nat
  /\ concat (unpadded_from (length data) 0 (package_chunks data)) = data
  /\ (length data = 257%nat ->
      nth_error (package_chunks data) 1 = Some [nth 256 data 0; 0; 0; 0]).
Proof.
  intros HL.
  assert (Hlen : length (package_chunks data) = ceil_div (length data) 256)
    by (rewrite package_chunks_offsets, length_map; apply length_seq).
  destruct (ceil_div_bounds (length data)) as [Hup Hlow].
  split; [exact Hlen|]. split; [rewrite Hlen; unfold MAX_INFO_LEN; lia|].
  split.
  { unfold package_chunks. apply Forall_forall. intros c Hc.
    apply in_map_iff in Hc. destruct Hc as [i [<- _]]. apply pad4_aligned. }
  split.
  { intros k chunk Hk. rewrite package_chunks_offsets in Hk.
    apply nth_error_map_seq in Hk. destruct Hk as [-> _].
    split; [unfold unpadded, padding; now rewrite firstn_skipn|].
    split; [apply unpadded_chunk_at|].
    rewrite padding_chunk_at, repeat_length.
    split; [reflexivity|]. apply Nat.mod_upper_bound. lia. }
  split.
  { rewrite <- (all_chunks_cover data) at 1.
    rewrite package_chunks_offsets. apply length_concat_le.
    intros k. unfold chunk_at. rewrite pad4_zeros, length_app. lia. }
  split.
  { rewrite package_chunks_offsets, unpadded_from_chunks. apply all_chunks_cover. }
  intros H257. rewrite package_chunks_offsets, H257.
  change (ceil_div 257 256) with 2%nat. cbn [seq map nth_error].
  unfold chunk_at, slice, MAX_INFO_LEN.
  change (1 * 256)%nat with 256%nat.
  rewrite (skipn_last 0 256 data H257).
  replace (256 + 256 - 256)%nat with 256%nat by lia.
  reflexivity.
Qed.

(** ** The check sequence tells single bytes apart *)

Section Injectivity.

Lemma bit_above_word (w n : Z) :
  0 <= w < 2 ^ 16 -> 16 <= n -> Z.testbit w n = false.
Proof.
  intros Hw Hn. destruct (Z.eq_dec w 0) as [->|Hne]; [apply Z.bits_0|].
  apply Z.bits_above_log2; [lia|].
  assert (Z.log2 w < 16) by (apply Z.log2_lt_pow2; lia). lia.
Qed.

(** Bit 15 of the updated word remembers whether the polynomial was
    applied. *)
Lemma update_bit_top (o w i : Z) :
  0 <= w < 2 ^ 16 ->
  Z.testbit (Spec.update_bit o w i) 15
  = xorb (Z.testbit w 0) (Z.testbit o i).
Proof.
  intros Hw. unfold Spec.update_bit.
  destruct (xorb _ _).
  - rewrite Z.lxor_spec, Z.shiftr_spec by lia.
    rewrite bit_above_word by (assumption || lia). reflexivity.
  - rewrite Z.shiftr_spec by lia.
    apply bit_above_word; (assumption || lia).
Qed.

Lemma lxor_cancel_r (a b c : Z) : Z.lxor a c = Z.lxor b c -> a = b.
Proof.
  intros H. rewrite <- (Z.lxor_0_r a), <- (Z.lxor_0_r b).
  rewrite <- (Z.lxor_nilpotent c), <- !Z.lxor_assoc. now rewrite H.
Qed.

Lemma lxor_cancel_l (a b c : Z) : Z.lxor c a = Z.lxor c b -> a = b.
Proof. rewrite !(Z.lxor_comm c). apply lxor_cancel_r. Qed.

Lemma halves_determine (w1 w2 : Z) :
  Z.testbit w1 0 = Z.testbit w2 0 -> Z.shiftr w1 1 = Z.shiftr w2 1 -> w1 = w2.
Proof.
  intros Hb Hs. rewrite !Z.bit0_odd in Hb. rewrite <- !Z.div2_spec in Hs.
  rewrite (Z.div2_odd w1), (Z.div2_odd w2). now rewrite Hb, Hs.
Qed.

Lemma update_bit_inj (o w1 w2 i : Z) :
  0 <= w1 < 2 ^ 16 -> 0 <= w2 < 2 ^ 16 ->
  Spec.update_bit o w1 i = Spec.update_bit o w2 i -> w1 = w2.
Proof.
  intros H1 H2 Heq.
  pose proof (update_bit_top o w1 i H1) as T1.
  pose proof (update_bit_top o w2 i H2) as T2.
  rewrite Heq, T2 in T1.
  assert (Hb : Z.testbit w1 0 = Z.testbit w2 0)
    by (destruct (Z.testbit w1 0), (Z.testbit w2 0), (Z.testbit o i);
        cbn in T1; congruence).
  apply halves_determine; [assumption|].
  unfold Spec.update_bit in Heq. rewrite Hb in Heq.
  destruct (xorb _ _); [now apply lxor_cancel_r in Heq|assumption].
Qed.

Lemma update_bit_range (o w i : Z) :
  0 <= i -> 0 <= w < 2 ^ 16 -> 0 <= Spec.update_bit o w i < 2 ^ 16.
Proof. intros Hi Hw. rewrite <- fcs_bit_spec by assumption. now apply fcs_bit_range. Qed.

Lemma fold_update_bit_inj (o : Z) (l : list Z) :
  Forall (fun i => 0 <= i) l ->
  forall w1 w2 : Z,
    0 <= w1 < 2 ^ 16 -> 0 <= w2 < 2 ^ 16 ->
    fold_left (Spec.update_bit o) l w1 = fold_left (Spec.update_bit o) l w2 ->
    w1 = w2.
Proof.
  induction 1 as [|i l Hi Hl IH]; intros w1 w2 H1 H2 Heq; [assumption|].
  cbn [fold_left] in Heq.
  apply IH in Heq; try (apply update_bit_range; assumption).
  now apply update_bit_inj in Heq.
Qed.

(** For a fixed octet the update is one-to-one on 16-bit words. *)
Lemma fcs_calc_inj_word (o w1 w2 : Z) :
  0 <= w1 < 2 ^ 16 -> 0 <= w2 < 2 ^ 16 ->
  fcs_calc w1 o = fcs_calc w2 o -> w1 = w2.
Proof.
  intros H1 H2. rewrite !fcs_calc_spec. unfold Spec.update.
  apply fold_update_bit_inj; try assumption.
  repeat (constructor; [lia|]). constructor.
Qed.

(** Feeding bit [i] of [o] is feeding a zero bit to the word with [o >> i]
    mixed in. *)
Lemma update_bit_mix (o w i j : Z) :
  0 <= i -> 0 <= j ->
  Spec.update_bit 0 (Z.lxor w (Z.shiftr o i)) j
  = Z.lxor (Spec.update_bit o w i) (Z.shiftr o (i + 1)).
Proof.
  intros Hi Hj. unfold Spec.update_bit.
  rewrite Z.bits_0, xorb_false_r.
  rewrite Z.lxor_spec, Z.shiftr_spec, Z.add_0_l by lia.
  rewrite Z.shiftr_lxor, Z.shiftr_shiftr by lia.
  destruct (xorb _ _); [|reflexivity].
  rewrite !Z.lxor_assoc. f_equal. apply Z.lxor_comm.
Qed.

Lemma update_mix (w o : Z) :
  0 <= o < 2 ^ 8 -> Spec.update (Z.lxor w o) 0 = Spec.update w o.
Proof.
  intros Ho. unfold Spec.update. cbn [fold_left].
  rewrite <- (Z.shiftr_0_r o) at 1.
  rewrite !update_bit_mix by lia. cbn [Z.add Pos.add Pos.succ].
  replace (Z.shiftr o 8) with 0; [apply Z.lxor_0_r|].
  symmetry. rewrite Z.shiftr_div_pow2 by lia. apply Z.div_small. lia.
Qed.

(** For a fixed 16-bit word the update is one-to-one on bytes. *)
Lemma fcs_calc_inj_octet (w a b : Z) :
  0 <= w < 2 ^ 16 -> is_byte a -> is_byte b ->
  fcs_calc w a = fcs_calc w b -> a = b.
Proof.
  unfold is_byte. intros Hw Ha Hb.
  rewrite !fcs_calc_spec, <- (update_mix w a), <- (update_mix w b) by lia.
  rewrite <- !fcs_calc_spec. intros Heq.
  apply fcs_calc_inj_word in Heq; [now apply lxor_cancel_l in Heq| |];
    apply lxor_below; lia.
Qed.

Lemma fold_fcs_inj (l : list Z) :
  forall w1 w2 : Z,
    0 <= w1 < 2 ^ 16 -> 0 <= w2 < 2 ^ 16 ->
    fold_left fcs_calc l w1 = fold_left fcs_calc l w2 -> w1 = w2.
Proof.
  induction l as [|o l IH]; intros w1 w2 H1 H2 Heq; [assumption|].
  cbn [fold_left] in Heq.
  apply IH in Heq; try (apply fcs_calc_word; assumption).
  now apply fcs_calc_inj_word in Heq.
Qed.

(** Two byte strings that differ in exactly one place have different
    check words. *)
Lemma checksum_single_byte (before after : list Z) (a b w : Z) :
  0 <= w < 2 ^ 16 -> is_byte a -> is_byte b -> a <> b ->
  fold_left fcs_calc (before ++ a :: after) w
  <> fold_left fcs_calc (before ++ b :: after) w.
Proof.
  intros Hw Ha Hb Hab Heq.
  rewrite !fold_left_app in Heq. cbn [fold_left] in Heq.
  pose proof (fold_fcs_word before w Hw) as Hs.
  apply fold_fcs_inj in Heq; try (apply fcs_calc_word; assumption).
  now apply fcs_calc_inj_octet in Heq.
Qed.

End Injectivity.

(** ** One corrupted byte on the wire *)

Section Corruption.

Local Arguments fcs_calc : simpl never.

Lemma recv_body_stuff_prefix (l : list Z) :
  forall (w : Z) (acc rest : list Z),
    recv_body 0 w acc (Spec.stuff l ++ rest)
    = recv_body 0 (fold_left fcs_calc l w) (acc ++ l) rest.
Proof.
  induction l as [|b l IH]; intros w acc rest.
  - cbn [Spec.stuff flat_map app fold_left]. now rewrite app_nil_r.
  - cbn [Spec.stuff flat_map fold_left]. fold (Spec.stuff l).
    destruct (Z.eqb_spec b 0x10) as [->|Hne]; cbn [app].
    + rewrite recv_body_escaped, IH. now rewrite <- app_assoc.
    + rewrite recv_body_data by assumption. rewrite IH. now rewrite <- app_assoc.
Qed.

Ltac split_eqb :=
  repeat match goal with
         | |- context [Z.eqb ?a ?b] => destruct (Z.eqb_spec a b); subst; cbn
         end.

(** The hunt for the start marker finds none in a stuffed body followed by
    the end marker and a check sequence. *)
Lemma recv_hunt_tail (state lo hi : Z) :
  state = 0 \/ state = 1 -> recv_hunt state [0x10; 0x03; lo; hi] = None.
Proof. intros [-> | ->]; cbn; split_eqb; reflexivity. Qed.

Lemma recv_hunt_stuffed (l : list Z) (lo hi : Z) :
  forall state : Z,
    state = 0 \/ state = 1 ->
    recv_hunt state (Spec.stuff l ++ [0x10; 0x03; lo; hi]) = None.
Proof.
  induction l as [|b l IH]; intros state Hs.
  - now apply recv_hunt_tail.
  - cbn [Spec.stuff flat_map]. fold (Spec.stuff l).
    destruct (Z.eqb_spec b 0x10) as [->|Hne]; cbn [app].
    + destruct Hs as [-> | ->]; cbn [recv_hunt]; cbn; apply IH; now left.
    + destruct Hs as [-> | ->]; cbn [recv_hunt]; cbn.
      * destruct (Z.eqb_spec b 22); cbn; apply IH; auto.
      * destruct (Z.eqb_spec b 16); [contradiction|]. cbn. apply IH; auto.
Qed.

(** A byte of the stuffed body that is not the escape byte stands for a
    logical byte. *)
Lemma stuff_split (l : list Z) :
  forall (s1 s2 : list Z) (b : Z),
    Spec.stuff l = s1 ++ b :: s2 -> b <> 0x10 ->
    exists l1 l2 : list Z,
      l = l1 ++ b :: l2 /\ s1 = Spec.stuff l1 /\ s2 = Spec.stuff l2.
Proof.
  induction l as [|x l IH]; intros s1 s2 b Hs Hb.
  - destruct s1; discriminate.
  - cbn [Spec.stuff flat_map] in Hs. fold (Spec.stuff l) in Hs.
    destruct (Z.eqb_spec x 0x10) as [->|Hx]; cbn [app] in Hs.
    + destruct s1 as [|y [|z s1]]; cbn [app] in Hs.
      * injection Hs as <- _. contradiction.
      * injection Hs as _ <- _. contradiction.
      * injection Hs as <- <- Hs.
        destruct (IH _ _ _ Hs Hb) as [l1 [l2 [-> [-> ->]]]].
        exists (0x10 :: l1), l2. repeat split.
    + destruct s1 as [|y s1]; cbn [app] in Hs.
      * injection Hs as <- <-. exists [], l. repeat split.
      * injection Hs as <- Hs.
        destruct (IH _ _ _ Hs Hb) as [l1 [l2 [-> [-> ->]]]].
        exists (x :: l1), l2. split; [reflexivity|]. split; [|reflexivity].
        cbn [Spec.stuff flat_map].
        destruct (Z.eqb_spec x 16); [contradiction|reflexivity].
Qed.

Lemma stuff_unescaped (l1 l2 : list Z) (v : Z) :
  v <> 0x10 ->
  Spec.stuff (l1 ++ v :: l2) = Spec.stuff l1 ++ v :: Spec.stuff l2.
Proof.
  intros Hv. rewrite Spec_stuff_app. f_equal.
  cbn [Spec.stuff flat_map]. destruct (Z.eqb_spec v 16); [contradiction|reflexivity].
Qed.

(** [recv_frame] in terms of its two loops. *)
Lemma recv_frame_no_marker (input t : list Z) (o : bool) :
  recv_hunt 0 input = None ->
  recv_frame (mkPort input t o) = (Ret None, mkPort [] t o).
Proof. intros H. unfold recv_frame, bind at 1, get. cbn [rx]. now rewrite H. Qed.

Lemma recv_frame_cut_short (input body t : list Z) (o : bool) :
  recv_hunt 0 input = Some body ->
  match recv_body 0 0 [] body with
  | None => True
  | Some (_, _, rest) => (length rest < 2)%nat
  end ->
  recv_frame (mkPort input t o) = (Ret None, mkPort [] t o).
Proof.
  intros Hh Hb. unfold recv_frame, bind at 1, get. cbn [rx]. rewrite Hh.
  destruct (recv_body 0 0 [] body) as [[[w fd] rest]|]; [|reflexivity].
  destruct rest as [|x [|y rest]]; [reflexivity|reflexivity|cbn in Hb; lia].
Qed.

Lemma recv_frame_mismatch (input body frame_data t : list Z) (w lo hi : Z) (o : bool) :
  recv_hunt 0 input = Some body ->
  recv_body 0 0 [] body = Some (w, frame_data, [lo; hi]) ->
  0 <= w < 2 ^ 16 ->
  w <> lo + 256 * hi ->
  recv_frame (mkPort input t o) = (Ret None, mkPort [] t o).
Proof.
  intros Hh Hb Hw Hne. unfold recv_frame, bind at 1, get. cbn [rx].
  rewrite Hh, Hb. cbn.
  destruct (Z.eqb_spec (w mod 256) lo) as [Hlo|]; [|reflexivity].
  destruct (Z.eqb_spec (w / 256) hi) as [Hhi|]; [|reflexivity].
  exfalso. apply Hne. rewrite <- Hlo, <- Hhi.
  rewrite Z.add_comm. apply Z.div_mod. lia.
Qed.

(** The end marker with its first or its second byte replaced no longer
    ends the frame, and too little follows it for another end. *)
Lemma recv_body_broken_end_1 (w v lo hi : Z) (acc : list Z) :
  v <> 0x10 ->
  match recv_body 0 w acc [v; 0x03; lo; hi] with
  | None => True
  | Some (_, _, rest) => (length rest < 2)%nat
  end.
Proof.
  intros Hv. cbn [recv_body]. cbn.
  destruct (Z.eqb_spec v 16); [contradiction|]. split_eqb; cbn; auto.
Qed.

Lemma recv_body_broken_end_2 (w v lo hi : Z) (acc : list Z) :
  v <> 0x03 ->
  match recv_body 0 w acc [0x10; v; lo; hi] with
  | None => True
  | Some (_, _, rest) => (length rest < 2)%nat
  end.
Proof.
  intros Hv. cbn [recv_body]. cbn.
  destruct (Z.eqb_spec v 16); cbn.
  - split_eqb; cbn; auto.
  - destruct (Z.eqb_spec v 3); [contradiction|]. split_eqb; cbn; auto.
Qed.

End Corruption.

Lemma corrupt_cons (n : nat) (v x : Z) (l : list Z) :
  corrupt (S n) v (x :: l) = x :: corrupt n v l.
Proof. reflexivity. Qed.

Section SingleByte.

Variables (head : list Z) (info : option (list Z)).
Hypothesis head_bytes : Forall is_byte head.
Hypothesis info_bytes : Forall is_byte (payload info).

Let body : list Z := head ++ payload info.
Let lo : Z := Spec.checksum head (payload info) mod 256.
Let hi : Z := Spec.checksum head (payload info) / 256.

Lemma wire_layout :
  encode head info
  = 0x16 :: 0x10 :: 0x02 :: Spec.stuff body ++ [0x10; 0x03; lo; hi].
Proof.
  rewrite encode_wire by assumption. unfold Spec.wire, body, lo, hi.
  now rewrite Spec_stuff_app, <- !app_assoc.
Qed.

Lemma body_bytes : Forall is_byte body.
Proof. apply Forall_app. split; assumption. Qed.

Lemma checksum_word :
  0 <= Spec.checksum head (payload info) < 2 ^ 16
  /\ Spec.checksum head (payload info) = lo + 256 * hi.
Proof.
  assert (Hw : 0 <= Spec.checksum head (payload info) < 2 ^ 16).
  { unfold Spec.checksum. rewrite <- fold_fcs_spec. apply fold_fcs_word. lia. }
  split; [exact Hw|]. unfold lo, hi. rewrite Z.add_comm. apply Z.div_mod. lia.
Qed.

(** A replaced byte inside the stuffed header or payload, neither the old
    nor the new value being the escape byte. *)
Lemma corrupt_body (j : nat) (v : Z) (t : list Z) (o : bool) :
  (j < length (Spec.stuff body))%nat ->
  is_byte v ->
  nth j (Spec.stuff body) 0 <> v ->
  nth j (Spec.stuff body) 0 <> 0x10 ->
  v <> 0x10 ->
  recv_frame
    (mkPort (0x16 :: 0x10 :: 0x02 :: corrupt j v (Spec.stuff body)
             ++ [0x10; 0x03; lo; hi]) t o)
  = (Ret None, mkPort [] t o).
Proof.
  intros Hj Hv Hne Hesc Hv16.
  set (b := nth j (Spec.stuff body) 0) in *.
  assert (Hsplit : Spec.stuff body
                   = firstn j (Spec.stuff body) ++ b :: skipn (S j) (Spec.stuff body)).
  { rewrite <- (firstn_skipn j (Spec.stuff body)) at 1. f_equal.
    unfold b. clear - Hj. revert j Hj.
    induction (Spec.stuff body) as [|x l IH]; intros j Hj; [cbn in Hj; lia|].
    destruct j as [|j]; [reflexivity|]. cbn. apply IH. cbn in Hj. lia. }
  destruct (stuff_split _ _ _ _ Hsplit Hesc) as [l1 [l2 [Hbody [H1 H2]]]].
  assert (Hb : is_byte b).
  { pose proof body_bytes as HB. rewrite Hbody in HB.
    apply Forall_app in HB. destruct HB as [_ HB]. now inversion HB. }
  unfold corrupt. rewrite H1, H2, <- stuff_unescaped by assumption.
  destruct checksum_word as [Hw Hsum].
  assert (Hfold : forall l : list Z,
             fcs_calc (fold_left fcs_calc l 0) 0x03
             = fold_left fcs_calc (l ++ [0x03]) 0)
    by (intros l; now rewrite fold_left_app).
  eapply recv_frame_mismatch
    with (w := fcs_calc (fold_left fcs_calc (l1 ++ v :: l2) 0) 0x03).
  - apply (recv_hunt_marker (Spec.stuff (l1 ++ v :: l2) ++ [0x10; 0x03; lo; hi])).
  - change [0x10; 0x03; lo; hi] with (FRAME_END ++ [lo; hi]).
    now rewrite recv_body_stuffed.
  - apply fcs_calc_word, fold_fcs_word. lia.
  - rewrite Hfold, <- Hsum. unfold Spec.checksum. rewrite <- fold_fcs_spec.
    rewrite (app_assoc head). fold body.
    rewrite Hbody, <- !app_assoc, <- !app_comm_cons.
    apply checksum_single_byte; auto. lia.
Qed.

(** C6 as the code has it: one byte of an encoded frame replaced by a
    different byte, anywhere before the check sequence, makes [recv_frame]
    return [None], provided that inside the stuffed header and payload
    neither the old nor the new value is the escape byte 0x10. *)
Theorem corrupted_frame_rejected (pos : nat) (v : Z) (t : list Z) (o : bool) :
  (pos + 2 < length (encode head info))%nat ->
  is_byte v ->
  nth pos (encode head info) 0 <> v ->
  ((3 <= pos)%nat /\ (pos + 4 < length (encode head info))%nat ->
   nth pos (encode head info) 0 <> 0x10 /\ v <> 0x10) ->
  recv_frame (mkPort (corrupt pos v (encode head info)) t o)
  = (Ret None, mkPort [] t o).
Proof.
  rewrite wire_layout. intros Hpos Hv Hne Hesc.
  cbn [length] in Hpos, Hesc. rewrite length_app in Hpos, Hesc.
  cbn [length] in Hpos, Hesc.
  destruct pos as [|[|[|j]]].
  - (* first byte of the start marker *)
    cbn in Hne. apply recv_frame_no_marker.
    unfold corrupt. cbn [firstn skipn app recv_hunt]. cbn.
    destruct (Z.eqb_spec v 22); [congruence|]. cbn.
    apply recv_hunt_stuffed. now left.
  - cbn in Hne. apply recv_frame_no_marker.
    unfold corrupt. cbn [firstn skipn app recv_hunt]. cbn.
    destruct (Z.eqb_spec v 16); [congruence|]. cbn.
    apply recv_hunt_stuffed. now left.
  - cbn in Hne. apply recv_frame_no_marker.
    unfold corrupt. cbn [firstn skipn app recv_hunt]. cbn.
    destruct (Z.eqb_spec v 2); [congruence|]. cbn.
    apply recv_hunt_stuffed. now left.
  - cbn [nth] in Hne, Hesc.
    rewrite !corrupt_cons.
    destruct (Nat.lt_ge_cases j (length (Spec.stuff body))) as [Hin|Hout].
    + rewrite app_nth1 in Hne, Hesc by assumption.
      destruct Hesc as [Hb16 Hv16]; [lia|].
      replace (corrupt j v (Spec.stuff body ++ [0x10; 0x03; lo; hi]))
        with (corrupt j v (Spec.stuff body) ++ [0x10; 0x03; lo; hi]).
      * now apply corrupt_body.
      * unfold corrupt. rewrite firstn_app, skipn_app.
        replace (j - length (Spec.stuff body))%nat with 0%nat by lia.
        replace (S j - length (Spec.stuff body))%nat with 0%nat by lia.
        cbn [firstn skipn]. now rewrite app_nil_r, <- app_assoc.
    + rewrite app_nth2 in Hne by lia.
      assert (Hcut : forall tail : list Z,
                 match recv_body 0 0 [] (Spec.stuff body ++ tail) with
                 | None => True
                 | Some (_, _, rest) => (length rest < 2)%nat
                 end ->
                 recv_frame (mkPort (0x16 :: 0x10 :: 0x02 :: Spec.stuff body ++ tail) t o)
                 = (Ret None, mkPort [] t o)).
      { intros tail. apply recv_frame_cut_short.
        apply (recv_hunt_marker (Spec.stuff body ++ tail)). }
      unfold corrupt. rewrite firstn_app, skipn_app.
      rewrite firstn_all2, skipn_all2 by lia.
      destruct (j - length (Spec.stuff body))%nat as [|[|k]] eqn:Hk.
      * replace (S j - length (Spec.stuff body))%nat with 1%nat by lia.
        cbn [firstn skipn app nth] in *. rewrite app_nil_r.
        apply Hcut. rewrite recv_body_stuff_prefix.
        apply recv_body_broken_end_1. congruence.
      * replace (S j - length (Spec.stuff body))%nat with 2%nat by lia.
        cbn [firstn skipn app nth] in *. rewrite <- app_assoc.
        apply Hcut. rewrite recv_body_stuff_prefix.
        apply recv_body_broken_end_2. congruence.
      * lia.
Qed.

End SingleByte.

Lemma corrupted_frame_rejected_witness :
  Forall is_byte [0x02; 0x04; 0x07]
  /\ Forall is_byte (payload (Some [0x41; 0x10; 0x42]))
  /\ lt (5 + 2)%nat (length (encode [0x02; 0x04; 0x07] (Some [0x41; 0x10; 0x42])))
  /\ is_byte 0x08
  /\ nth 5 (encode [0x02; 0x04; 0x07] (Some [0x41; 0x10; 0x42])) 0 <> 0x08
  /\ recv_frame
       (mkPort (corrupt 5 0x08 (encode [0x02; 0x04; 0x07] (Some [0x41; 0x10; 0x42])))
          [] true)
     = (Ret None, mkPort [] [] true).
Proof.
  assert (H1 : Forall is_byte [0x02; 0x04; 0x07])
    by (repeat (constructor; [unfold is_byte; lia|]); constructor).
  assert (H2 : Forall is_byte (payload (Some [0x41; 0x10; 0x42])))
    by (repeat (constructor; [unfold is_byte; lia|]); constructor).
  assert (H3 : lt (5 + 2)%nat (length (encode [0x02; 0x04; 0x07] (Some [0x41; 0x10; 0x42]))))
    by (vm_compute; lia).
  assert (H4 : is_byte 0x08) by (unfold is_byte; lia).
  assert (H5 : nth 5 (encode [0x02; 0x04; 0x07] (Some [0x41; 0x10; 0x42])) 0 <> 0x08)
    by (vm_compute; discriminate).
  repeat (split; [assumption|]).
  apply (corrupted_frame_rejected _ _ H1 H2 5 0x08 [] true H3 H4 H5).
  intros _. split; vm_compute; discriminate.
Defined.

(** C6 as stated fails: in the frame with header 01 41 03 41 91 the second
    header byte, replaced by the escape byte, joins the 03 that follows it
    into an end marker, and the two bytes after that are the check sequence
    of the one-byte frame 01; [recv_frame] accepts the frame 01. *)
Lemma corrupted_frame_accepted :
  Forall is_byte [0x01; 0x41; 0x03; 0x41; 0x91]
  /\ encode [0x01; 0x41; 0x03; 0x41; 0x91] None
     = [0x16; 0x10; 0x02; 0x01; 0x41; 0x03; 0x41; 0x91; 0x10; 0x03; 0x40; 0x1f]
  /\ lt (4 + 2)%nat (length (encode [0x01; 0x41; 0x03; 0x41; 0x91] None))
  /\ is_byte 0x10
  /\ nth 4 (encode [0x01; 0x41; 0x03; 0x41; 0x91] None) 0 <> 0x10
  /\ recv_frame
       (mkPort (corrupt 4 0x10 (encode [0x01; 0x41; 0x03; 0x41; 0x91] None)) [] true)
     = (Ret (Some [0x01]), mkPort [0x10; 0x03; 0x40; 0x1f] [] true).
Proof.
  split; [repeat (constructor; [unfold is_byte; lia|]); constructor|].
  split; [vm_compute; reflexivity|].
  split; [vm_compute; lia|].
  split; [unfold is_byte; lia|].
  split; [vm_compute; discriminate|].
  vm_compute. reflexivity.
Qed.

(** ** Waiting for an acknowledgement *)

Lemma recv_frame_reads (p : port) :
  recv_frame p
  = (Ret (fst (reads (rx p))),
     mkPort (snd (reads (rx p))) (tx_rev p) (is_open p)).
Proof.
  unfold reads, recv_frame, bind, get, set_rx, modify, ret, port_read.
  cbn [rx tx_rev is_open].
  destruct (recv_hunt 0 (rx p)) as [input|]; [|reflexivity].
  destruct (recv_body 0 0 [] input) as [[[w fd] rest]|]; [|reflexivity].
  cbn [rx tx_rev is_open].
  destruct (length (firstn 2 rest) <? 2)%nat; [reflexivity|].
  destruct (negb _ || negb _); reflexivity.
Qed.

(** On a port with nothing to deliver [recv_frame] returns [None] and
    leaves the port as it was: a loop that polls it again never exits. *)
Lemma recv_frame_silent (t : list Z) (o : bool) :
  recv_frame (mkPort [] t o) = (Ret None, mkPort [] t o).
Proof. reflexivity. Qed.

Lemma on_port_recv_frame (g : gui) (p : port) :
  gui_port g = Some p ->
  on_port recv_frame g
  = (Ret (fst (reads (rx p))),
     set_port (Some (mkPort (snd (reads (rx p))) (tx_rev p) (is_open p))) g).
Proof. intros Hp. unfold on_port. now rewrite Hp, recv_frame_reads. Qed.

Lemma send_la_frame_byte (g : gui) (p : port) (seq : Z) :
  gui_port g = Some p ->
  is_byteb seq = true ->
  send_la_frame seq g
  = (Ret tt,
     set_port (Some (mkPort (rx p)
                       (rev (encode [0x03; 0x05; seq; 0x01] None) ++ tx_rev p)
                       (is_open p))) g).
Proof.
  intros Hp Hb.
  assert (Hs : is_byte seq).
  { unfold is_byteb in Hb. apply andb_prop in Hb. destruct Hb as [H0 H1].
    apply Z.leb_le in H0. apply Z.ltb_lt in H1. now split. }
  assert (Hh : Forall is_byte [0x03; 0x05; seq; 0x01]).
  { constructor; [unfold is_byte; lia|]. constructor; [unfold is_byte; lia|].
    constructor; [assumption|]. constructor; [unfold is_byte; lia|constructor]. }
  unfold send_la_frame, bind at 1. rewrite bytes_ok by assumption.
  unfold on_port. rewrite Hp, send_frame_ok by (assumption || constructor).
  now rewrite encode_wire by (assumption || constructor).
Qed.

Lemma send_la_frame_not_byte (g : gui) (seq : Z) :
  is_byteb seq = false ->
  send_la_frame seq g = (Raise (ValueError "bytes must be in range(0, 256)"), g).
Proof.
  intros Hb. unfold send_la_frame, bind at 1, bytes. cbn [forallb].
  now rewrite Hb.
Qed.

(** One turn of the loop of [wait_la_frame], spelled out. *)
Lemma wait_la_loop_turn (fuel : nat) (seq : Z) (g : gui) (p : port) :
  gui_port g = Some p ->
  wait_la_loop (S fuel) seq g
  = match rx p with
    | [] => (Hang, g)
    | _ :: _ =>
        let g1 := set_port (Some (mkPort (snd (reads (rx p))) (tx_rev p)
                                    (is_open p))) g in
        match fst (reads (rx p)) with
        | Some ((_ :: _) as recv) =>
            match nth_error recv 1 with
            | None => (Raise (IndexError "bytearray index out of range"), g1)
            | Some t =>
                if t =? 0x04 then
                  match nth_error recv 2 with
                  | None => (Raise (IndexError "bytearray index out of range"), g1)
                  | Some s =>
                      if is_byteb s then
                        wait_la_loop fuel seq
                          (set_port
                             (Some (mkPort (snd (reads (rx p)))
                                      (rev (encode [0x03; 0x05; s; 0x01] None)
                                       ++ tx_rev p) (is_open p))) g)
                      else
                        (Raise (ValueError "bytes must be in range(0, 256)"), g1)
                  end
                else if t =? 0x05 then
                  match nth_error recv 2 with
                  | None => (Raise (IndexError "bytearray index out of range"), g1)
                  | Some s =>
                      if s =? seq then (Ret true, g1)
                      else wait_la_loop fuel seq g1
                  end
                else wait_la_loop fuel seq g1
            end
        | _ => wait_la_loop fuel seq g1
        end
    end.
Proof.
  intros Hp. cbn [wait_la_loop].
  unfold bind at 1. unfold silent, bind at 1, get, ret. rewrite Hp.
  destruct (rx p) as [|b input] eqn:Hrx; [reflexivity|].
  unfold bind at 1. rewrite (on_port_recv_frame g p Hp), Hrx.
  cbv zeta.
  set (g1 := set_port _ g).
  destruct (fst (reads (b :: input))) as [[|x recv]|]; try reflexivity.
  unfold bind at 1, index at 1.
  destruct (nth_error (x :: recv) 1) as [t|] eqn:Ht; [|reflexivity].
  unfold ret at 1. unfold bind at 1.
  destruct (Z.eqb_spec t 0x04) as [->|Hn4].
  - unfold bind at 1, index at 1.
    destruct (nth_error (x :: recv) 2) as [s|]; [|reflexivity].
    unfold ret at 1.
    destruct (is_byteb s) eqn:Hs.
    + rewrite (send_la_frame_byte g1 (mkPort (snd (reads (b :: input))) (tx_rev p) (is_open p)))
        by (reflexivity || assumption).
      unfold bind at 1, index at 1. rewrite Ht. unfold ret at 1.
      change (4 =? 5) with false. cbv iota.
      reflexivity.
    + now rewrite send_la_frame_not_byte.
  - unfold bind at 1, index at 1. rewrite Ht. unfold ret at 1.
    destruct (Z.eqb_spec t 0x05) as [->|Hn5]; [|reflexivity].
    unfold bind at 1, index at 1.
    destruct (nth_error (x :: recv) 2) as [s|]; [|reflexivity].
    unfold ret at 1. now destruct (s =? seq).
Qed.

Lemma recv_hunt_shorter (input : list Z) :
  forall (state : Z) (rest : list Z),
    recv_hunt state input = Some rest ->
    (length rest <= length input)%nat
    /\ (state < 3 -> (length rest < length input)%nat).
Proof.
  induction input as [|b input IH]; intros state rest H.
  - cbn [recv_hunt] in H. destruct (Z.leb_spec 3 state); [|discriminate].
    injection H as <-. split; [reflexivity|lia].
  - cbn [recv_hunt] in H. destruct (Z.leb_spec 3 state).
    + injection H as <-. split; [reflexivity|lia].
    + apply IH in H. cbn [length]. split; intros; lia.
Qed.

Lemma recv_body_shorter (input : list Z) :
  forall (state w w' : Z) (acc frame_data rest : list Z),
    recv_body state w acc input = Some (w', frame_data, rest) ->
    (length rest <= length input)%nat.
Proof.
  induction input as [|val input IH]; intros state w w' acc fd rest H.
  - cbn [recv_body] in H. destruct (2 <=? state); [|discriminate].
    now injection H as _ _ <-.
  - cbn [recv_body] in H. destruct (2 <=? state).
    + now injection H as _ _ <-.
    + cbn [length].
      destruct (state =? 0); [destruct (val =? 16)|
        destruct (state =? 1); [destruct (val =? 16); [|destruct (val =? 3)]|]];
        apply IH in H; lia.
Qed.

(** A call of [recv_frame] on a port that still has bytes reads at least
    one of them. *)
Lemma reads_shorter (b : Z) (input : list Z) :
  (length (snd (reads (b :: input))) < length (b :: input))%nat.
Proof.
  unfold reads, recv_frame, bind, get, set_rx, modify, ret, port_read.
  cbn [rx tx_rev is_open].
  destruct (recv_hunt 0 (b :: input)) as [body|] eqn:Hh; [|cbn; lia].
  apply recv_hunt_shorter in Hh. destruct Hh as [_ Hh]. specialize (Hh ltac:(lia)).
  destruct (recv_body 0 0 [] body) as [[[w fd] rest]|] eqn:Hb; [|cbn; lia].
  apply recv_body_shorter in Hb.
  cbn [rx tx_rev is_open].
  assert (Hs : (length (skipn 2 rest) <= length rest)%nat)
    by (rewrite length_skipn; lia).
  destruct (length (firstn 2 rest) <? 2)%nat; [cbn [snd rx]; lia|].
  destruct (negb _ || negb _); cbn [snd rx]; lia.
Qed.

(** The fuel [wait_la_frame] starts its loop with is never used up. *)
Lemma wait_la_loop_fuel (fuel : nat) :
  forall (seq : Z) (g : gui) (p : port),
    gui_port g = Some p ->
    (length (rx p) < fuel)%nat ->
    fst (wait_la_loop fuel seq g) <> OutOfFuel.
Proof.
  induction fuel as [|fuel IH]; intros seq g p Hp Hfuel; [lia|].
  rewrite (wait_la_loop_turn fuel seq g p Hp).
  destruct (rx p) as [|b input] eqn:Hrx; [discriminate|].
  pose proof (reads_shorter b input) as Hshort. cbn [length] in Hfuel, Hshort.
  cbv zeta.
  assert (Hnext : forall t : list Z,
             fst (wait_la_loop fuel seq
                    (set_port (Some (mkPort (snd (reads (b :: input))) t (is_open p))) g))
             <> OutOfFuel).
  { intros t. eapply IH; [reflexivity|]. cbn [rx]. lia. }
  destruct (fst (reads (b :: input))) as [[|x recv]|]; try apply Hnext.
  destruct (nth_error (x :: recv) 1) as [t|]; [|discriminate].
  destruct (t =? 4).
  - destruct (nth_error (x :: recv) 2) as [s|]; [|discriminate].
    destruct (is_byteb s); [apply Hnext|discriminate].
  - destruct (t =? 5); [|apply Hnext].
    destruct (nth_error (x :: recv) 2) as [s|]; [|discriminate].
    destruct (s =? seq); [discriminate|apply Hnext].
Qed.

Lemma wait_la_loop_acknowledges (fuel : nat) :
  forall (seq : Z) (g g' : gui) (p : port),
    gui_port g = Some p ->
    wait_la_loop fuel seq g = (Ret true, g') ->
    exists (frames : list (list Z)) (last : list Z) (p' : port),
      gui_port g' = Some p'
      /\ frames_read (rx p) (frames ++ [last]) (rx p')
      /\ is_la_for seq last
      /\ Forall (fun frame => ~ is_la_for seq frame) frames
      /\ tx p' = tx p ++ flat_map dock_ack frames.
Proof.
  induction fuel as [|fuel IH]; intros seq g g' p Hp H; [discriminate|].
  rewrite (wait_la_loop_turn fuel seq g p Hp) in H.
  destruct (rx p) as [|b input] eqn:Hrx; [discriminate|].
  destruct (reads (b :: input)) as [r rest] eqn:Hreads.
  cbn [fst snd] in H. cbv zeta in H.
  assert (Hskip : forall t : list Z,
             wait_la_loop fuel seq
               (set_port (Some (mkPort rest t (is_open p))) g) = (Ret true, g') ->
             exists (frames : list (list Z)) (last : list Z) (p' : port),
               gui_port g' = Some p'
               /\ frames_read rest (frames ++ [last]) (rx p')
               /\ is_la_for seq last
               /\ Forall (fun frame => ~ is_la_for seq frame) frames
               /\ tx p' = rev t ++ flat_map dock_ack frames).
  { intros t Ht. eapply IH in Ht; [|reflexivity]. exact Ht. }
  destruct r as [[|x recv]|].
  - destruct (Hskip _ H) as (frames & last & p' & Hg & Hr & Hla & Hno & Htx).
    exists frames, last, p'. repeat split; try assumption; try apply Hla.
    eapply read_empty; eassumption.
  - destruct (nth_error (x :: recv) 1) as [t|] eqn:Ht; [|discriminate].
    destruct (Z.eqb_spec t 0x04) as [->|Hn4].
    + destruct (nth_error (x :: recv) 2) as [s|] eqn:Hs; [|discriminate].
      destruct (is_byteb s); [|discriminate].
      destruct (Hskip _ H) as (frames & last & p' & Hg & Hr & Hla & Hno & Htx).
      exists ((x :: recv) :: frames), last, p'. repeat split; try assumption; try apply Hla.
      * eapply read_frame; eassumption.
      * constructor; [|assumption]. intros [H5 _]. congruence.
      * rewrite Htx, rev_app_distr, rev_involutive. cbn [flat_map].
        unfold dock_ack at 2. rewrite Ht, Hs. cbn. unfold tx.
        now rewrite <- app_assoc.
    + destruct (Z.eqb_spec t 0x05) as [->|Hn5].
      * destruct (nth_error (x :: recv) 2) as [s|] eqn:Hs; [|discriminate].
        destruct (Z.eqb_spec s seq) as [->|Hns].
        -- injection H as <-. exists [], (x :: recv), (mkPort rest (tx_rev p) (is_open p)).
           repeat split; try assumption; try apply Hla.
           ++ eapply read_frame; [eassumption|constructor].
           ++ constructor.
           ++ cbn. now rewrite app_nil_r.
        -- destruct (Hskip _ H) as (frames & last & p' & Hg & Hr & Hla & Hno & Htx).
           exists ((x :: recv) :: frames), last, p'. repeat split; try assumption; try apply Hla.
           ++ eapply read_frame; eassumption.
           ++ constructor; [|assumption]. intros [_ H5]. congruence.
           ++ rewrite Htx. cbn [flat_map]. unfold dock_ack at 2. now rewrite Ht, Hs.
      * destruct (Hskip _ H) as (frames & last & p' & Hg & Hr & Hla & Hno & Htx).
        exists ((x :: recv) :: frames), last, p'. repeat split; try assumption; try apply Hla.
        -- eapply read_frame; eassumption.
        -- constructor; [|assumption]. intros [H5 _]. congruence.
        -- rewrite Htx. cbn [flat_map]. unfold dock_ack at 2. rewrite Ht.
           destruct (nth_error (x :: recv) 2); [|reflexivity].
           destruct (Z.eqb_spec t 4); [contradiction|reflexivity].
  - destruct (Hskip _ H) as (frames & last & p' & Hg & Hr & Hla & Hno & Htx).
    exists frames, last, p'. repeat split; try assumption; try apply Hla.
    eapply read_nothing; eassumption.
Qed.

Lemma wait_la_frame_fuel (seq : Z) (g : gui) (p : port) :
  gui_port g = Some p -> fst (wait_la_frame seq g) <> OutOfFuel.
Proof.
  intros Hp. unfold wait_la_frame, bind, get.
  eapply wait_la_loop_fuel; [eassumption|].
  unfold pending. rewrite Hp. lia.
Qed.

(** The same for the loops of the handshake, whatever they do before
    [break], as long as that is not itself a loop short of fuel. *)
Lemma await_loop_fuel (fuel : nat) :
  forall (tag : Z) (body : list Z -> M gui unit) (g : gui) (p : port),
    (forall (recv : list Z) (g0 : gui), fst (body recv g0) <> OutOfFuel) ->
    gui_port g = Some p ->
    (length (rx p) < fuel)%nat ->
    fst (await_loop fuel tag body g) <> OutOfFuel.
Proof.
  induction fuel as [|fuel IH]; intros tag body g p Hbody Hp Hfuel; [lia|].
  cbn [await_loop]. unfold bind at 1. unfold silent, bind at 1, get, ret.
  rewrite Hp. destruct (rx p) as [|b input] eqn:Hrx; [discriminate|].
  unfold bind at 1. rewrite (on_port_recv_frame g p Hp), Hrx.
  pose proof (reads_shorter b input) as Hshort. cbn [length] in Hfuel, Hshort.
  assert (Hnext : fst (await_loop fuel tag body
                         (set_port (Some (mkPort (snd (reads (b :: input)))
                                            (tx_rev p) (is_open p))) g))
                  <> OutOfFuel).
  { eapply IH; [exact Hbody|reflexivity|]. cbn [rx]. lia. }
  destruct (fst (reads (b :: input))) as [[|x recv]|]; try exact Hnext.
  unfold bind at 1, index at 1.
  destruct (nth_error (x :: recv) 1) as [t|]; [|discriminate].
  unfold ret at 1. destruct (t =? tag); [apply Hbody|exact Hnext].
Qed.

Lemma await_fuel (tag : Z) (body : list Z -> M gui unit) (g : gui) (p : port) :
  (forall (recv : list Z) (g0 : gui), fst (body recv g0) <> OutOfFuel) ->
  gui_port g = Some p ->
  fst (await tag body g) <> OutOfFuel.
Proof.
  intros Hbody Hp. unfold await, bind, get.
  eapply await_loop_fuel; [exact Hbody|exact Hp|].
  unfold pending. rewrite Hp. lia.
Qed.

(** C8: when [wait_la_frame seq] returns, the frames [recv_frame] delivered
    during the wait were some frames, none of them an acknowledgement for
    [seq], followed by an acknowledgement for [seq]; and for each of the
    frames with tag 0x04 among them an LA frame for its sequence number has
    been written, in the order they came, and nothing else. *)
Theorem wait_la_frame_acknowledges_docks (seq : Z) (g g' : gui) (p : port) :
  gui_port g = Some p ->
  wait_la_frame seq g = (Ret true, g') ->
  exists (frames : list (list Z)) (last : list Z) (p' : port),
    gui_port g' = Some p'
    /\ frames_read (rx p) (frames ++ [last]) (rx p')
    /\ is_la_for seq last
    /\ Forall (fun frame => ~ is_la_for seq frame) frames
    /\ tx p' = tx p ++ flat_map dock_ack frames.
Proof.
  intros Hp H. unfold wait_la_frame, bind at 1, get in H.
  eapply wait_la_loop_acknowledges; eassumption.
Qed.

Lemma wait_la_frame_acknowledges_docks_witness :
  gui_port (gui_on (peer_lt 7 [0x41] ++ peer_la 9 ++ peer_la 2) 2)
  = Some (mkPort (peer_lt 7 [0x41] ++ peer_la 9 ++ peer_la 2) [] true)
  /\ wait_la_frame 2 (gui_on (peer_lt 7 [0x41] ++ peer_la 9 ++ peer_la 2) 2)
     = (Ret true,
        snd (wait_la_frame 2 (gui_on (peer_lt 7 [0x41] ++ peer_la 9 ++ peer_la 2) 2)))
  /\ exists (frames : list (list Z)) (last : list Z) (p' : port),
       gui_port (snd (wait_la_frame 2
                        (gui_on (peer_lt 7 [0x41] ++ peer_la 9 ++ peer_la 2) 2)))
       = Some p'
       /\ frames_read (peer_lt 7 [0x41] ++ peer_la 9 ++ peer_la 2)
            (frames ++ [last]) (rx p')
       /\ is_la_for 2 last
       /\ Forall (fun frame => ~ is_la_for 2 frame) frames
       /\ tx p' = [] ++ flat_map dock_ack frames.
Proof.
  assert (H1 : gui_port (gui_on (peer_lt 7 [0x41] ++ peer_la 9 ++ peer_la 2) 2)
               = Some (mkPort (peer_lt 7 [0x41] ++ peer_la 9 ++ peer_la 2) [] true))
    by reflexivity.
  assert (H2 : wait_la_frame 2 (gui_on (peer_lt 7 [0x41] ++ peer_la 9 ++ peer_la 2) 2)
               = (Ret true,
                  snd (wait_la_frame 2
                         (gui_on (peer_lt 7 [0x41] ++ peer_la 9 ++ peer_la 2) 2))))
    by (vm_compute; reflexivity).
  split; [exact H1|]. split; [exact H2|].
  exact (wait_la_frame_acknowledges_docks _ _ _ _ H1 H2).
Defined.

(** ** Sessions *)

(** Concrete runs are settled by evaluating them, one conjunct at a time. *)
Ltac conjuncts := repeat match goal with |- _ /\ _ => split end.
Ltac run := vm_compute; reflexivity.

(** What the claims look at in the outcome of a session. *)
Lemma session_300_summary :
  (fun r : outcome unit * gui =>
     (fst r, last (debug_text (snd r)) EmptyString, port_is_open (snd r),
      progress (snd r)))
    session_300
  = (Ret tt, "Session Finished."%string, false,
     [progress_value 0 300; progress_value 256 300]).
Proof. run. Qed.

Lemma session_missing_file_summary :
  (fun r : outcome unit * gui =>
     (fst r, last (debug_text (snd r)) EmptyString,
      start_btn_enabled (snd r), port_is_open (snd r)))
    session_missing_file
  = (Ret tt, "ERROR: [Errno 2] No such file or directory: 'a.pkg'"%string,
     true, true).
Proof. run. Qed.

Lemma session_short_frame_summary :
  (fun r : outcome unit * gui =>
     (fst r, last (debug_text (snd r)) EmptyString,
      start_btn_enabled (snd r), port_is_open (snd r)))
    session_short_frame
  = (Ret tt, "ERROR: bytearray index out of range"%string, true, true).
Proof. run. Qed.

(** C5, on two sessions that fail after the port was opened, next to one
    that succeeds: the failure is caught and logged, the button is enabled
    again, and the port is closed by the session that succeeds only. *)
Theorem failed_session_leaves_port_open :
  (fst session_300 = Ret tt
   /\ last (debug_text (snd session_300)) EmptyString = "Session Finished."%string
   /\ port_is_open (snd session_300) = false)
  /\ (fst session_missing_file = Ret tt
      /\ last (debug_text (snd session_missing_file)) EmptyString
         = "ERROR: [Errno 2] No such file or directory: 'a.pkg'"%string
      /\ start_btn_enabled (snd session_missing_file) = true
      /\ port_is_open (snd session_missing_file) = true)
  /\ (fst session_short_frame = Ret tt
      /\ last (debug_text (snd session_short_frame)) EmptyString
         = "ERROR: bytearray index out of range"%string
      /\ start_btn_enabled (snd session_short_frame) = true
      /\ port_is_open (snd session_short_frame) = true).
Proof.
  generalize session_300_summary, session_missing_file_summary,
    session_short_frame_summary.
  generalize session_300, session_missing_file, session_short_frame.
  intros r1 r2 r3 H1 H2 H3. cbv beta in H1, H2, H3.
  injection H1 as H11 H12 H13 _.
  injection H2 as H21 H22 H23 H24.
  injection H3 as H31 H32 H33 H34.
  conjuncts; assumption.
Qed.

(** C9, on the 300-byte package: two chunks are sent and acknowledged, the
    values reported are 0 after the first and 256/300 of 100 after the
    second and last, where the bytes sent are 256 and 300 of 300. *)
Theorem progress_reports_chunk_offset :
  fst session_300 = Ret tt
  /\ last (debug_text (snd session_300)) EmptyString = "Session Finished."%string
  /\ length (package_chunks (repeat 0x41 300)) = 2%nat
  /\ progress (snd session_300) = [progress_value 0 300; progress_value 256 300]
  /\ (progress_value 0 300 == 0)%Q
  /\ (progress_value 256 300 == 256 # 3)%Q
  /\ ~ (progress_value 256 300 == 100)%Q.
Proof.
  generalize session_300_summary. generalize session_300.
  intros r H. cbv beta in H. injection H as H1 H2 _ H4.
  split; [exact H1|]. split; [exact H2|]. split; [run|]. split; [exact H4|].
  split; [run|]. split; [run|]. vm_compute. discriminate.
Qed.

(** The chunk loop keeps the counter a byte and, left to itself, brings it
    back to where it started after 256 frames. *)
Lemma incr_lt_seq_no_mod_byte (g : gui) :
  0 <= lt_seq_no (snd (incr_lt_seq_no_mod g)) < 256.
Proof. cbn. apply Z.mod_pos_bound. lia. Qed.

Lemma incr_lt_seq_no_mod_next (g : gui) :
  lt_seq_no (snd (incr_lt_seq_no_mod g)) = (lt_seq_no g + 1) mod 256.
Proof. reflexivity. Qed.

Lemma incr_lt_seq_no_mod_iter (n : nat) (g : gui) :
  0 <= lt_seq_no g < 256 ->
  lt_seq_no (Nat.iter n (fun g => snd (incr_lt_seq_no_mod g)) g)
  = (lt_seq_no g + Z.of_nat n) mod 256.
Proof.
  intros Hg. induction n as [|n IH].
  - cbn. rewrite Z.add_0_r. symmetry. now apply Z.mod_small.
  - rewrite Nat.iter_succ, incr_lt_seq_no_mod_next, IH, Zplus_mod_idemp_l.
    f_equal. lia.
Qed.

Lemma incr_lt_seq_no_mod_cycle (g : gui) :
  0 <= lt_seq_no g < 256 ->
  lt_seq_no (Nat.iter 256 (fun g => snd (incr_lt_seq_no_mod g)) g) = lt_seq_no g.
Proof.
  intros Hg. rewrite incr_lt_seq_no_mod_iter by assumption.
  change (Z.of_nat 256) with (1 * 256). rewrite Z.mod_add by lia.
  now apply Z.mod_small.
Qed.


(** ** Running a transfer against a peer that acknowledges *)

Lemma bind_ret {S A B} (m : M S A) (k : A -> M S B) (s s' : S) (a : A) :
  m s = (Ret a, s') -> bind m k s = k a s'.
Proof. intros H. unfold bind. now rewrite H. Qed.

Lemma bind_raise {S A B} (m : M S A) (k : A -> M S B) (s s' : S) (e : exn) :
  m s = (Raise e, s') -> bind m k s = (Raise e, s').
Proof. intros H. unfold bind. now rewrite H. Qed.

Lemma la_head_bytes (seq : Z) :
  is_byte seq -> Forall is_byte [0x03; 0x05; seq; 0x01].
Proof.
  intros Hs. constructor; [unfold is_byte; lia|]. constructor; [unfold is_byte; lia|].
  constructor; [assumption|]. constructor; [unfold is_byte; lia|constructor].
Qed.

Lemma lt_head_bytes (seq : Z) :
  is_byte seq -> Forall is_byte [0x02; 0x04; seq].
Proof.
  intros Hs. constructor; [unfold is_byte; lia|]. constructor; [unfold is_byte; lia|].
  constructor; [assumption|constructor].
Qed.

Lemma reads_wire (head pl rest : list Z) :
  reads (Spec.wire head pl ++ rest) = (Some (head ++ pl), rest).
Proof. unfold reads. now rewrite recv_frame_wire. Qed.

Lemma reads_peer_la (seq : Z) (rest : list Z) :
  is_byte seq -> reads (peer_la seq ++ rest) = (Some [0x03; 0x05; seq; 0x01], rest).
Proof.
  intros Hs. unfold peer_la.
  rewrite encode_wire by (apply la_head_bytes, Hs || constructor).
  apply reads_wire.
Qed.

Lemma peer_la_cons (seq : Z) (rest : list Z) :
  is_byte seq -> exists tail : list Z, peer_la seq ++ rest = 0x16 :: tail.
Proof.
  intros Hs. unfold peer_la.
  rewrite encode_wire by (apply la_head_bytes, Hs || constructor).
  eexists. reflexivity.
Qed.

(** The wait ends at once on the acknowledgement it waits for. *)
Lemma wait_la_current_acked (seq : Z) (input t : list Z) (o : bool)
      (files dt : list string) (pr : list Q) (sb : bool) :
  is_byte seq ->
  wait_la_current
    (mkGui (Some (mkPort (peer_la seq ++ input) t o)) seq files dt pr sb)
  = (Ret true, mkGui (Some (mkPort input t o)) seq files dt pr sb).
Proof.
  intros Hs. unfold wait_la_current, bind at 1, get. cbn [lt_seq_no].
  unfold wait_la_frame, bind at 1, get.
  rewrite wait_la_loop_turn with (p := mkPort (peer_la seq ++ input) t o)
    by reflexivity.
  cbn [rx tx_rev is_open]. rewrite reads_peer_la by assumption.
  destruct (peer_la_cons seq input Hs) as [tail ->].
  cbn. now rewrite Z.eqb_refl.
Qed.

Lemma send_lt_frame_byte (info : list Z) (seq : Z) (input t : list Z) (o : bool)
      (files dt : list string) (pr : list Q) (sb : bool) :
  is_byte seq ->
  Forall is_byte info ->
  send_lt_frame info (mkGui (Some (mkPort input t o)) seq files dt pr sb)
  = (Ret tt,
     mkGui (Some (mkPort input (rev (Spec.wire [0x02; 0x04; seq] info) ++ t) o))
       seq files dt pr sb).
Proof.
  intros Hs Hi. unfold send_lt_frame, bind at 1, get. cbn [lt_seq_no].
  unfold bind at 1. rewrite bytes_ok by now apply lt_head_bytes.
  unfold on_port. cbn [gui_port].
  now rewrite send_frame_ok by (apply lt_head_bytes, Hs || exact Hi).
Qed.

Lemma send_lt_frame_not_byte (info : list Z) (g : gui) :
  is_byteb (lt_seq_no g) = false ->
  send_lt_frame info g
  = (Raise (ValueError "bytes must be in range(0, 256)"), g).
Proof.
  intros Hs. unfold send_lt_frame, bind at 1, get.
  unfold bind at 1, bytes. cbn [forallb]. now rewrite Hs.
Qed.

Lemma Forall_firstn {A} (P : A -> Prop) (n : nat) :
  forall l : list A, Forall P l -> Forall P (firstn n l).
Proof.
  induction n as [|n IH]; intros l Hl; [constructor|].
  destruct Hl as [|x l Hx Hl]; cbn; constructor; auto.
Qed.

Lemma Forall_skipn {A} (P : A -> Prop) (n : nat) :
  forall l : list A, Forall P l -> Forall P (skipn n l).
Proof.
  induction n as [|n IH]; intros l Hl; [assumption|].
  destruct Hl as [|x l Hx Hl]; cbn; [constructor|auto].
Qed.

Lemma chunk_at_bytes (data : list Z) (i : nat) :
  Forall is_byte data -> Forall is_byte (chunk_at data i).
Proof.
  intros Hd. unfold chunk_at. rewrite pad4_zeros. apply Forall_app. split.
  - unfold slice. now apply Forall_firstn, Forall_skipn.
  - apply Forall_forall. intros x Hx. apply repeat_spec in Hx. subst.
    unfold is_byte. lia.
Qed.

Lemma peer_las_app (n m : nat) :
  forall first : Z,
    peer_las (n + m) first
    = peer_las n first ++ peer_las m (first + Z.of_nat n).
Proof.
  induction n as [|n IH]; intros first.
  - cbn [Nat.add peer_las app Z.of_nat]. now rewrite Z.add_0_r.
  - cbn [Nat.add peer_las]. rewrite IH, <- app_assoc. do 3 f_equal. lia.
Qed.

(** The chunk loop against a peer that acknowledges every chunk, the
    counter staying below its wrap. *)
Lemma send_chunks_acked (data : list Z) (f_len : nat) (offsets : list nat) :
  Forall is_byte data ->
  forall (seq : Z) (input t : list Z) (o : bool)
         (files dt : list string) (pr : list Q) (sb : bool),
    0 <= seq ->
    seq + Z.of_nat (length offsets) <= 255 ->
    exists t' : list Z,
      send_chunks data f_len offsets
        (mkGui (Some (mkPort (peer_las (length offsets) seq ++ input) t o))
           seq files dt pr sb)
      = (Ret tt,
         mkGui (Some (mkPort input t' o)) (seq + Z.of_nat (length offsets))
           files dt (pr ++ map (fun i => progress_value i f_len) offsets) sb).
Proof.
  intros Hd. induction offsets as [|i offsets IH];
    intros seq input t o files dt pr sb Hseq Hmax.
  - exists t. cbn. now rewrite Z.add_0_r, app_nil_r.
  - cbn [length] in Hmax. cbn [length peer_las send_chunks].
    rewrite <- app_assoc.
    assert (Hs : is_byte seq) by (unfold is_byte; lia).
    erewrite bind_ret
      by (apply send_lt_frame_byte; [exact Hs|apply chunk_at_bytes, Hd]).
    erewrite bind_ret by (apply wait_la_current_acked, Hs).
    erewrite bind_ret by reflexivity.
    erewrite bind_ret by reflexivity.
    unfold add_progress, set_lt_seq_no.
    cbn [lt_seq_no gui_port file_list debug_text progress start_btn_enabled].
    rewrite (Z.mod_small (seq + 1)) by lia.
    destruct (IH (seq + 1) input
                 (rev (Spec.wire [0x02; 0x04; seq] (chunk_at data i)) ++ t)
                 o files dt (pr ++ [progress_value i f_len]) sb)
      as [t' Ht']; [lia|lia|].
    exists t'. rewrite Ht'. cbn [map]. rewrite <- app_assoc. cbn [app].
    do 2 f_equal. lia.
Qed.

Lemma to_bytes4_big_ok {S} (n : Z) (s : S) :
  0 <= n < 2 ^ 32 ->
  to_bytes4_big n s
  = (Ret [n / 2 ^ 24 mod 256; n / 2 ^ 16 mod 256; n / 2 ^ 8 mod 256; n mod 256], s)
  /\ Forall is_byte
       [n / 2 ^ 24 mod 256; n / 2 ^ 16 mod 256; n / 2 ^ 8 mod 256; n mod 256].
Proof.
  intros Hn. split.
  - unfold to_bytes4_big.
    destruct (Z.leb_spec 0 n); [|lia]. destruct (Z.ltb_spec n (2 ^ 32)); [|lia].
    reflexivity.
  - repeat (constructor; [apply Z.mod_pos_bound; lia|]). constructor.
Qed.

Lemma lpkg_bytes (n : Z) :
  0 <= n < 2 ^ 32 ->
  Forall is_byte
    (ascii_bytes "newtdocklpkg"
     ++ [n / 2 ^ 24 mod 256; n / 2 ^ 16 mod 256; n / 2 ^ 8 mod 256; n mod 256]).
Proof.
  intros Hn. apply Forall_app. split; [|now apply to_bytes4_big_ok with (s := tt)].
  cbn. repeat (constructor; [unfold is_byte; lia|]). constructor.
Qed.

(** The begin frame of a package, acknowledged: lines 217 to 220. *)
Lemma upload_begin_acked (n seq : Z) (input t : list Z) (o : bool)
      (files dt : list string) (pr : list Q) (sb : bool) (k : unit -> M gui unit) :
  0 <= n < 2 ^ 32 ->
  is_byte seq ->
  exists t' : list Z,
    (len4 <- to_bytes4_big n ;;
     send_lt_frame (ascii_bytes "newtdocklpkg" ++ len4) ;;
     wait_la_current ;;
     x <- incr_lt_seq_no ;;
     k x)
      (mkGui (Some (mkPort (peer_la seq ++ input) t o)) seq files dt pr sb)
    = k tt (mkGui (Some (mkPort input t' o)) (seq + 1) files dt pr sb).
Proof.
  intros Hn Hs. eexists.
  erewrite bind_ret by now apply to_bytes4_big_ok.
  erewrite bind_ret by (apply send_lt_frame_byte; [exact Hs|now apply lpkg_bytes]).
  erewrite bind_ret by (apply wait_la_current_acked, Hs).
  erewrite bind_ret by reflexivity.
  reflexivity.
Qed.

(** A whole package against a peer that acknowledges every frame, the
    counter staying below its wrap. *)
Lemma upload_acked (w : world) (path : string) (data : list Z) :
  open_rb w path = Some data ->
  Forall is_byte data ->
  Z.of_nat (length data) < 2 ^ 32 ->
  forall (seq : Z) (input t : list Z) (o : bool)
         (files dt : list string) (pr : list Q) (sb : bool),
    0 <= seq ->
    seq + 1 + Z.of_nat (length (package_chunks data)) <= 255 ->
    exists t' : list Z,
      upload w path
        (mkGui (Some (mkPort (peer_las (S (length (package_chunks data))) seq
                              ++ input) t o))
           seq files dt pr sb)
      = (Ret tt,
         mkGui (Some (mkPort input t' o))
           (seq + 1 + Z.of_nat (length (package_chunks data)))
           files
           ((dt ++ [("Uploading " ++ path ++ "...")%string])
            ++ [("Finished " ++ path)%string])
           (pr ++ map (fun i => progress_value i (length data))
                      (py_range 0 (length data) MAX_INFO_LEN))
           sb).
Proof.
  intros Hopen Hd Hlen seq input t o files dt pr sb Hseq Hmax.
  assert (Hn : length (package_chunks data)
               = length (py_range 0 (length data) MAX_INFO_LEN))
    by (unfold package_chunks; apply length_map).
  unfold upload. rewrite Hopen. cbv zeta.
  erewrite bind_ret by reflexivity. unfold add_debug_text.
  cbn [lt_seq_no gui_port file_list debug_text progress start_btn_enabled].
  cbn [peer_las]. rewrite <- app_assoc.
  destruct (upload_begin_acked (Z.of_nat (length data)) seq
              (peer_las (length (package_chunks data)) (seq + 1) ++ input)
              t o files (dt ++ [("Uploading " ++ path ++ "...")%string]) pr sb
              (fun _ => send_chunks data (length data)
                          (py_range 0 (length data) MAX_INFO_LEN) ;;
                        log ("Finished " ++ path)))
    as [t1 H1]; [lia|unfold is_byte; lia|].
  rewrite H1. clear H1. rewrite Hn in *.
  destruct (send_chunks_acked data (length data)
              (py_range 0 (length data) MAX_INFO_LEN) Hd (seq + 1) input t1 o
              files (dt ++ [("Uploading " ++ path ++ "...")%string]) pr sb)
    as [t2 H2]; [lia|lia|].
  erewrite bind_ret by exact H2.
  exists t2. unfold log, modify, add_debug_text.
  cbn [lt_seq_no gui_port file_list debug_text progress start_btn_enabled].
  reflexivity.
Qed.

(** A package begun with the counter at 255: the begin frame goes out and
    is acknowledged, the counter becomes 256, and the first chunk frame
    cannot be built. *)
Lemma upload_from_255 (w : world) (path : string) (data : list Z) :
  open_rb w path = Some data ->
  (0 < length data)%nat ->
  Z.of_nat (length data) < 2 ^ 32 ->
  forall (input t : list Z) (o : bool)
         (files dt : list string) (pr : list Q) (sb : bool),
    exists t' : list Z,
      upload w path
        (mkGui (Some (mkPort (peer_la 255 ++ input) t o)) 255 files dt pr sb)
      = (Raise (ValueError "bytes must be in range(0, 256)"),
         mkGui (Some (mkPort input t' o)) 256 files
           (dt ++ [("Uploading " ++ path ++ "...")%string]) pr sb).
Proof.
  intros Hopen Hpos Hlen input t o files dt pr sb.
  unfold upload. rewrite Hopen. cbv zeta.
  erewrite bind_ret by reflexivity. unfold add_debug_text.
  cbn [lt_seq_no gui_port file_list debug_text progress start_btn_enabled].
  destruct (upload_begin_acked (Z.of_nat (length data)) 255 input
              t o files (dt ++ [("Uploading " ++ path ++ "...")%string]) pr sb
              (fun _ => send_chunks data (length data)
                          (py_range 0 (length data) MAX_INFO_LEN) ;;
                        log ("Finished " ++ path)))
    as [t1 H1]; [lia|unfold is_byte; lia|].
  rewrite H1. clear H1. exists t1.
  apply bind_raise.
  unfold py_range. destruct (length data) as [|n] eqn:Hn; [lia|].
  cbn [range_loop Nat.ltb Nat.leb send_chunks].
  apply bind_raise. now apply send_lt_frame_not_byte.
Qed.

Lemma peer_las_last (n : nat) (first : Z) :
  peer_las (S n) first
  = peer_las n first ++ peer_la (first + Z.of_nat n) ++ [].
Proof.
  replace (S n) with (n + 1)%nat by lia. rewrite peer_las_app. reflexivity.
Qed.

Lemma run_installer_raise (w : world) (g g' : gui) (e : exn) :
  session w g = (Raise e, g') ->
  run_installer w g
  = (Ret tt, set_start_btn true (add_debug_text ("ERROR: " ++ str_exn e) g')).
Proof.
  intros H. unfold run_installer, try_finally, try_except. now rewrite H.
Qed.

(** Two packages after the handshake, the first of 251 chunks: the begin
    frame of the second goes out with the number 255, and the counter
    leaves the byte range. *)
Lemma two_packages_overflow (w : world) (a b : string) (data_a data_b : list Z)
      (k : unit -> M gui unit) :
  open_rb w a = Some data_a ->
  open_rb w b = Some data_b ->
  Forall is_byte data_a ->
  Z.of_nat (length data_a) < 2 ^ 32 ->
  length (package_chunks data_a) = 251%nat ->
  (0 < length data_b)%nat ->
  Z.of_nat (length data_b) < 2 ^ 32 ->
  forall (input t : list Z) (dt : list string) (sb : bool),
    exists (t' : list Z) (dt' : list string) (pr' : list Q),
      (g <- get ;; upload_all w (file_list g) ;; k tt)
        (mkGui (Some (mkPort (peer_las 252 3 ++ peer_la 255 ++ input) t true))
           3 [a; b] dt [] sb)
      = (Raise (ValueError "bytes must be in range(0, 256)"),
         mkGui (Some (mkPort input t' true)) 256 [a; b] dt' pr' sb)
      /\ length pr' = 251%nat.
Proof.
  intros Ha Hb Hbytes Hlen_a Hchunks Hpos_b Hlen_b input t dt sb.
  destruct (upload_acked w a data_a Ha Hbytes Hlen_a 3 (peer_la 255 ++ input)
              t true [a; b] dt [] sb) as [t1 H1]; [lia|lia|].
  rewrite Hchunks in H1. change (3 + 1 + Z.of_nat 251) with 255 in H1.
  destruct (upload_from_255 w b data_b Hb Hpos_b Hlen_b input t1 true [a; b]
              ((dt ++ [("Uploading " ++ a ++ "...")%string])
               ++ [("Finished " ++ a)%string])
              ([] ++ map (fun i => progress_value i (length data_a))
                         (py_range 0 (length data_a) MAX_INFO_LEN)) sb)
    as [t2 H2].
  eexists t2, _, _. split.
  - unfold bind at 1, get. cbn [file_list upload_all].
    apply bind_raise. erewrite bind_ret by exact H1.
    apply bind_raise. exact H2.
  - cbn [app]. rewrite length_map.
    unfold package_chunks in Hchunks. now rewrite length_map in Hchunks.
Qed.

(** C4, on a session with two packages of which the first makes 251 chunks:
    the handshake uses the numbers 0 to 2, the first package 3 to 254, the
    begin frame of the second package 255; its acknowledgement takes the
    counter to 256, and the next frame cannot be built. *)
Theorem lt_seq_no_leaves_byte_range :
  fst session_two_packages = Ret tt
  /\ length (package_chunks (repeat 0x41 (Z.to_nat 64256))) = 251%nat
  /\ length (progress (snd session_two_packages)) = 251%nat
  /\ lt_seq_no (snd session_two_packages) = 256
  /\ last (debug_text (snd session_two_packages)) EmptyString
     = "ERROR: bytes must be in range(0, 256)"%string
  /\ port_is_open (snd session_two_packages) = true.
Proof.
  unfold session_two_packages.
  remember (repeat 0x41 (Z.to_nat 64256)) as data eqn:Hdata.
  assert (Hbytes : Forall is_byte data).
  { subst data. apply Forall_forall. intros x Hx. apply repeat_spec in Hx.
    subst x. unfold is_byte. lia. }
  assert (Hlen : length data = Z.to_nat 64256)
    by (subst data; apply repeat_length).
  assert (Hchunks : length (package_chunks data) = 251%nat).
  { rewrite package_chunks_offsets, length_map, length_seq, Hlen.
    vm_compute. reflexivity. }
  remember (com1_world (peer_handshake ++ peer_las 253 3)
              [("a.pkg"%string, data); ("b.pkg"%string, [1; 2; 3; 4; 5])])
    as w eqn:Hw.
  pose (g1 := mkGui (Some (mkPort (peer_handshake ++ peer_las 253 3) [] true))
                0 ["a.pkg"%string; "b.pkg"%string]
                ["Port COM1 opened. Waiting for Newton..."%string] [] true).
  assert (Hopen : open_port w (fresh_gui ["a.pkg"%string; "b.pkg"%string])
                  = (Ret tt, g1))
    by (subst w; reflexivity).
  assert (Hshake : exists (t : list Z) (dt : list string),
             handshake g1
             = (Ret tt,
                mkGui (Some (mkPort (peer_las 253 3) t true))
                  3 ["a.pkg"%string; "b.pkg"%string] dt [] true)).
  { exists (match gui_port (snd (handshake g1)) with
            | Some p => tx_rev p
            | None => []
            end), (debug_text (snd (handshake g1))).
    vm_compute. reflexivity. }
  clearbody g1.
  destruct Hshake as (t & dt & Hshake).
  rewrite (peer_las_last 252 3) in Hshake.
  change (3 + Z.of_nat 252) with 255 in Hshake.
  assert (Ha : open_rb w "a.pkg" = Some data) by (subst w; reflexivity).
  assert (Hb : open_rb w "b.pkg" = Some [1; 2; 3; 4; 5]) by (subst w; reflexivity).
  destruct (two_packages_overflow w "a.pkg" "b.pkg" data [1; 2; 3; 4; 5]
              (fun _ =>
                 send_lt_frame (ascii_bytes "newtdockdisc" ++ [0; 0; 0; 0]) ;;
                 log "Session Finished." ;;
                 on_port (modify (fun p => mkPort (rx p) (tx_rev p) false)))
              Ha Hb Hbytes ltac:(rewrite Hlen; vm_compute; reflexivity) Hchunks
              ltac:(cbn; lia) ltac:(cbn; lia) [] t dt true)
    as (t' & dt' & pr' & Hrun & Hpr).
  assert (Hsession : session w (fresh_gui ["a.pkg"%string; "b.pkg"%string])
                     = (Raise (ValueError "bytes must be in range(0, 256)"),
                        mkGui (Some (mkPort [] t' true)) 256
                          ["a.pkg"%string; "b.pkg"%string] dt' pr' true)).
  { unfold session. erewrite bind_ret by exact Hopen.
    erewrite bind_ret by exact Hshake. exact Hrun. }
  rewrite (run_installer_raise _ _ _ _ Hsession).
  cbn [fst snd set_start_btn add_debug_text lt_seq_no debug_text progress
         gui_port port_is_open is_open str_exn].
  split; [reflexivity|]. split; [exact Hchunks|]. split; [exact Hpr|].
  split; [reflexivity|]. split; [apply last_last|reflexivity].
Qed.


(** * Further properties of the code *)

(** ** [recv_frame] as a reader *)

Lemma recv_hunt_suffix (input : list Z) :
  forall (state : Z) (rest : list Z),
    recv_hunt state input = Some rest ->
    exists consumed : list Z, input = consumed ++ rest.
Proof.
  induction input as [|b input IH]; intros state rest H.
  - cbn [recv_hunt] in H. destruct (3 <=? state); [|discriminate].
    injection H as <-. now exists [].
  - cbn [recv_hunt] in H. destruct (3 <=? state).
    + injection H as <-. now exists [].
    + apply IH in H. destruct H as [c ->]. now exists (b :: c).
Qed.

Lemma recv_body_suffix (input : list Z) :
  forall (state w w' : Z) (acc frame_data rest : list Z),
    recv_body state w acc input = Some (w', frame_data, rest) ->
    exists consumed : list Z, input = consumed ++ rest.
Proof.
  induction input as [|val input IH]; intros state w w' acc fd rest H.
  - cbn [recv_body] in H. destruct (2 <=? state); [|discriminate].
    injection H as _ _ <-. now exists [].
  - cbn [recv_body] in H. destruct (2 <=? state).
    + injection H as _ _ <-. now exists [].
    + destruct (state =? 0); [destruct (val =? 16)|
        destruct (state =? 1); [destruct (val =? 16); [|destruct (val =? 3)]|]];
        apply IH in H; destruct H as [c ->]; now exists (val :: c).
Qed.

Lemma reads_suffix (input : list Z) :
  exists consumed : list Z, input = consumed ++ snd (reads input).
Proof.
  unfold reads, recv_frame, bind, get, set_rx, modify, ret, port_read.
  cbn [rx tx_rev is_open].
  destruct (recv_hunt 0 input) as [body|] eqn:Hh;
    [|exists input; cbn; now rewrite app_nil_r].
  apply recv_hunt_suffix in Hh. destruct Hh as [c1 ->].
  destruct (recv_body 0 0 [] body) as [[[w fd] rest]|] eqn:Hb;
    [|exists (c1 ++ body); cbn; now rewrite app_nil_r].
  apply recv_body_suffix in Hb. destruct Hb as [c2 ->].
  cbn [rx tx_rev is_open].
  assert (Hs : exists c, c1 ++ c2 ++ rest = c ++ skipn 2 rest).
  { exists (c1 ++ c2 ++ firstn 2 rest).
    rewrite <- !app_assoc, firstn_skipn. reflexivity. }
  destruct (length (firstn 2 rest) <? 2)%nat; [exact Hs|].
  destruct (negb _ || negb _); exact Hs.
Qed.

(** X1: [recv_frame] only reads.  It never raises and never writes; what it
    leaves in the port is the input with a prefix taken off, and the prefix
    is not empty unless the input was. *)
Theorem recv_frame_only_reads (p : port) :
  exists (r : option (list Z)) (consumed rest : list Z),
    recv_frame p = (Ret r, mkPort rest (tx_rev p) (is_open p))
    /\ rx p = consumed ++ rest
    /\ (rx p <> [] -> consumed <> []).
Proof.
  destruct (reads_suffix (rx p)) as [consumed Hc].
  exists (fst (reads (rx p))), consumed, (snd (reads (rx p))).
  split; [apply recv_frame_reads|]. split; [exact Hc|].
  intros Hne ->. destruct (rx p) as [|b input] eqn:Hrx; [now apply Hne|].
  pose proof (reads_shorter b input) as Hlt.
  cbn [app] in Hc. rewrite <- Hc in Hlt. lia.
Qed.


(** ** Frames cut short, noise, frames in a row *)

Section Truncation.

Local Arguments fcs_calc : simpl never.

(** A stuffed body cut anywhere, up to and including the first byte of the
    end marker, leaves the second loop of [recv_frame] without its end. *)
Lemma recv_body_cut (l : list Z) :
  forall (w : Z) (acc : list Z) (m : nat),
    recv_body 0 w acc (firstn m (Spec.stuff l ++ [0x10])) = None.
Proof.
  induction l as [|b l IH]; intros w acc m.
  - destruct m as [|[|m]]; reflexivity.
  - cbn [Spec.stuff flat_map]. fold (Spec.stuff l).
    destruct (Z.eqb_spec b 0x10) as [->|Hne]; cbn [app].
    + destruct m as [|[|m]]; [reflexivity|reflexivity|].
      cbn [firstn]. rewrite recv_body_escaped. apply IH.
    + destruct m as [|m]; [reflexivity|].
      cbn [firstn]. rewrite recv_body_data by assumption. apply IH.
Qed.

Lemma firstn_app_short {A} (n : nat) (a b c : list A) :
  (n <= length a + length b)%nat ->
  firstn n (a ++ b ++ c) = firstn n (a ++ b).
Proof.
  intros Hn. rewrite app_assoc, firstn_app.
  replace (n - length (a ++ b))%nat with 0%nat by (rewrite length_app; lia).
  cbn [firstn]. apply app_nil_r.
Qed.

(** X2: a frame that stops short.  Whatever proper prefix of an encoded
    frame arrives before the read times out, [recv_frame] returns [None]
    and has read all of it. *)
Theorem recv_frame_truncated (head : list Z) (info : option (list Z))
        (n : nat) (t : list Z) (o : bool) :
  Forall is_byte head ->
  Forall is_byte (payload info) ->
  (n < length (encode head info))%nat ->
  recv_frame (mkPort (firstn n (encode head info)) t o)
  = (Ret None, mkPort [] t o).
Proof.
  intros Hh Hi. rewrite (wire_layout head info Hh Hi).
  set (body := head ++ payload info).
  set (lo := Spec.checksum head (payload info) mod 256).
  set (hi := Spec.checksum head (payload info) / 256).
  cbn [length]. rewrite length_app. cbn [length]. intros Hn.
  destruct n as [|[|[|m]]]; try reflexivity.
  cbn [firstn].
  apply recv_frame_cut_short with (body := firstn m (Spec.stuff body ++ [0x10; 0x03; lo; hi])).
  { apply (recv_hunt_marker (firstn m (Spec.stuff body ++ [0x10; 0x03; lo; hi]))). }
  destruct (Nat.le_gt_cases m (length (Spec.stuff body) + 1)) as [Hle|Hgt].
  - change [0x10; 0x03; lo; hi] with ([0x10] ++ [0x03; lo; hi]).
    rewrite firstn_app_short by (cbn [length]; lia).
    now rewrite recv_body_cut.
  - rewrite firstn_app.
    rewrite firstn_all2 by lia.
    rewrite recv_body_stuff_prefix.
    destruct (m - length (Spec.stuff body))%nat as [|[|[|[|k]]]] eqn:Hk;
      try lia; cbn; lia.
Qed.

End Truncation.

Lemma sample_head_bytes : Forall is_byte [0x02; 0x04; 0x10].
Proof. repeat (constructor; [unfold is_byte; lia|]). constructor. Qed.

Lemma sample_info_bytes : Forall is_byte (payload (Some [0x10; 0x41])).
Proof. repeat (constructor; [unfold is_byte; lia|]). constructor. Qed.

Lemma recv_frame_truncated_witness :
  recv_frame (mkPort (firstn 9 (encode [0x02; 0x04; 0x10] (Some [0x10; 0x41])))
                [] true)
  = (Ret None, mkPort [] [] true).
Proof.
  apply (recv_frame_truncated _ _ 9 [] true sample_head_bytes sample_info_bytes).
  vm_compute. lia.
Defined.

(** Bytes other than 0x16 leave the hunt for the start marker where it
    began. *)
Lemma recv_hunt_noise (noise : list Z) (input : list Z) :
  Forall (fun b => b <> 0x16) noise ->
  recv_hunt 0 (noise ++ input) = recv_hunt 0 input.
Proof.
  induction 1 as [|b noise Hb Hn IH]; [reflexivity|].
  cbn [app recv_hunt]. change (3 <=? 0) with false. cbv iota.
  change (0 =? 0) with true. cbn [andb].
  destruct (Z.eqb_spec b 0x16); [contradiction|].
  change (0 =? 1) with false. change (0 =? 2) with false. cbn [andb].
  exact IH.
Qed.

Lemma recv_frame_same_hunt (a b t : list Z) (o : bool) :
  recv_hunt 0 a = recv_hunt 0 b ->
  recv_frame (mkPort a t o) = recv_frame (mkPort b t o).
Proof.
  intros H. unfold recv_frame, bind, get, set_rx, modify, ret, port_read.
  cbn [rx tx_rev is_open]. rewrite H.
  destruct (recv_hunt 0 b) as [input|]; [|reflexivity].
  destruct (recv_body 0 0 [] input) as [[[w fd] rest]|]; reflexivity.
Qed.

(** X3: resynchronisation.  Noise in front of a frame is skipped, as long
    as it holds no 0x16: the frame is read, and what follows it is left. *)
Theorem recv_frame_skips_noise (noise head : list Z) (info : option (list Z))
        (rest t : list Z) (o : bool) :
  Forall (fun b => b <> 0x16) noise ->
  Forall is_byte head ->
  Forall is_byte (payload info) ->
  recv_frame (mkPort (noise ++ encode head info ++ rest) t o)
  = (Ret (Some (head ++ payload info)), mkPort rest t o).
Proof.
  intros Hn Hh Hi.
  rewrite <- (recv_frame_wire head (payload info) rest t o).
  rewrite (encode_wire head info Hh Hi).
  apply recv_frame_same_hunt. now apply recv_hunt_noise.
Qed.

Lemma recv_frame_skips_noise_witness :
  recv_frame (mkPort ([0x00; 0x10; 0x02; 0xff]
                      ++ encode [0x02; 0x04; 0x10] (Some [0x10; 0x41])
                      ++ [0x07]) [] true)
  = (Ret (Some ([0x02; 0x04; 0x10] ++ payload (Some [0x10; 0x41]))),
     mkPort [0x07] [] true).
Proof.
  apply (recv_frame_skips_noise [0x00; 0x10; 0x02; 0xff]);
    [|exact sample_head_bytes|exact sample_info_bytes].
  repeat (constructor; [discriminate|]). constructor.
Defined.


Lemma reads_encoded (head : list Z) (info : option (list Z)) (rest : list Z) :
  Forall is_byte head ->
  Forall is_byte (payload info) ->
  reads (encode head info ++ rest) = (Some (head ++ payload info), rest).
Proof.
  intros Hh Hi. rewrite (encode_wire head info Hh Hi). apply reads_wire.
Qed.

(** X4: frames in a row.  Frames written one after the other are read back
    one by one, in order, each as it was sent. *)
Theorem frames_read_in_order (frames : list (list Z * option (list Z)))
        (rest : list Z) :
  Forall (fun f => Forall is_byte (fst f) /\ Forall is_byte (payload (snd f))
                   /\ fst f ++ payload (snd f) <> []) frames ->
  frames_read (encode_all frames ++ rest) (carried frames) rest.
Proof.
  induction 1 as [|[head info] frames [Hh [Hi Hne]] Hf IH].
  - apply read_none.
  - cbn [fst snd] in Hh, Hi, Hne.
    unfold encode_all, carried in *. cbn [flat_map map fst snd].
    rewrite <- app_assoc.
    destruct (head ++ payload info) as [|x body] eqn:Hbody; [now elim Hne|].
    eapply read_frame; [|exact IH].
    rewrite <- Hbody. now apply reads_encoded.
Qed.

Lemma frames_read_in_order_witness :
  frames_read
    (encode_all [([0x03; 0x05; 0x10; 0x01], None);
                 ([0x02; 0x04; 0x10], Some [0x10; 0x41])] ++ [0x07])
    (carried [([0x03; 0x05; 0x10; 0x01], None);
              ([0x02; 0x04; 0x10], Some [0x10; 0x41])])
    [0x07].
Proof.
  apply frames_read_in_order.
  constructor.
  - split; [repeat (constructor; [unfold is_byte; lia|]); constructor|].
    split; [constructor|discriminate].
  - constructor; [|constructor].
    split; [exact sample_head_bytes|]. split; [exact sample_info_bytes|discriminate].
Defined.

(** X5: the check sequence itself.  With either of its two bytes replaced
    by another value the frame is refused. *)
Theorem recv_frame_bad_fcs (head : list Z) (info : option (list Z))
        (pos : nat) (v : Z) (t : list Z) (o : bool) :
  Forall is_byte head ->
  Forall is_byte (payload info) ->
  (pos < length (encode head info) <= pos + 2)%nat ->
  nth pos (encode head info) 0 <> v ->
  recv_frame (mkPort (corrupt pos v (encode head info)) t o)
  = (Ret None, mkPort [] t o).
Proof.
  intros Hh Hi. rewrite (wire_layout head info Hh Hi).
  set (body := head ++ payload info).
  destruct (checksum_word head info) as [Hw Hsum].
  set (lo := Spec.checksum head (payload info) mod 256) in *.
  set (hi := Spec.checksum head (payload info) / 256) in *.
  cbn [length]. rewrite length_app. cbn [length]. intros Hpos Hne.
  destruct pos as [|[|[|j]]]; try lia.
  rewrite !corrupt_cons. cbn [nth] in Hne.
  rewrite app_nth2 in Hne by lia.
  assert (Hfcs : fcs_calc (fold_left fcs_calc body 0) 0x03
                 = Spec.checksum head (payload info)).
  { unfold Spec.checksum, body. rewrite <- fold_fcs_spec, app_assoc.
    now rewrite (fold_left_app fcs_calc (head ++ payload info)). }
  assert (Hrun : forall lo' hi' : Z,
             Spec.checksum head (payload info) <> lo' + 256 * hi' ->
             recv_frame (mkPort (0x16 :: 0x10 :: 0x02 :: Spec.stuff body
                                 ++ [0x10; 0x03; lo'; hi']) t o)
             = (Ret None, mkPort [] t o)).
  { intros lo' hi' Hd.
    eapply recv_frame_mismatch
      with (w := Spec.checksum head (payload info)) (lo := lo') (hi := hi').
    - apply (recv_hunt_marker (Spec.stuff body ++ [0x10; 0x03; lo'; hi'])).
    - change [0x10; 0x03; lo'; hi'] with (FRAME_END ++ [lo'; hi']).
      now rewrite recv_body_stuffed, Hfcs.
    - exact Hw.
    - exact Hd. }
  unfold corrupt. rewrite firstn_app, skipn_app.
  rewrite firstn_all2, skipn_all2 by lia.
  destruct (j - length (Spec.stuff body))%nat as [|[|[|[|k]]]] eqn:Hk; try lia.
  - replace (S j - length (Spec.stuff body))%nat with 3%nat by lia.
    cbn [firstn skipn app nth] in *. rewrite <- app_assoc. cbn [app].
    apply Hrun. lia.
  - replace (S j - length (Spec.stuff body))%nat with 4%nat by lia.
    cbn [firstn skipn app nth] in *. rewrite <- app_assoc. cbn [app].
    apply Hrun. lia.
Qed.

Lemma recv_frame_bad_fcs_witness :
  recv_frame
    (mkPort (corrupt 12 0x00 (encode [0x02; 0x04; 0x10] (Some [0x10; 0x41])))
       [] true)
  = (Ret None, mkPort [] [] true).
Proof.
  apply (recv_frame_bad_fcs _ _ 12 0x00 [] true sample_head_bytes sample_info_bytes).
  - vm_compute. lia.
  - vm_compute. discriminate.
Defined.

Lemma length_stuff (l : list Z) :
  length (Spec.stuff l) = (length l + count_occ Z.eq_dec l 0x10%Z)%nat.
Proof.
  induction l as [|b l IH]; [reflexivity|].
  cbn [Spec.stuff flat_map length count_occ]. fold (Spec.stuff l).
  rewrite length_app, IH.
  destruct (Z.eqb_spec b 0x10) as [->|Hne].
  - destruct (Z.eq_dec 16 16); [cbn; lia|contradiction].
  - destruct (Z.eq_dec b 16); [contradiction|cbn; lia].
Qed.

Lemma length_encode (head : list Z) (info : option (list Z)) :
  Forall is_byte head ->
  Forall is_byte (payload info) ->
  length (encode head info)
  = (7 + length head + length (payload info)
     + count_occ Z.eq_dec (head ++ payload info) 0x10%Z)%nat.
Proof.
  intros Hh Hi. rewrite (wire_layout head info Hh Hi).
  cbn [length]. rewrite length_app, length_stuff, length_app. cbn [length]. lia.
Qed.

(** X6: the size of a frame on the wire: the header and the payload, one
    byte more for each 0x10 among them, and seven bytes of markers and
    check sequence. *)
Theorem encode_length (head : list Z) (info : option (list Z)) :
  Forall is_byte head ->
  Forall is_byte (payload info) ->
  length (encode head info)
  = (7 + length head + length (payload info)
     + count_occ Z.eq_dec (head ++ payload info) 0x10%Z)%nat.
Proof. apply length_encode. Qed.

Lemma encode_length_witness :
  length (encode [0x02; 0x04; 0x10] (Some [0x10; 0x41]))
  = (7 + length [0x02; 0x04; 0x10]%Z + length (payload (Some [0x10; 0x41]%Z))
     + count_occ Z.eq_dec ([0x02; 0x04; 0x10]%Z ++ payload (Some [0x10; 0x41]%Z))
         0x10%Z)%nat.
Proof. exact (encode_length _ _ sample_head_bytes sample_info_bytes). Defined.


(** ** The check sequence as a code *)

(** X7: two byte strings of the same length that differ in exactly one
    byte have different check words, whatever 16-bit value the fold starts
    from. *)
Theorem fcs_tells_single_byte_apart (before after : list Z) (a b w : Z) :
  0 <= w < 2 ^ 16 ->
  is_byte a -> is_byte b -> a <> b ->
  fold_left fcs_calc (before ++ a :: after) w
  <> fold_left fcs_calc (before ++ b :: after) w.
Proof. apply checksum_single_byte. Qed.

Lemma fcs_tells_single_byte_apart_witness :
  fold_left fcs_calc ([0x02; 0x04] ++ 0x41 :: [0x10; 0x03]) 0
  <> fold_left fcs_calc ([0x02; 0x04] ++ 0x42 :: [0x10; 0x03]) 0.
Proof.
  apply (fcs_tells_single_byte_apart [0x02; 0x04] [0x10; 0x03] 0x41 0x42 0);
    unfold is_byte; lia.
Defined.

(** X8: [fcs_calc] takes the octet in through the low byte of the word:
    updating with an octet is updating the word XOR the octet with zero.
    Hence it is one-to-one in the word for a fixed octet, and in the octet
    for a fixed word. *)
Theorem fcs_calc_mixes_octet (w o : Z) :
  0 <= w < 2 ^ 16 ->
  is_byte o ->
  fcs_calc w o = fcs_calc (Z.lxor w o) 0
  /\ (forall w' : Z, 0 <= w' < 2 ^ 16 -> fcs_calc w o = fcs_calc w' o -> w = w')
  /\ (forall o' : Z, is_byte o' -> fcs_calc w o = fcs_calc w o' -> o = o').
Proof.
  intros Hw Ho. split; [|split].
  - rewrite !fcs_calc_spec. symmetry. apply update_mix. exact Ho.
  - intros w' Hw'. now apply fcs_calc_inj_word.
  - intros o' Ho'. now apply fcs_calc_inj_octet.
Qed.

Lemma fcs_calc_mixes_octet_witness :
  fcs_calc 0xbeef 0x10 = fcs_calc (Z.lxor 0xbeef 0x10) 0.
Proof. apply (fcs_calc_mixes_octet 0xbeef 0x10); unfold is_byte; lia. Defined.

(** ** The loop of [wait_la_frame], turn by turn *)

Lemma wait_la_loop_stable (fuel : nat) :
  forall (seq : Z) (g : gui) (p : port),
    gui_port g = Some p ->
    (length (rx p) < fuel)%nat ->
    wait_la_loop (S fuel) seq g = wait_la_loop fuel seq g.
Proof.
  induction fuel as [|fuel IH]; intros seq g p Hp Hfuel; [lia|].
  rewrite (wait_la_loop_turn (S fuel) seq g p Hp).
  rewrite (wait_la_loop_turn fuel seq g p Hp).
  destruct (rx p) as [|b input] eqn:Hrx; [reflexivity|].
  pose proof (reads_shorter b input) as Hshort. cbn [length] in Hfuel, Hshort.
  cbv zeta.
  assert (Hnext : forall t : list Z,
             wait_la_loop (S fuel) seq
               (set_port (Some (mkPort (snd (reads (b :: input))) t (is_open p))) g)
             = wait_la_loop fuel seq
                 (set_port (Some (mkPort (snd (reads (b :: input))) t (is_open p))) g)).
  { intros t. eapply IH; [reflexivity|]. cbn [rx]. lia. }
  destruct (fst (reads (b :: input))) as [[|x recv]|]; try apply Hnext.
  destruct (nth_error (x :: recv) 1) as [t|]; [|reflexivity].
  destruct (t =? 4).
  - destruct (nth_error (x :: recv) 2) as [s|]; [|reflexivity].
    destruct (is_byteb s); [apply Hnext|reflexivity].
  - destruct (t =? 5); [|apply Hnext].
    destruct (nth_error (x :: recv) 2) as [s|]; [|reflexivity].
    destruct (s =? seq); [reflexivity|apply Hnext].
Qed.

Lemma wait_la_loop_enough (k : nat) :
  forall (seq : Z) (g : gui) (p : port),
    gui_port g = Some p ->
    wait_la_loop (k + S (length (rx p))) seq g
    = wait_la_loop (S (length (rx p))) seq g.
Proof.
  induction k as [|k IH]; intros seq g p Hp; [reflexivity|].
  cbn [Nat.add]. rewrite (wait_la_loop_stable _ seq g p Hp) by lia.
  now apply IH.
Qed.

Lemma wait_la_frame_loop (fuel : nat) (seq : Z) (g : gui) (p : port) :
  gui_port g = Some p ->
  (length (rx p) < fuel)%nat ->
  wait_la_loop fuel seq g = wait_la_frame seq g.
Proof.
  intros Hp Hfuel. unfold wait_la_frame, bind, get, pending. rewrite Hp.
  replace fuel with ((fuel - S (length (rx p))) + S (length (rx p)))%nat by lia.
  now apply wait_la_loop_enough.
Qed.

(** One turn of [wait_la_frame], without fuel: what it does with the next
    result of [recv_frame], and that it then waits on. *)
Lemma wait_la_frame_turn (seq : Z) (g : gui) (p : port) :
  gui_port g = Some p ->
  wait_la_frame seq g
  = match rx p with
    | [] => (Hang, g)
    | _ :: _ =>
        let g1 := set_port (Some (mkPort (snd (reads (rx p))) (tx_rev p)
                                    (is_open p))) g in
        match fst (reads (rx p)) with
        | Some ((_ :: _) as recv) =>
            match nth_error recv 1 with
            | None => (Raise (IndexError "bytearray index out of range"), g1)
            | Some t =>
                if t =? 0x04 then
                  match nth_error recv 2 with
                  | None => (Raise (IndexError "bytearray index out of range"), g1)
                  | Some s =>
                      if is_byteb s then
                        wait_la_frame seq
                          (set_port
                             (Some (mkPort (snd (reads (rx p)))
                                      (rev (encode [0x03; 0x05; s; 0x01] None)
                                       ++ tx_rev p) (is_open p))) g)
                      else
                        (Raise (ValueError "bytes must be in range(0, 256)"), g1)
                  end
                else if t =? 0x05 then
                  match nth_error recv 2 with
                  | None => (Raise (IndexError "bytearray index out of range"), g1)
                  | Some s =>
                      if s =? seq then (Ret true, g1)
                      else wait_la_frame seq g1
                  end
                else wait_la_frame seq g1
            end
        | _ => wait_la_frame seq g1
        end
    end.
Proof.
  intros Hp.
  rewrite <- (wait_la_frame_loop (S (length (rx p))) seq g p Hp) by lia.
  rewrite (wait_la_loop_turn _ seq g p Hp).
  destruct (rx p) as [|b input] eqn:Hrx; [reflexivity|].
  pose proof (reads_shorter b input) as Hshort.
  cbv zeta.
  assert (Hnext : forall t : list Z,
             wait_la_loop (length (b :: input)) seq
               (set_port (Some (mkPort (snd (reads (b :: input))) t (is_open p))) g)
             = wait_la_frame seq
                 (set_port (Some (mkPort (snd (reads (b :: input))) t (is_open p))) g)).
  { intros t. eapply wait_la_frame_loop; [reflexivity|]. cbn [rx]. exact Hshort. }
  destruct (fst (reads (b :: input))) as [[|x recv]|]; try apply Hnext.
  destruct (nth_error (x :: recv) 1) as [t|]; [|reflexivity].
  destruct (t =? 4).
  - destruct (nth_error (x :: recv) 2) as [s|]; [|reflexivity].
    destruct (is_byteb s); [apply Hnext|reflexivity].
  - destruct (t =? 5); [|apply Hnext].
    destruct (nth_error (x :: recv) 2) as [s|]; [|reflexivity].
    destruct (s =? seq); [reflexivity|apply Hnext].
Qed.


(** ** What [wait_la_frame] does with a frame *)

Lemma encode_cons (head : list Z) (info : option (list Z)) (rest : list Z) :
  Forall is_byte head ->
  Forall is_byte (payload info) ->
  exists tail : list Z, encode head info ++ rest = 0x16 :: tail.
Proof.
  intros Hh Hi. rewrite (wire_layout head info Hh Hi). eexists. reflexivity.
Qed.

Lemma nth_error_byte (l : list Z) (i : nat) (b : Z) :
  Forall is_byte l -> nth_error l i = Some b -> is_byteb b = true.
Proof.
  intros Hl Hi. apply is_byteb_true. rewrite Forall_forall in Hl.
  apply Hl. eapply nth_error_In. exact Hi.
Qed.

(** The turn of [wait_la_frame] on a port whose next bytes are an encoded
    frame. *)
Lemma wait_la_frame_next (seq : Z) (head : list Z) (info : option (list Z))
      (input t : list Z) (o : bool) (n : Z) (files dt : list string)
      (pr : list Q) (sb : bool) :
  Forall is_byte head ->
  Forall is_byte (payload info) ->
  wait_la_frame seq (gui_at (encode head info ++ input) t o n files dt pr sb)
  = match head ++ payload info with
    | [] => wait_la_frame seq (gui_at input t o n files dt pr sb)
    | recv =>
        match nth_error recv 1 with
        | None => (Raise (IndexError "bytearray index out of range"),
                   gui_at input t o n files dt pr sb)
        | Some tag =>
            if tag =? 0x04 then
              match nth_error recv 2 with
              | None => (Raise (IndexError "bytearray index out of range"),
                         gui_at input t o n files dt pr sb)
              | Some s =>
                  wait_la_frame seq
                    (gui_at input (rev (peer_la s) ++ t) o n files dt pr sb)
              end
            else if tag =? 0x05 then
              match nth_error recv 2 with
              | None => (Raise (IndexError "bytearray index out of range"),
                         gui_at input t o n files dt pr sb)
              | Some s =>
                  if s =? seq then (Ret true, gui_at input t o n files dt pr sb)
                  else wait_la_frame seq (gui_at input t o n files dt pr sb)
              end
            else wait_la_frame seq (gui_at input t o n files dt pr sb)
        end
    end.
Proof.
  intros Hh Hi.
  assert (Hf : Forall is_byte (head ++ payload info))
    by (apply Forall_app; now split).
  unfold gui_at.
  rewrite wait_la_frame_turn with (p := mkPort (encode head info ++ input) t o)
    by reflexivity.
  cbn [rx tx_rev is_open]. rewrite (reads_encoded head info input Hh Hi).
  destruct (encode_cons head info input Hh Hi) as [tail ->].
  cbv zeta. cbn [fst snd]. unfold set_port.
  cbn [gui_port lt_seq_no file_list debug_text progress start_btn_enabled].
  destruct (head ++ payload info) as [|x recv] eqn:Hbody; [reflexivity|].
  destruct (nth_error (x :: recv) 1) as [tag|]; [|reflexivity].
  destruct (tag =? 4); [|reflexivity].
  destruct (nth_error (x :: recv) 2) as [s|] eqn:Hs; [|reflexivity].
  now rewrite (nth_error_byte _ _ _ Hf Hs).
Qed.

(** X9: frames [wait_la_frame] passes over.  An empty frame, a frame with a
    tag other than 0x04 and 0x05, and an acknowledgement for another
    sequence number are dropped: nothing is written, the wait goes on with
    what follows. *)
Theorem wait_la_frame_passes_over (seq : Z) (head : list Z)
        (info : option (list Z)) (input t : list Z) (o : bool) (n : Z)
        (files dt : list string) (pr : list Q) (sb : bool) :
  Forall is_byte head ->
  Forall is_byte (payload info) ->
  head ++ payload info = []
  \/ (exists tag : Z, nth_error (head ++ payload info) 1 = Some tag
                      /\ tag <> 0x04 /\ tag <> 0x05)
  \/ (exists s : Z, nth_error (head ++ payload info) 1 = Some 0x05
                    /\ nth_error (head ++ payload info) 2 = Some s
                    /\ s <> seq) ->
  wait_la_frame seq (gui_at (encode head info ++ input) t o n files dt pr sb)
  = wait_la_frame seq (gui_at input t o n files dt pr sb).
Proof.
  intros Hh Hi Hcase. rewrite wait_la_frame_next by assumption.
  destruct Hcase as [-> | [(tag & Ht & H4 & H5) | (s & Ht & Hs & Hne)]];
    [reflexivity| |].
  - destruct (head ++ payload info) as [|x recv]; [reflexivity|].
    cbv zeta. rewrite Ht.
    destruct (Z.eqb_spec tag 4); [contradiction|].
    destruct (Z.eqb_spec tag 5); [contradiction|reflexivity].
  - destruct (head ++ payload info) as [|x recv]; [reflexivity|].
    cbv zeta. rewrite Ht, Hs. cbn.
    destruct (Z.eqb_spec s seq); [contradiction|reflexivity].
Qed.

Lemma wait_la_frame_passes_over_witness :
  wait_la_frame 2
    (gui_at (encode [0x03; 0x05; 0x09; 0x01] None ++ peer_la 2) [] true 2 [] [] [] false)
  = wait_la_frame 2 (gui_at (peer_la 2) [] true 2 [] [] [] false).
Proof.
  apply (wait_la_frame_passes_over 2 [0x03; 0x05; 0x09; 0x01] None).
  - repeat (constructor; [unfold is_byte; lia|]). constructor.
  - constructor.
  - right. right. exists 0x09. repeat split. discriminate.
Defined.

(** X10: a dock frame during the wait.  A frame with tag 0x04 is answered
    with an LA frame for its sequence number, written before anything more
    is read, and the wait goes on. *)
Theorem wait_la_frame_answers_dock (seq s : Z) (head : list Z)
        (info : option (list Z)) (input t : list Z) (o : bool) (n : Z)
        (files dt : list string) (pr : list Q) (sb : bool) :
  Forall is_byte head ->
  Forall is_byte (payload info) ->
  nth_error (head ++ payload info) 1 = Some 0x04 ->
  nth_error (head ++ payload info) 2 = Some s ->
  wait_la_frame seq (gui_at (encode head info ++ input) t o n files dt pr sb)
  = wait_la_frame seq
      (gui_at input (rev (encode [0x03; 0x05; s; 0x01] None) ++ t) o n
         files dt pr sb).
Proof.
  intros Hh Hi Ht Hs. rewrite wait_la_frame_next by assumption.
  destruct (head ++ payload info) as [|x recv]; [discriminate|].
  cbv zeta. now rewrite Ht, Hs.
Qed.

Lemma wait_la_frame_answers_dock_witness :
  wait_la_frame 2
    (gui_at (encode [0x02; 0x04; 0x10] (Some [0x10; 0x41]) ++ peer_la 2)
       [] true 2 [] [] [] false)
  = wait_la_frame 2
      (gui_at (peer_la 2) (rev (encode [0x03; 0x05; 0x10; 0x01] None) ++ [])
         true 2 [] [] [] false).
Proof.
  apply (wait_la_frame_answers_dock 2 0x10 [0x02; 0x04; 0x10] (Some [0x10; 0x41]));
    [exact sample_head_bytes|exact sample_info_bytes|reflexivity|reflexivity].
Defined.

(** X11: frames too short for the tests of [wait_la_frame].  A frame of one
    byte, and a frame of two bytes whose second is 0x04 or 0x05, make the
    wait raise [IndexError]; the frame has been read, nothing written. *)
Theorem wait_la_frame_short_frame (seq : Z) (head : list Z)
        (info : option (list Z)) (input t : list Z) (o : bool) (n : Z)
        (files dt : list string) (pr : list Q) (sb : bool) :
  Forall is_byte head ->
  Forall is_byte (payload info) ->
  (length (head ++ payload info) = 1%nat
   \/ (length (head ++ payload info) = 2%nat
       /\ (nth_error (head ++ payload info) 1 = Some 0x04
           \/ nth_error (head ++ payload info) 1 = Some 0x05))) ->
  wait_la_frame seq (gui_at (encode head info ++ input) t o n files dt pr sb)
  = (Raise (IndexError "bytearray index out of range"),
     gui_at input t o n files dt pr sb).
Proof.
  intros Hh Hi Hcase. rewrite wait_la_frame_next by assumption.
  destruct (head ++ payload info) as [|x [|y [|z recv]]];
    destruct Hcase as [Hlen | [Hlen [Ht | Ht]]]; try discriminate;
    try reflexivity.
  - injection Ht as ->. reflexivity.
  - injection Ht as ->. reflexivity.
Qed.

Lemma wait_la_frame_short_frame_witness :
  wait_la_frame 0 (gui_at (encode [0x03; 0x05] None ++ [0x07]) [] true 0 [] [] [] false)
  = (Raise (IndexError "bytearray index out of range"),
     gui_at [0x07] [] true 0 [] [] [] false).
Proof.
  apply (wait_la_frame_short_frame 0 [0x03; 0x05] None).
  - repeat (constructor; [unfold is_byte; lia|]). constructor.
  - constructor.
  - right. split; [reflexivity|]. right. reflexivity.
Defined.

Lemma reads_noise (b : Z) (noise : list Z) :
  Forall (fun b => b <> 0x16) (b :: noise) -> reads (b :: noise) = (None, []).
Proof.
  intros Hn. unfold reads.
  rewrite recv_frame_no_marker; [reflexivity|].
  rewrite <- (app_nil_r (b :: noise)). now rewrite recv_hunt_noise.
Qed.

(** X12: a peer that sends no frame.  On a port that delivers nothing, or
    bytes with no 0x16 among them, [wait_la_frame] never returns: it reads
    what there is, writes nothing, and goes on polling. *)
Theorem wait_la_frame_blocks (seq : Z) (noise t : list Z) (o : bool) (n : Z)
        (files dt : list string) (pr : list Q) (sb : bool) :
  Forall (fun b => b <> 0x16) noise ->
  wait_la_frame seq (gui_at noise t o n files dt pr sb)
  = (Hang, gui_at [] t o n files dt pr sb).
Proof.
  intros Hn. unfold gui_at.
  rewrite wait_la_frame_turn with (p := mkPort noise t o) by reflexivity.
  cbn [rx tx_rev is_open].
  destruct noise as [|b noise]; [reflexivity|].
  rewrite (reads_noise b noise Hn). cbv zeta. cbn [fst snd]. unfold set_port.
  cbn [gui_port lt_seq_no file_list debug_text progress start_btn_enabled].
  now rewrite wait_la_frame_turn with (p := mkPort [] t o) by reflexivity.
Qed.

Lemma wait_la_frame_blocks_witness :
  wait_la_frame 0 (gui_at [0x10; 0x02; 0x03] [] true 0 [] [] [] false)
  = (Hang, gui_at [] [] true 0 [] [] [] false).
Proof.
  apply (wait_la_frame_blocks 0 [0x10; 0x02; 0x03]).
  repeat (constructor; [discriminate|]). constructor.
Defined.


(** ** The loops of the handshake, turn by turn *)

Lemma await_loop_turn (fuel : nat) (tag : Z) (body : list Z -> M gui unit)
      (g : gui) (p : port) :
  gui_port g = Some p ->
  await_loop (S fuel) tag body g
  = match rx p with
    | [] => (Hang, g)
    | _ :: _ =>
        let g1 := set_port (Some (mkPort (snd (reads (rx p))) (tx_rev p)
                                    (is_open p))) g in
        match fst (reads (rx p)) with
        | Some ((_ :: _) as recv) =>
            match nth_error recv 1 with
            | None => (Raise (IndexError "bytearray index out of range"), g1)
            | Some t => if t =? tag then body recv g1
                        else await_loop fuel tag body g1
            end
        | _ => await_loop fuel tag body g1
        end
    end.
Proof.
  intros Hp. cbn [await_loop].
  unfold bind at 1. unfold silent, bind at 1, get, ret. rewrite Hp.
  destruct (rx p) as [|b input] eqn:Hrx; [reflexivity|].
  unfold bind at 1. rewrite (on_port_recv_frame g p Hp), Hrx.
  cbv zeta.
  destruct (fst (reads (b :: input))) as [[|x recv]|]; try reflexivity.
  unfold bind at 1, index at 1.
  destruct (nth_error (x :: recv) 1) as [t|]; [|reflexivity].
  unfold ret at 1. now destruct (t =? tag).
Qed.

Lemma await_loop_stable (fuel : nat) :
  forall (tag : Z) (body : list Z -> M gui unit) (g : gui) (p : port),
    gui_port g = Some p ->
    (length (rx p) < fuel)%nat ->
    await_loop (S fuel) tag body g = await_loop fuel tag body g.
Proof.
  induction fuel as [|fuel IH]; intros tag body g p Hp Hfuel; [lia|].
  rewrite (await_loop_turn (S fuel) tag body g p Hp).
  rewrite (await_loop_turn fuel tag body g p Hp).
  destruct (rx p) as [|b input] eqn:Hrx; [reflexivity|].
  pose proof (reads_shorter b input) as Hshort. cbn [length] in Hfuel, Hshort.
  cbv zeta.
  assert (Hnext :
    await_loop (S fuel) tag body
      (set_port (Some (mkPort (snd (reads (b :: input))) (tx_rev p) (is_open p))) g)
    = await_loop fuel tag body
        (set_port (Some (mkPort (snd (reads (b :: input))) (tx_rev p) (is_open p))) g)).
  { eapply IH; [reflexivity|]. cbn [rx]. lia. }
  destruct (fst (reads (b :: input))) as [[|x recv]|]; try apply Hnext.
  destruct (nth_error (x :: recv) 1) as [t|]; [|reflexivity].
  destruct (t =? tag); [reflexivity|apply Hnext].
Qed.

Lemma await_loop_enough (k : nat) :
  forall (tag : Z) (body : list Z -> M gui unit) (g : gui) (p : port),
    gui_port g = Some p ->
    await_loop (k + S (length (rx p))) tag body g
    = await_loop (S (length (rx p))) tag body g.
Proof.
  induction k as [|k IH]; intros tag body g p Hp; [reflexivity|].
  cbn [Nat.add]. rewrite (await_loop_stable _ tag body g p Hp) by lia.
  now apply IH.
Qed.

Lemma await_loop_await (fuel : nat) (tag : Z) (body : list Z -> M gui unit)
      (g : gui) (p : port) :
  gui_port g = Some p ->
  (length (rx p) < fuel)%nat ->
  await_loop fuel tag body g = await tag body g.
Proof.
  intros Hp Hfuel. unfold await, bind, get, pending. rewrite Hp.
  replace fuel with ((fuel - S (length (rx p))) + S (length (rx p)))%nat by lia.
  now apply await_loop_enough.
Qed.

(** The turn of a handshake loop on a port whose next bytes are an encoded
    frame. *)
Lemma await_next (tag : Z) (body : list Z -> M gui unit) (head : list Z)
      (info : option (list Z)) (input t : list Z) (o : bool) (n : Z)
      (files dt : list string) (pr : list Q) (sb : bool) :
  Forall is_byte head ->
  Forall is_byte (payload info) ->
  await tag body (gui_at (encode head info ++ input) t o n files dt pr sb)
  = match head ++ payload info with
    | [] => await tag body (gui_at input t o n files dt pr sb)
    | recv =>
        match nth_error recv 1 with
        | None => (Raise (IndexError "bytearray index out of range"),
                   gui_at input t o n files dt pr sb)
        | Some t' =>
            if t' =? tag then body recv (gui_at input t o n files dt pr sb)
            else await tag body (gui_at input t o n files dt pr sb)
        end
    end.
Proof.
  intros Hh Hi. unfold gui_at.
  rewrite <- (await_loop_await (S (length (encode head info ++ input))) tag body _
                (mkPort (encode head info ++ input) t o)) by (reflexivity || cbn; lia).
  rewrite await_loop_turn with (p := mkPort (encode head info ++ input) t o)
    by reflexivity.
  cbn [rx tx_rev is_open]. rewrite (reads_encoded head info input Hh Hi).
  pose proof (reads_shorter) as Hshort.
  destruct (encode_cons head info input Hh Hi) as [tail Htail].
  assert (Hlen : (length input < length (encode head info ++ input))%nat).
  { rewrite length_app, (length_encode head info Hh Hi). lia. }
  rewrite Htail in *. cbv zeta. cbn [fst snd]. unfold set_port.
  cbn [gui_port lt_seq_no file_list debug_text progress start_btn_enabled].
  assert (Hnext :
    await_loop (length (22 :: tail)) tag body
      (mkGui (Some (mkPort input t o)) n files dt pr sb)
    = await tag body (mkGui (Some (mkPort input t o)) n files dt pr sb)).
  { eapply await_loop_await; [reflexivity|]. cbn [rx]. exact Hlen. }
  destruct (head ++ payload info) as [|x recv] eqn:Hbody; [exact Hnext|].
  destruct (nth_error (x :: recv) 1) as [t'|]; [|reflexivity].
  destruct (t' =? tag); [reflexivity|exact Hnext].
Qed.


(** X13: frames the handshake loops let pass.  While a loop of the
    handshake waits for a frame with a given tag, an empty frame and a
    frame with another tag are dropped, nothing being written. *)
Theorem await_passes_over (tag : Z) (body : list Z -> M gui unit)
        (head : list Z) (info : option (list Z)) (input t : list Z)
        (o : bool) (n : Z) (files dt : list string) (pr : list Q) (sb : bool) :
  Forall is_byte head ->
  Forall is_byte (payload info) ->
  head ++ payload info = []
  \/ (exists tag' : Z, nth_error (head ++ payload info) 1 = Some tag'
                       /\ tag' <> tag) ->
  await tag body (gui_at (encode head info ++ input) t o n files dt pr sb)
  = await tag body (gui_at input t o n files dt pr sb).
Proof.
  intros Hh Hi Hcase. rewrite await_next by assumption.
  destruct Hcase as [-> | (tag' & Ht & Hne)]; [reflexivity|].
  destruct (head ++ payload info) as [|x recv]; [reflexivity|].
  cbv zeta. rewrite Ht.
  destruct (Z.eqb_spec tag' tag); [contradiction|reflexivity].
Qed.

Lemma await_passes_over_witness :
  await 0x01 (fun _ => ret tt)
    (gui_at (encode [0x02; 0x04; 0x10] (Some [0x10; 0x41]) ++ [0x07])
       [] true 0 [] [] [] false)
  = await 0x01 (fun _ => ret tt) (gui_at [0x07] [] true 0 [] [] [] false).
Proof.
  apply (await_passes_over 0x01 (fun _ => ret tt) [0x02; 0x04; 0x10]
           (Some [0x10; 0x41]));
    [exact sample_head_bytes|exact sample_info_bytes|].
  right. exists 0x04. split; [reflexivity|discriminate].
Defined.

Lemma await_accepts (tag : Z) (body : list Z -> M gui unit)
      (head : list Z) (info : option (list Z)) (input t : list Z)
      (o : bool) (n : Z) (files dt : list string) (pr : list Q) (sb : bool) :
  Forall is_byte head ->
  Forall is_byte (payload info) ->
  nth_error (head ++ payload info) 1 = Some tag ->
  await tag body (gui_at (encode head info ++ input) t o n files dt pr sb)
  = body (head ++ payload info) (gui_at input t o n files dt pr sb).
Proof.
  intros Hh Hi Ht. rewrite await_next by assumption.
  destruct (head ++ payload info) as [|x recv]; [discriminate|].
  cbv zeta. rewrite Ht. now rewrite Z.eqb_refl.
Qed.

Lemma acknowledge_dock (recv : list Z) (s : Z) (input t : list Z) (o : bool)
      (n : Z) (files dt : list string) (pr : list Q) (sb : bool) :
  Forall is_byte recv ->
  nth_error recv 2 = Some s ->
  acknowledge recv (gui_at input t o n files dt pr sb)
  = (Ret tt,
     gui_at input (rev (encode [0x03; 0x05; s; 0x01] None) ++ t) o n
       files dt pr sb).
Proof.
  intros Hr Hs. unfold acknowledge, bind at 1, index. rewrite Hs.
  unfold ret at 1.
  now rewrite (send_la_frame_byte (gui_at input t o n files dt pr sb)
                 (mkPort input t o) s eq_refl (nth_error_byte _ _ _ Hr Hs)).
Qed.

Lemma send_lr_frame (input t : list Z) (o : bool) (n : Z)
      (files dt : list string) (pr : list Q) (sb : bool) :
  on_port (send_frame LR_FRAME None) (gui_at input t o n files dt pr sb)
  = (Ret tt,
     gui_at input (rev (encode LR_FRAME None) ++ t) o n files dt pr sb).
Proof.
  assert (Hb : Forall is_byte LR_FRAME)
    by (unfold LR_FRAME; repeat (constructor; [unfold is_byte; lia|]); constructor).
  unfold on_port, gui_at. cbn [gui_port].
  rewrite send_frame_ok by (exact Hb || constructor).
  now rewrite encode_wire by (exact Hb || constructor).
Qed.

Lemma send_lt_frame_at (info : list Z) (input t : list Z) (o : bool) (n : Z)
      (files dt : list string) (pr : list Q) (sb : bool) :
  is_byte n ->
  Forall is_byte info ->
  send_lt_frame info (gui_at input t o n files dt pr sb)
  = (Ret tt,
     gui_at input (rev (encode [0x02; 0x04; n] (Some info)) ++ t) o n
       files dt pr sb).
Proof.
  intros Hn Hi. unfold gui_at. rewrite send_lt_frame_byte by assumption.
  now rewrite (encode_wire [0x02; 0x04; n] (Some info)) by (apply lt_head_bytes, Hn || exact Hi).
Qed.

Lemma wait_la_current_at (input t : list Z) (o : bool) (n : Z)
      (files dt : list string) (pr : list Q) (sb : bool) :
  is_byte n ->
  wait_la_current (gui_at (peer_la n ++ input) t o n files dt pr sb)
  = (Ret true, gui_at input t o n files dt pr sb).
Proof. intros Hn. unfold gui_at. now apply wait_la_current_acked. Qed.

Lemma dock_frame_bytes (s : Z) (i : list Z) :
  is_byte s -> Forall is_byte i ->
  Forall is_byte [0x02; 0x04; s] /\ Forall is_byte (payload (Some i))
  /\ Forall is_byte ([0x02; 0x04; s] ++ payload (Some i)).
Proof.
  intros Hs Hi. pose proof (lt_head_bytes s Hs) as Hh.
  split; [exact Hh|]. split; [exact Hi|]. apply Forall_app. now split.
Qed.

Lemma command_bytes :
  Forall is_byte (ascii_bytes "newtdockdock" ++ [0; 0; 0; 4; 0; 0; 0; 4])
  /\ Forall is_byte (ascii_bytes "newtdockstim" ++ [0; 0; 0; 4; 0; 0; 0; 0x1e])
  /\ Forall is_byte (ascii_bytes "newtdockdisc" ++ [0; 0; 0; 0]).
Proof.
  repeat split; cbn; repeat (constructor; [unfold is_byte; lia|]); constructor.
Qed.


(** ** The handshake *)

Lemma log_at (msg : string) (input t : list Z) (o : bool) (n : Z)
      (files dt : list string) (pr : list Q) (sb : bool) :
  log msg (gui_at input t o n files dt pr sb)
  = (Ret tt, gui_at input t o n files (dt ++ [msg]) pr sb).
Proof. reflexivity. Qed.

Lemma incr_lt_seq_no_at (input t : list Z) (o : bool) (n : Z)
      (files dt : list string) (pr : list Q) (sb : bool) :
  incr_lt_seq_no (gui_at input t o n files dt pr sb)
  = (Ret tt, gui_at input t o (n + 1) files dt pr sb).
Proof. reflexivity. Qed.

Lemma handshake_at
        (request : list Z) (n s1 s2 s3 : Z) (i1 i2 i3 input t : list Z)
        (o : bool) (files dt : list string) (pr : list Q) (sb : bool) :
  Forall is_byte request ->
  nth_error request 1 = Some 0x01 ->
  0 <= n <= 253 ->
  is_byte s1 -> is_byte s2 -> is_byte s3 ->
  Forall is_byte i1 -> Forall is_byte i2 -> Forall is_byte i3 ->
  handshake
    (gui_at (peer_handshake_frames request n s1 i1 s2 i2 s3 i3 ++ input)
       t o n files dt pr sb)
  = (Ret tt,
     gui_at input (rev (handshake_writes n s1 s2 s3) ++ t) o (n + 3) files
       (dt ++ ["Connected! Sending LR Frame..."%string;
               "Sending dockdock handshake..."%string;
               ("Newton Owner: " ++ owner_name (skipn 24 ([0x02; 0x04; s2] ++ i2)))%string])
       pr sb).
Proof.
  intros Hreq Htag Hn Hs1 Hs2 Hs3 Hi1 Hi2 Hi3.
  destruct command_bytes as (Hdock & Hstim & _).
  destruct (dock_frame_bytes s1 i1 Hs1 Hi1) as (Hh1 & Hp1 & Hb1).
  destruct (dock_frame_bytes s2 i2 Hs2 Hi2) as (Hh2 & Hp2 & Hb2).
  destruct (dock_frame_bytes s3 i3 Hs3 Hi3) as (Hh3 & Hp3 & Hb3).
  unfold handshake, peer_handshake_frames, peer_lt. rewrite <- !app_assoc.
  (* the peer's request *)
  erewrite bind_ret.
  2:{ rewrite await_accepts by (assumption || constructor
                                || (cbn [payload]; now rewrite app_nil_r)).
      reflexivity. }
  erewrite bind_ret by apply log_at.
  erewrite bind_ret by apply send_lr_frame.
  erewrite bind_ret by (apply wait_la_current_at; unfold is_byte; lia).
  erewrite bind_ret by apply incr_lt_seq_no_at.
  (* first dock frame *)
  erewrite bind_ret.
  2:{ rewrite await_accepts by (assumption || reflexivity).
      now apply acknowledge_dock. }
  erewrite bind_ret by apply log_at.
  erewrite bind_ret by (apply send_lt_frame_at; [unfold is_byte; lia|exact Hdock]).
  erewrite bind_ret by (apply wait_la_current_at; unfold is_byte; lia).
  erewrite bind_ret by apply incr_lt_seq_no_at.
  replace (n + 1 + 1) with (n + 2) by lia.
  (* second dock frame, with the owner name *)
  erewrite bind_ret.
  2:{ rewrite await_accepts by (assumption || reflexivity).
      erewrite bind_ret by now apply acknowledge_dock.
      apply log_at. }
  erewrite bind_ret by (apply send_lt_frame_at; [unfold is_byte; lia|exact Hstim]).
  erewrite bind_ret by (apply wait_la_current_at; unfold is_byte; lia).
  erewrite bind_ret by apply incr_lt_seq_no_at.
  (* third dock frame *)
  rewrite await_accepts by (assumption || reflexivity).
  rewrite (acknowledge_dock _ s3) by (assumption || reflexivity).
  unfold handshake_writes. rewrite !rev_app_distr, <- !app_assoc.
  replace (n + 2 + 1) with (n + 3) by lia.
  reflexivity.
Qed.

(** X14: the handshake against a conforming peer.  Started with the
    counter at [n], it reads exactly the peer's seven frames, writes its
    link request, the two command frames numbered [n + 1] and [n + 2] and
    an acknowledgement for each dock frame, logs the owner name, and
    leaves the counter at [n + 3]. *)
Theorem handshake_completes
        (request : list Z) (n s1 s2 s3 : Z) (i1 i2 i3 input t : list Z)
        (o : bool) (files dt : list string) (pr : list Q) (sb : bool) :
  Forall is_byte request ->
  nth_error request 1 = Some 0x01 ->
  0 <= n <= 253 ->
  is_byte s1 -> is_byte s2 -> is_byte s3 ->
  Forall is_byte i1 -> Forall is_byte i2 -> Forall is_byte i3 ->
  handshake
    (gui_at (peer_handshake_frames request n s1 i1 s2 i2 s3 i3 ++ input)
       t o n files dt pr sb)
  = (Ret tt,
     gui_at input (rev (handshake_writes n s1 s2 s3) ++ t) o (n + 3) files
       (dt ++ ["Connected! Sending LR Frame..."%string;
               "Sending dockdock handshake..."%string;
               ("Newton Owner: " ++ owner_name (skipn 24 ([0x02; 0x04; s2] ++ i2)))%string])
       pr sb).
Proof. apply handshake_at. Qed.


(** ** Transfers *)

Lemma send_chunks_at (data : list Z) (f_len : nat)
        (offsets : list nat) :
  Forall is_byte data ->
  forall (seq : Z) (input t : list Z) (o : bool)
         (files dt : list string) (pr : list Q) (sb : bool),
    is_byte seq ->
    send_chunks data f_len offsets
      (gui_at (peer_las_wrap (length offsets) seq ++ input) t o seq
         files dt pr sb)
    = (Ret tt,
       gui_at input
         (rev (chunk_frames seq (map (chunk_at data) offsets)) ++ t) o
         ((seq + Z.of_nat (length offsets)) mod 256)
         files dt (pr ++ map (fun i => progress_value i f_len) offsets) sb).
Proof.
  intros Hd. induction offsets as [|i offsets IH];
    intros seq input t o files dt pr sb Hs.
  - cbn [length peer_las_wrap send_chunks map chunk_frames app rev Z.of_nat].
    rewrite Z.add_0_r, Z.mod_small, app_nil_r by exact Hs. reflexivity.
  - cbn [length peer_las_wrap send_chunks map chunk_frames].
    rewrite <- app_assoc.
    erewrite bind_ret
      by (apply send_lt_frame_at; [exact Hs|apply chunk_at_bytes, Hd]).
    erewrite bind_ret by (apply wait_la_current_at, Hs).
    erewrite bind_ret by reflexivity.
    erewrite bind_ret by reflexivity.
    unfold add_progress, set_lt_seq_no, gui_at.
    cbn [lt_seq_no gui_port file_list debug_text progress start_btn_enabled].
    fold (gui_at (peer_las_wrap (length offsets) ((seq + 1) mod 256) ++ input)
            (rev (encode [0x02; 0x04; seq] (Some (chunk_at data i))) ++ t) o
            ((seq + 1) mod 256) files dt (pr ++ [progress_value i f_len]) sb).
    rewrite IH by (apply Z.mod_pos_bound; lia).
    unfold gui_at. rewrite rev_app_distr, <- !app_assoc. cbn [app].
    rewrite Zplus_mod_idemp_l.
    do 3 f_equal. lia.
Qed.

(** X15: the chunk loop against a peer that acknowledges every chunk.  It
    writes one frame per chunk, numbered from the counter on and around
    256, leaves the counter that many steps further modulo 256, and reports
    after each chunk the offset at which the chunk began, as a percentage
    of the length. *)
Theorem send_chunks_acknowledged (data : list Z) (f_len : nat)
        (offsets : list nat) :
  Forall is_byte data ->
  forall (seq : Z) (input t : list Z) (o : bool)
         (files dt : list string) (pr : list Q) (sb : bool),
    is_byte seq ->
    send_chunks data f_len offsets
      (gui_at (peer_las_wrap (length offsets) seq ++ input) t o seq
         files dt pr sb)
    = (Ret tt,
       gui_at input
         (rev (chunk_frames seq (map (chunk_at data) offsets)) ++ t) o
         ((seq + Z.of_nat (length offsets)) mod 256)
         files dt (pr ++ map (fun i => progress_value i f_len) offsets) sb).
Proof. apply send_chunks_at. Qed.

Lemma send_chunks_acknowledged_witness :
  send_chunks (repeat 0x41 300) 300 [0; 256]%nat
    (gui_at (peer_las_wrap (length [0; 256]%nat) 255 ++ [0x07]) [] true 255
       [] [] [] false)
  = (Ret tt,
     gui_at [0x07]
       (rev (chunk_frames 255 (map (chunk_at (repeat 0x41 300)) [0; 256]%nat)) ++ [])
       true ((255 + Z.of_nat (length [0; 256]%nat)) mod 256) [] []
       ([] ++ map (fun i => progress_value i 300) [0; 256]%nat) false).
Proof.
  apply (send_chunks_acknowledged (repeat 0x41 300) 300 [0; 256]%nat).
  - apply Forall_forall. intros x Hx. apply repeat_spec in Hx. subst x.
    unfold is_byte. lia.
  - unfold is_byte. lia.
Defined.


Lemma package_begin_bytes (f_len : nat) :
  Z.of_nat f_len < 2 ^ 32 -> Forall is_byte (package_begin f_len).
Proof. intros Hlen. apply lpkg_bytes. lia. Qed.

Lemma counter_after_byte (seq : Z) (data : list Z) :
  is_byte (counter_after seq data).
Proof. unfold counter_after, is_byte. apply Z.mod_pos_bound. lia. Qed.

Lemma upload_at (w : world) (path : string) (data : list Z)
        (seq : Z) (input t : list Z) (o : bool)
        (files dt : list string) (pr : list Q) (sb : bool) :
  open_rb w path = Some data ->
  Forall is_byte data ->
  Z.of_nat (length data) < 2 ^ 32 ->
  0 <= seq <= 254 ->
  upload w path
    (gui_at (peer_upload_acks seq data ++ input) t o seq files dt pr sb)
  = (Ret tt,
     gui_at input (rev (upload_writes seq data) ++ t) o
       (counter_after seq data) files
       (dt ++ [("Uploading " ++ path ++ "...")%string;
               ("Finished " ++ path)%string])
       (pr ++ upload_progress data) sb).
Proof.
  intros Hopen Hd Hlen Hseq.
  assert (Hn : length (package_chunks data)
               = length (py_range 0 (length data) MAX_INFO_LEN))
    by (unfold package_chunks; apply length_map).
  unfold upload, peer_upload_acks. rewrite Hopen, <- app_assoc. cbv zeta.
  erewrite bind_ret by apply log_at.
  erewrite bind_ret by (apply to_bytes4_big_ok; lia).
  erewrite bind_ret
    by (apply send_lt_frame_at;
        [unfold is_byte; lia|apply (package_begin_bytes (length data) Hlen)]).
  erewrite bind_ret by (apply wait_la_current_at; unfold is_byte; lia).
  erewrite bind_ret by apply incr_lt_seq_no_at.
  rewrite Hn.
  erewrite bind_ret
    by (apply send_chunks_at; [exact Hd|unfold is_byte; lia]).
  rewrite log_at.
  unfold upload_writes, counter_after, upload_progress, package_chunks, package_begin.
  rewrite rev_app_distr, <- !app_assoc, length_map. reflexivity.
Qed.

(** X16: one package against a peer that acknowledges every frame.  The
    begin frame carries the command and the length, the chunk frames the
    chunks of [package_chunks]; the counter ends the number of frames
    further, modulo 256 from the first chunk on; the progress reported is
    that of the chunk loop, so its last value is the offset of the last
    chunk and not the length. *)
Theorem upload_acknowledged (w : world) (path : string) (data : list Z)
        (seq : Z) (input t : list Z) (o : bool)
        (files dt : list string) (pr : list Q) (sb : bool) :
  open_rb w path = Some data ->
  Forall is_byte data ->
  Z.of_nat (length data) < 2 ^ 32 ->
  0 <= seq <= 254 ->
  upload w path
    (gui_at (peer_upload_acks seq data ++ input) t o seq files dt pr sb)
  = (Ret tt,
     gui_at input (rev (upload_writes seq data) ++ t) o
       (counter_after seq data) files
       (dt ++ [("Uploading " ++ path ++ "...")%string;
               ("Finished " ++ path)%string])
       (pr ++ upload_progress data) sb).
Proof. apply upload_at. Qed.

Lemma upload_acknowledged_witness :
  upload (com1_world [] [("a.pkg"%string, repeat 0x41 257)]) "a.pkg"
    (gui_at (peer_upload_acks 254 (repeat 0x41 257) ++ [0x07]) [] true 254
       [] [] [] false)
  = (Ret tt,
     gui_at [0x07] (rev (upload_writes 254 (repeat 0x41 257)) ++ []) true
       (counter_after 254 (repeat 0x41 257)) []
       ([] ++ [("Uploading " ++ "a.pkg" ++ "...")%string;
               ("Finished " ++ "a.pkg")%string])
       ([] ++ upload_progress (repeat 0x41 257)) false).
Proof.
  apply (upload_acknowledged (com1_world [] [("a.pkg"%string, repeat 0x41 257)])
           "a.pkg" (repeat 0x41 257)).
  - reflexivity.
  - apply Forall_forall. intros x Hx. apply repeat_spec in Hx. subst x.
    unfold is_byte. lia.
  - rewrite repeat_length. cbn. lia.
  - lia.
Defined.

Lemma upload_all_acknowledged (w : world) (paths : list string)
      (queue : list (list Z)) :
  Forall2 (readable w) paths queue ->
  forall (seq : Z) (input t : list Z) (o : bool)
         (files dt : list string) (pr : list Q) (sb : bool),
    0 <= seq ->
    begins_below_255 seq queue ->
    upload_all w paths
      (gui_at (peer_uploads_acks seq queue ++ input) t o seq files dt pr sb)
    = (Ret tt,
       gui_at input (rev (uploads_writes seq queue) ++ t) o
         (counter_after_all seq queue) files
         (dt ++ uploads_log paths) (pr ++ uploads_progress queue) sb).
Proof.
  induction 1 as [|path data paths queue (Hopen & Hd & Hlen) Hrest IH];
    intros seq input t o files dt pr sb Hseq Hbegin.
  - cbn. now rewrite !app_nil_r.
  - destruct Hbegin as [H254 Hbegin].
    cbn [upload_all peer_uploads_acks uploads_writes counter_after_all
           uploads_log]. unfold uploads_progress. cbn [flat_map].
    rewrite <- app_assoc.
    erewrite bind_ret by (apply upload_at; [eassumption..|lia]).
    rewrite IH; [|apply counter_after_byte|exact Hbegin].
    rewrite rev_app_distr, <- !app_assoc. reflexivity.
Qed.


(** ** The package transfer driver *)

(** C3: what the package transfer driver produces.  For a package of
    [L > 0] bytes, uploaded against a peer that acknowledges every frame,
    the driver writes, after the begin frame, one frame for each chunk of
    a list [chunks], in order, and nothing else.  The list has
    [ceil (L / 256)] chunks; the length of every chunk is a multiple of 4;
    every chunk is a slice of the package followed by fewer than four zero
    bytes and nothing else; the chunks together are at least [L] bytes
    long; the slices joined in order are the package; and the second chunk
    of a 257-byte package is its last byte followed by three zeros. *)
Theorem package_chunking (w : world) (path : string) (data : list Z)
        (seq : Z) (input t : list Z) (o : bool)
        (files dt : list string) (pr : list Q) (sb : bool) :
  open_rb w path = Some data ->
  Forall is_byte data ->
  (0 < length data)%nat ->
  Z.of_nat (length data) < 2 ^ 32 ->
  0 <= seq <= 254 ->
  exists chunks : list (list Z),
    upload w path
      (gui_at (peer_upload_acks seq data ++ input) t o seq files dt pr sb)
    = (Ret tt,
       gui_at input
         (rev (encode [0x02; 0x04; seq] (Some (package_begin (length data)))
               ++ chunk_frames (seq + 1) chunks) ++ t)
         o ((seq + 1 + Z.of_nat (length chunks)) mod 256) files
         (dt ++ [("Uploading " ++ path ++ "...")%string;
                 ("Finished " ++ path)%string])
         (pr ++ upload_progress data) sb)
    /\ length chunks = ceil_div (length data) MAX_INFO_LEN
    /\ ((length chunks - 1) * MAX_INFO_LEN < length data
        <= length chunks * MAX_INFO_LEN)%nat
    /\ Forall (fun chunk => (length chunk mod 4 = 0)%nat) chunks
    /\ (forall (k : nat) (chunk : list Z),
          nth_error chunks k = Some chunk ->
          chunk = unpadded (length data) k chunk ++ padding (length data) k chunk
          /\ unpadded (length data) k chunk
             = slice data (k * MAX_INFO_LEN) (k * MAX_INFO_LEN + MAX_INFO_LEN)
          /\ padding (length data) k chunk
             = repeat 0 (length (padding (length data) k chunk))
          /\ (length (padding (length data) k chunk) < 4)%nat)
    /\ (length data <= length (concat chunks))%nat
    /\ concat (unpadded_from (length data) 0 chunks) = data
    /\ (length data = 257%nat ->
        nth_error chunks 1 = Some [nth 256 data 0; 0; 0; 0]).
Proof.
  intros Hopen Hd HL Hlen Hseq.
  exists (package_chunks data). split.
  - rewrite (upload_at w path data seq input t o files dt pr sb Hopen Hd Hlen Hseq).
    reflexivity.
  - apply package_chunks_layout, HL.
Qed.

Lemma package_chunking_witness :
  exists chunks : list (list Z),
    upload (com1_world [] [("a.pkg"%string, repeat 0x41 257)]) "a.pkg"
      (gui_at (peer_upload_acks 3 (repeat 0x41 257) ++ [0x07]) [] true 3
         [] [] [] false)
    = (Ret tt,
       gui_at [0x07]
         (rev (encode [0x02; 0x04; 3]
                 (Some (package_begin (length (repeat 0x41 257))))
               ++ chunk_frames (3 + 1) chunks) ++ [])
         true ((3 + 1 + Z.of_nat (length chunks)) mod 256) []
         ([] ++ [("Uploading " ++ "a.pkg" ++ "...")%string;
                 ("Finished " ++ "a.pkg")%string])
         ([] ++ upload_progress (repeat 0x41 257)) false)
    /\ length chunks = ceil_div (length (repeat 0x41 257)) MAX_INFO_LEN
    /\ ((length chunks - 1) * MAX_INFO_LEN < length (repeat 0x41 257)
        <= length chunks * MAX_INFO_LEN)%nat
    /\ Forall (fun chunk => (length chunk mod 4 = 0)%nat) chunks
    /\ (forall (k : nat) (chunk : list Z),
          nth_error chunks k = Some chunk ->
          chunk = unpadded (length (repeat 0x41 257)) k chunk
                  ++ padding (length (repeat 0x41 257)) k chunk
          /\ unpadded (length (repeat 0x41 257)) k chunk
             = slice (repeat 0x41 257) (k * MAX_INFO_LEN)
                 (k * MAX_INFO_LEN + MAX_INFO_LEN)
          /\ padding (length (repeat 0x41 257)) k chunk
             = repeat 0 (length (padding (length (repeat 0x41 257)) k chunk))
          /\ (length (padding (length (repeat 0x41 257)) k chunk) < 4)%nat)
    /\ (length (repeat 0x41 257) <= length (concat chunks))%nat
    /\ concat (unpadded_from (length (repeat 0x41 257)) 0 chunks)
       = repeat 0x41 257
    /\ (length (repeat 0x41 257) = 257%nat ->
        nth_error chunks 1 = Some [nth 256 (repeat 0x41 257) 0; 0; 0; 0]).
Proof.
  apply (package_chunking (com1_world [] [("a.pkg"%string, repeat 0x41 257)])
           "a.pkg" (repeat 0x41 257) 3 [0x07] [] true [] [] [] false).
  - reflexivity.
  - apply Forall_forall. intros x Hx. apply repeat_spec in Hx. subst x.
    unfold is_byte. lia.
  - rewrite repeat_length. lia.
  - rewrite repeat_length. cbn. lia.
  - lia.
Defined.


(** ** Sessions from end to end *)

Lemma counter_after_all_byte (queue : list (list Z)) :
  forall seq : Z, is_byte seq -> is_byte (counter_after_all seq queue).
Proof.
  induction queue as [|data queue IH]; intros seq Hs; [exact Hs|].
  cbn [counter_after_all]. apply IH, counter_after_byte.
Qed.

Lemma open_port_ok (w : world) (g : gui) (name : string) (speed : Z)
      (input : list Z) :
  port_combo w = name ->
  selectable name ->
  speed_combo w = Some speed ->
  serial_Serial w name = Some input ->
  open_port w g
  = (Ret tt,
     gui_at input [] true (lt_seq_no g) (file_list g)
       (debug_text g ++ [("Port " ++ name ++ " opened. Waiting for Newton...")%string])
       (progress g) (start_btn_enabled g)).
Proof.
  intros Hname [Hne1 Hne2] Hspeed Hopen. unfold open_port.
  rewrite Hname, Hspeed, Hopen.
  destruct (String.eqb_spec name EmptyString); [contradiction|].
  destruct (String.eqb_spec name "No ports found"); [contradiction|].
  reflexivity.
Qed.

(** X17: a whole session against a conforming peer.  For every queue of
    readable files of which none begins with the counter at 255, the
    session runs to its end: it writes the handshake, the frames of every
    package and the disconnect frame, reads exactly the peer's frames,
    logs its lines, closes the port and enables the button.  The counter
    is not set back at the start: the session numbers its frames from the
    value it finds. *)
Theorem run_installer_completes
        (w : world) (g : gui) (name : string) (speed : Z)
        (request : list Z) (s1 s2 s3 : Z) (i1 i2 i3 : list Z)
        (queue : list (list Z)) (rest : list Z) :
  port_combo w = name ->
  selectable name ->
  speed_combo w = Some speed ->
  serial_Serial w name
  = Some (peer_handshake_frames request (lt_seq_no g) s1 i1 s2 i2 s3 i3
          ++ peer_uploads_acks (lt_seq_no g + 3) queue ++ rest) ->
  Forall is_byte request ->
  nth_error request 1 = Some 0x01 ->
  is_byte s1 -> is_byte s2 -> is_byte s3 ->
  Forall is_byte i1 -> Forall is_byte i2 -> Forall is_byte i3 ->
  0 <= lt_seq_no g <= 252 ->
  Forall2 (readable w) (file_list g) queue ->
  begins_below_255 (lt_seq_no g + 3) queue ->
  run_installer w g
  = (Ret tt,
     gui_at rest (rev (session_writes (lt_seq_no g) s1 s2 s3 queue)) false
       (counter_after_all (lt_seq_no g + 3) queue)
       (file_list g)
       (debug_text g
        ++ session_log name (owner_name (skipn 24 ([0x02; 0x04; s2] ++ i2)))
             (file_list g))
       (progress g ++ uploads_progress queue)
       true).
Proof.
  intros Hname Hsel Hspeed Hopen Hreq Htag Hs1 Hs2 Hs3 Hi1 Hi2 Hi3 Hn Hfiles
         Hbegin.
  destruct command_bytes as (_ & _ & Hdisc).
  assert (Hc : is_byte (counter_after_all (lt_seq_no g + 3) queue))
    by (apply counter_after_all_byte; unfold is_byte; lia).
  unfold run_installer, try_finally, try_except, session.
  erewrite bind_ret by (eapply open_port_ok; eassumption).
  erewrite bind_ret by (apply handshake_at; (assumption || lia)).
  unfold bind at 1, get. unfold gui_at at 1. cbn [file_list].
  fold (gui_at (peer_uploads_acks (lt_seq_no g + 3) queue ++ rest)
          (rev (handshake_writes (lt_seq_no g) s1 s2 s3) ++ []) true
          (lt_seq_no g + 3) (file_list g)
          ((debug_text g
            ++ [("Port " ++ name ++ " opened. Waiting for Newton...")%string])
           ++ ["Connected! Sending LR Frame..."%string;
               "Sending dockdock handshake..."%string;
               ("Newton Owner: "
                ++ owner_name (skipn 24 ([0x02; 0x04; s2] ++ i2)))%string])
          (progress g) (start_btn_enabled g)).
  erewrite bind_ret by (apply upload_all_acknowledged; [exact Hfiles|lia|exact Hbegin]).
  erewrite bind_ret by (apply send_lt_frame_at; [exact Hc|exact Hdisc]).
  erewrite bind_ret by apply log_at.
  unfold on_port, modify, gui_at, set_port, set_start_btn, session_writes,
    session_log.
  cbn [gui_port rx tx_rev is_open lt_seq_no file_list debug_text progress
         start_btn_enabled].
  rewrite !rev_app_distr, !app_nil_r, <- !app_assoc. reflexivity.
Qed.


Lemma sample_dock_bytes :
  Forall is_byte (ascii_bytes "newtdockname" ++ repeat 0 9 ++ [0x41; 0; 0x6c; 0; 0; 0]).
Proof. cbn. repeat (constructor; [unfold is_byte; lia|]). constructor. Qed.

Lemma lr_frame_bytes : Forall is_byte LR_FRAME.
Proof.
  unfold LR_FRAME. repeat (constructor; [unfold is_byte; lia|]). constructor.
Qed.

Lemma handshake_completes_witness :
  handshake
    (gui_at (peer_handshake_frames LR_FRAME 7 1 [] 2
               (ascii_bytes "newtdockname" ++ repeat 0 9 ++ [0x41; 0; 0x6c; 0; 0; 0])
               3 [] ++ [0x07])
       [] true 7 [] [] [] false)
  = (Ret tt,
     gui_at [0x07] (rev (handshake_writes 7 1 2 3) ++ []) true (7 + 3) []
       ([] ++ ["Connected! Sending LR Frame..."%string;
               "Sending dockdock handshake..."%string;
               ("Newton Owner: "
                ++ owner_name
                     (skipn 24 ([0x02; 0x04; 2]
                                ++ (ascii_bytes "newtdockname" ++ repeat 0 9
                                    ++ [0x41; 0; 0x6c; 0; 0; 0]))))%string])
       [] false).
Proof.
  apply (handshake_completes LR_FRAME 7 1 2 3 []
           (ascii_bytes "newtdockname" ++ repeat 0 9 ++ [0x41; 0; 0x6c; 0; 0; 0])
           [] [0x07] [] true [] [] [] false).
  - exact lr_frame_bytes.
  - reflexivity.
  - lia.
  - unfold is_byte; lia.
  - unfold is_byte; lia.
  - unfold is_byte; lia.
  - constructor.
  - exact sample_dock_bytes.
  - constructor.
Defined.

Lemma run_installer_completes_witness :
  run_installer
    (com1_world
       (peer_handshake_frames LR_FRAME 0 1 [] 2
          (ascii_bytes "newtdockname" ++ repeat 0 9 ++ [0x41; 0; 0x6c; 0; 0; 0])
          3 []
        ++ peer_uploads_acks (0 + 3) [repeat 0x41 300; []] ++ [0x07])
       [("a.pkg"%string, repeat 0x41 300); ("b.pkg"%string, [])])
    (fresh_gui ["a.pkg"%string; "b.pkg"%string])
  = (Ret tt,
     gui_at [0x07]
       (rev (session_writes 0 1 2 3 [repeat 0x41 300; []])) false
       (counter_after_all (0 + 3) [repeat 0x41 300; []])
       ["a.pkg"%string; "b.pkg"%string]
       ([] ++ session_log "COM1"
                (owner_name
                   (skipn 24 ([0x02; 0x04; 2]
                              ++ (ascii_bytes "newtdockname" ++ repeat 0 9
                                  ++ [0x41; 0; 0x6c; 0; 0; 0]))))
                ["a.pkg"%string; "b.pkg"%string])
       ([] ++ uploads_progress [repeat 0x41 300; []])
       true).
Proof.
  assert (Hdata : Forall is_byte (repeat 0x41 300)).
  { apply Forall_forall. intros x Hx. apply repeat_spec in Hx. subst x.
    unfold is_byte. lia. }
  apply (run_installer_completes
           (com1_world
              (peer_handshake_frames LR_FRAME 0 1 [] 2
                 (ascii_bytes "newtdockname" ++ repeat 0 9 ++ [0x41; 0; 0x6c; 0; 0; 0])
                 3 []
               ++ peer_uploads_acks (0 + 3) [repeat 0x41 300; []] ++ [0x07])
              [("a.pkg"%string, repeat 0x41 300); ("b.pkg"%string, [])])
           (fresh_gui ["a.pkg"%string; "b.pkg"%string])
           "COM1" 38400 LR_FRAME 1 2 3 []
           (ascii_bytes "newtdockname" ++ repeat 0 9 ++ [0x41; 0; 0x6c; 0; 0; 0])
           [] [repeat 0x41 300; []] [0x07]).
  - reflexivity.
  - split; discriminate.
  - reflexivity.
  - reflexivity.
  - exact lr_frame_bytes.
  - reflexivity.
  - unfold is_byte; lia.
  - unfold is_byte; lia.
  - unfold is_byte; lia.
  - constructor.
  - exact sample_dock_bytes.
  - constructor.
  - cbn. lia.
  - constructor; [|constructor; [|constructor]].
    + split; [reflexivity|]. split; [exact Hdata|]. rewrite repeat_length. cbn. lia.
    + split; [reflexivity|]. split; [constructor|]. cbn. lia.
  - cbn [begins_below_255 fresh_gui lt_seq_no]. unfold counter_after.
    split; [lia|]. split; [|exact I].
    pose proof (Z.mod_pos_bound (0 + 3 + 1 + Z.of_nat (length (package_chunks (repeat 0x41 300)))) 256 ltac:(lia)) as Hm.
    replace (length (package_chunks (repeat 0x41 300))) with 2%nat in * by (vm_compute; reflexivity).
    vm_compute. discriminate.
Defined.


(** ** Sessions that do not begin *)

(** X18: no port selected.  With the combobox empty or showing "No ports
    found" the session opens nothing and reads no file: the state is the
    one before, with the reason logged and the button enabled. *)
Theorem run_installer_refuses_selection (w : world) (g : gui) :
  port_combo w = EmptyString \/ port_combo w = "No ports found"%string ->
  run_installer w g
  = (Ret tt,
     mkGui (gui_port g) (lt_seq_no g) (file_list g)
       (debug_text g ++ ["ERROR: Please select a valid serial port."%string])
       (progress g) true).
Proof.
  intros Hsel. unfold run_installer, try_finally, try_except, session, open_port.
  destruct Hsel as [-> | ->]; reflexivity.
Qed.

Lemma run_installer_refuses_selection_witness :
  run_installer (mkWorld "No ports found" (Some 38400) (fun _ => Some []) (fun _ => None))
    (fresh_gui ["a.pkg"%string])
  = (Ret tt,
     mkGui (gui_port (fresh_gui ["a.pkg"%string]))
       (lt_seq_no (fresh_gui ["a.pkg"%string]))
       (file_list (fresh_gui ["a.pkg"%string]))
       (debug_text (fresh_gui ["a.pkg"%string])
        ++ ["ERROR: Please select a valid serial port."%string])
       (progress (fresh_gui ["a.pkg"%string])) true).
Proof. apply run_installer_refuses_selection. right. reflexivity. Defined.

(** X19: the port cannot be opened.  When the speed is not a number or
    [serial.Serial] raises, the installer keeps the port it had, logs the
    reason and enables the button; no frame is read or written. *)
Theorem run_installer_open_fails (w : world) (g : gui) :
  selectable (port_combo w) ->
  speed_combo w = None \/ serial_Serial w (port_combo w) = None ->
  exists reason : string,
    run_installer w g
    = (Ret tt,
       mkGui (gui_port g) (lt_seq_no g) (file_list g)
         (debug_text g ++ [("ERROR: " ++ reason)%string]) (progress g) true).
Proof.
  intros [Hne1 Hne2] Hfail.
  unfold run_installer, try_finally, try_except, session, open_port.
  unfold bind at 2.
  destruct (String.eqb_spec (port_combo w) EmptyString); [contradiction|].
  destruct (String.eqb_spec (port_combo w) "No ports found"); [contradiction|].
  cbn [orb]. unfold bind at 2. unfold ret at 1.
  destruct (speed_combo w) as [speed|].
  - destruct Hfail as [Hf | Hf]; [discriminate|]. rewrite Hf.
    eexists. reflexivity.
  - eexists. reflexivity.
Qed.

Lemma run_installer_open_fails_witness :
  exists reason : string,
    run_installer (mkWorld "COM9" (Some 38400) (fun _ => None) (fun _ => None))
      (fresh_gui ["a.pkg"%string])
    = (Ret tt,
       mkGui (gui_port (fresh_gui ["a.pkg"%string]))
         (lt_seq_no (fresh_gui ["a.pkg"%string]))
         (file_list (fresh_gui ["a.pkg"%string]))
         (debug_text (fresh_gui ["a.pkg"%string]) ++ [("ERROR: " ++ reason)%string])
         (progress (fresh_gui ["a.pkg"%string])) true).
Proof.
  apply (run_installer_open_fails
           (mkWorld "COM9" (Some 38400) (fun _ => None) (fun _ => None))).
  - split; discriminate.
  - right. reflexivity.
Defined.

(** X20: [run_installer] lets no exception out, and whenever it returns the
    start button is enabled. *)
Theorem run_installer_catches_all (w : world) (g : gui) :
  (forall e : exn, fst (run_installer w g) <> Raise e)
  /\ (fst (run_installer w g) = Ret tt ->
      start_btn_enabled (snd (run_installer w g)) = true).
Proof.
  unfold run_installer, try_finally, try_except.
  destruct (session w g) as [[[]|e| |] g']; cbn; split;
    try discriminate; try reflexivity; intros; discriminate.
Qed.

Lemma bind_hang {S A B} (m : M S A) (k : A -> M S B) (s s' : S) :
  m s = (Hang, s') -> bind m k s = (Hang, s').
Proof. intros H. unfold bind. now rewrite H. Qed.

Lemma await_blocks (tag : Z) (body : list Z -> M gui unit)
      (noise t : list Z) (o : bool) (n : Z)
      (files dt : list string) (pr : list Q) (sb : bool) :
  Forall (fun b => b <> 0x16) noise ->
  await tag body (gui_at noise t o n files dt pr sb)
  = (Hang, gui_at [] t o n files dt pr sb).
Proof.
  intros Hn. unfold gui_at, await, bind at 1, get, pending. cbn [gui_port rx].
  rewrite await_loop_turn with (p := mkPort noise t o) by reflexivity.
  cbn [rx tx_rev is_open].
  destruct noise as [|b noise]; [reflexivity|].
  rewrite (reads_noise b noise Hn). cbv zeta. cbn [fst snd length].
  now rewrite await_loop_turn with (p := mkPort [] t o) by reflexivity.
Qed.

(** X21: a peer that never asks.  When the port opens but delivers nothing,
    or bytes with no 0x16 among them, the session never returns: it stays
    in its first loop with the port open, nothing written, and the start
    button as it was. *)
Theorem run_installer_waits_forever (w : world) (g : gui) (name : string)
        (speed : Z) (noise : list Z) :
  port_combo w = name ->
  selectable name ->
  speed_combo w = Some speed ->
  serial_Serial w name = Some noise ->
  Forall (fun b => b <> 0x16) noise ->
  run_installer w g
  = (Hang,
     gui_at [] [] true (lt_seq_no g) (file_list g)
       (debug_text g ++ [("Port " ++ name ++ " opened. Waiting for Newton...")%string])
       (progress g) (start_btn_enabled g)).
Proof.
  intros Hname Hsel Hspeed Hopen Hnoise.
  unfold run_installer, try_finally, try_except, session.
  erewrite bind_ret by (eapply open_port_ok; eassumption).
  cbv beta. rewrite (bind_hang handshake) with
    (s' := gui_at [] [] true (lt_seq_no g) (file_list g)
             (debug_text g ++ [("Port " ++ name ++ " opened. Waiting for Newton...")%string])
             (progress g) (start_btn_enabled g)).
  - reflexivity.
  - unfold handshake. apply bind_hang. now apply await_blocks.
Qed.

Lemma run_installer_waits_forever_witness :
  run_installer (com1_world [0x10; 0x02; 0x03] []) (fresh_gui ["a.pkg"%string])
  = (Hang,
     gui_at [] [] true (lt_seq_no (fresh_gui ["a.pkg"%string]))
       (file_list (fresh_gui ["a.pkg"%string]))
       (debug_text (fresh_gui ["a.pkg"%string])
        ++ [("Port " ++ "COM1" ++ " opened. Waiting for Newton...")%string])
       (progress (fresh_gui ["a.pkg"%string]))
       (start_btn_enabled (fresh_gui ["a.pkg"%string]))).
Proof.
  apply (run_installer_waits_forever (com1_world [0x10; 0x02; 0x03] [])
           (fresh_gui ["a.pkg"%string]) "COM1" 38400 [0x10; 0x02; 0x03]).
  - reflexivity.
  - split; discriminate.
  - reflexivity.
  - reflexivity.
  - repeat (constructor; [discriminate|]). constructor.
Defined.


(** ** Chunks, again *)

Lemma chunk_at_length (data : list Z) (k : nat) :
  (k * 256 < length data)%nat ->
  (4 <= length (chunk_at data (k * 256)) <= MAX_INFO_LEN)%nat.
Proof.
  intros Hk. unfold chunk_at. rewrite pad4_zeros, length_app, repeat_length.
  rewrite length_slice. unfold MAX_INFO_LEN.
  set (m := Nat.min 256 (length data - k * 256)).
  assert (Hm : (1 <= m <= 256)%nat) by (unfold m; lia).
  pose proof (Nat.div_mod_eq m 4) as Hd.
  pose proof (Nat.mod_upper_bound m 4 ltac:(lia)) as Hr.
  remember (m mod 4)%nat as r eqn:Er. clear Er.
  clearbody m. generalize dependent (m / 4)%nat. intros q Hd.
  destruct r as [|[|[|[|r]]]];
    [change ((4 - 0) mod 4)%nat with 0%nat|change ((4 - 1) mod 4)%nat with 3%nat
    |change ((4 - 2) mod 4)%nat with 2%nat|change ((4 - 3) mod 4)%nat with 1%nat|];
    lia.
Qed.

Lemma seq_below (k n : nat) : In k (seq 0 n) -> (k < n)%nat.
Proof. intros H. apply in_seq in H. lia. Qed.

(** X22: every chunk fits a frame.  Whatever the package, each chunk sent
    has between 4 and [MAX_INFO_LEN] bytes: padding never makes a chunk
    longer than the frame limit, and no empty chunk is sent. *)
Theorem chunks_fit_frame (data : list Z) :
  Forall (fun chunk => (4 <= length chunk <= MAX_INFO_LEN)%nat)
         (package_chunks data).
Proof.
  rewrite package_chunks_offsets. apply Forall_forall. intros chunk Hc.
  apply in_map_iff in Hc. destruct Hc as (k & <- & Hk).
  apply seq_below in Hk. apply chunk_at_length.
  destruct (ceil_div_bounds (length data)) as [_ Hlow].
  destruct (length data) as [|L] eqn:E.
  - unfold ceil_div in Hk. cbn in Hk. lia.
  - specialize (Hlow ltac:(lia)). lia.
Qed.

Lemma chunk_at_full (data : list Z) (k : nat) :
  (k * 256 + 256 <= length data)%nat ->
  chunk_at data (k * 256) = slice data (k * 256) (k * 256 + MAX_INFO_LEN).
Proof.
  intros Hk. unfold chunk_at. rewrite pad4_zeros, length_slice.
  unfold MAX_INFO_LEN. rewrite Nat.min_l by lia.
  cbn. apply app_nil_r.
Qed.

Lemma chunk_at_last (data : list Z) (k : nat) :
  (k * 256 < length data <= k * 256 + 256)%nat ->
  chunk_at data (k * 256)
  = slice data (k * 256) (k * 256 + MAX_INFO_LEN)
    ++ repeat 0 ((4 - length data mod 4) mod 4).
Proof.
  intros Hk. unfold chunk_at. rewrite pad4_zeros. f_equal. f_equal.
  rewrite length_slice. unfold MAX_INFO_LEN. rewrite Nat.min_r by lia.
  replace (length data) with (length data - k * 256 + k * 64 * 4)%nat at 2 by lia.
  now rewrite Nat.Div0.mod_add.
Qed.

(** X23: padding only at the end.  The chunks of a package, joined in the
    order they are sent, are the package followed by the zero bytes that
    bring its length to a multiple of 4: only the last chunk is padded. *)
Theorem chunks_pad_only_the_end (data : list Z) :
  concat (package_chunks data)
  = data ++ repeat 0 ((4 - length data mod 4) mod 4).
Proof.
  rewrite package_chunks_offsets.
  destruct (ceil_div_bounds (length data)) as [Hup Hlow].
  destruct (ceil_div (length data) 256) as [|n] eqn:En.
  - assert (Hd : length data = 0%nat) by lia.
    apply length_zero_iff_nil in Hd. now subst data.
  - assert (Hpos : (0 < length data)%nat).
    { destruct (length data) eqn:E; [|lia]. unfold ceil_div in En. cbn in En.
      discriminate. }
    specialize (Hlow Hpos).
    pose proof (all_chunks_cover data) as Hcover.
    rewrite En, seq_S, map_app, concat_app in Hcover.
    cbn [map concat Nat.add] in Hcover. rewrite app_nil_r in Hcover.
    rewrite seq_S, map_app, concat_app. cbn [map concat Nat.add].
    rewrite app_nil_r, chunk_at_last by (cbn in Hlow; lia).
    rewrite app_assoc. f_equal. etransitivity; [|exact Hcover]. f_equal.
    f_equal. apply map_ext_in. intros k Hk. apply seq_below in Hk.
    apply chunk_at_full. cbn in Hlow. lia.
Qed.

(** ** The owner name *)

Lemma chr_code (c : ascii) : chr (Z.of_N (N_of_ascii c)) = c.
Proof. unfold chr. rewrite N2Z.id. apply ascii_N_embedding. Qed.

Lemma code_nonzero (c : ascii) :
  c <> zero -> (Z.of_N (N_of_ascii c) =? 0) = false.
Proof.
  intros Hc. apply Z.eqb_neq. intros H. apply Hc.
  rewrite <- (ascii_N_embedding c).
  replace (N_of_ascii c) with 0%N by lia. reflexivity.
Qed.

(** X24: the owner name is read from the bytes in even positions.  If the
    name is stored as characters with the character code first, none of
    them NUL, the installer reads exactly those characters, whether the
    name is ended by a zero code or by the end of the frame. *)
Theorem owner_name_reads_character_codes (cs : list (ascii * Z)) (rest : list Z) :
  Forall (fun c => fst c <> zero) cs ->
  owner_name (wide cs) = string_of_list_ascii (map fst cs)
  /\ owner_name (wide cs ++ 0 :: rest) = string_of_list_ascii (map fst cs).
Proof.
  induction 1 as [|[c hi] cs Hc Hcs [IH1 IH2]]; [split; reflexivity|].
  cbn [fst] in Hc. unfold wide in *. cbn [flat_map app map fst snd].
  cbn [owner_name string_of_list_ascii].
  rewrite (code_nonzero c Hc), chr_code, IH1, IH2. split; reflexivity.
Qed.

Lemma owner_name_reads_character_codes_witness :
  owner_name (wide [("A"%char, 0); ("l"%char, 0)])
  = string_of_list_ascii (map fst [("A"%char, 0); ("l"%char, 0)])
  /\ owner_name (wide [("A"%char, 0); ("l"%char, 0)] ++ 0 :: [0x07])
     = string_of_list_ascii (map fst [("A"%char, 0); ("l"%char, 0)]).
Proof.
  apply (owner_name_reads_character_codes [("A"%char, 0); ("l"%char, 0)] [0x07]).
  constructor; [discriminate|]. constructor; [discriminate|]. constructor.
Defined.


(** ** Sessions that fail on the way *)

Lemma upload_all_missing (w : world) (missing : string) (later paths : list string)
      (queue : list (list Z)) :
  open_rb w missing = None ->
  Forall2 (readable w) paths queue ->
  forall (seq : Z) (input t : list Z) (o : bool)
         (files dt : list string) (pr : list Q) (sb : bool),
    0 <= seq ->
    begins_below_255 seq queue ->
    upload_all w (paths ++ missing :: later)
      (gui_at (peer_uploads_acks seq queue ++ input) t o seq files dt pr sb)
    = (Raise (OSError ("[Errno 2] No such file or directory: '" ++ missing ++ "'")),
       gui_at input (rev (uploads_writes seq queue) ++ t) o
         (counter_after_all seq queue) files
         (dt ++ uploads_log paths) (pr ++ uploads_progress queue) sb).
Proof.
  intros Hmissing.
  induction 1 as [|path data paths queue (Hopen & Hd & Hlen) Hrest IH];
    intros seq input t o files dt pr sb Hseq Hbegin.
  - cbn [app upload_all peer_uploads_acks uploads_writes counter_after_all
           uploads_log rev]. unfold uploads_progress. cbn [flat_map].
    rewrite !app_nil_r. unfold bind, upload. now rewrite Hmissing.
  - destruct Hbegin as [H254 Hbegin].
    cbn [app upload_all peer_uploads_acks uploads_writes counter_after_all
           uploads_log]. unfold uploads_progress. cbn [flat_map].
    rewrite <- app_assoc.
    erewrite bind_ret by (apply upload_at; [eassumption..|lia]).
    rewrite IH; [|apply counter_after_byte|exact Hbegin].
    rewrite rev_app_distr, <- !app_assoc. reflexivity.
Qed.

(** X25: a queued file that cannot be opened.  After the handshake and the
    packages queued before it, the session stops at the file: it logs one
    error line, whose text is the operating system's, and enables the
    button, having written nothing for that file or the ones after it, no
    disconnect frame among them, and it leaves the port open. *)
Theorem run_installer_stops_at_missing_file
        (w : world) (g : gui) (name : string) (speed : Z)
        (request : list Z) (s1 s2 s3 : Z) (i1 i2 i3 : list Z)
        (paths : list string) (missing : string) (later : list string)
        (queue : list (list Z)) (rest : list Z) :
  port_combo w = name ->
  selectable name ->
  speed_combo w = Some speed ->
  serial_Serial w name
  = Some (peer_handshake_frames request (lt_seq_no g) s1 i1 s2 i2 s3 i3
          ++ peer_uploads_acks (lt_seq_no g + 3) queue ++ rest) ->
  Forall is_byte request ->
  nth_error request 1 = Some 0x01 ->
  is_byte s1 -> is_byte s2 -> is_byte s3 ->
  Forall is_byte i1 -> Forall is_byte i2 -> Forall is_byte i3 ->
  0 <= lt_seq_no g <= 252 ->
  file_list g = paths ++ missing :: later ->
  Forall2 (readable w) paths queue ->
  begins_below_255 (lt_seq_no g + 3) queue ->
  open_rb w missing = None ->
  exists reason : string,
    run_installer w g
    = (Ret tt,
       gui_at rest
         (rev (handshake_writes (lt_seq_no g) s1 s2 s3
               ++ uploads_writes (lt_seq_no g + 3) queue))
         true
         (counter_after_all (lt_seq_no g + 3) queue)
         (file_list g)
         (debug_text g
          ++ [("Port " ++ name ++ " opened. Waiting for Newton...")%string;
              "Connected! Sending LR Frame..."%string;
              "Sending dockdock handshake..."%string;
              ("Newton Owner: "
               ++ owner_name (skipn 24 ([0x02; 0x04; s2] ++ i2)))%string]
          ++ uploads_log paths
          ++ [("ERROR: " ++ reason)%string])
         (progress g ++ uploads_progress queue)
         true).
Proof.
  intros Hname Hsel Hspeed Hopen Hreq Htag Hs1 Hs2 Hs3 Hi1 Hi2 Hi3 Hn Hlist
         Hfiles Hbegin Hmissing.
  exists ("[Errno 2] No such file or directory: '" ++ missing ++ "'")%string.
  unfold run_installer, try_finally, try_except, session.
  erewrite bind_ret by (eapply open_port_ok; eassumption).
  erewrite bind_ret by (apply handshake_at; (assumption || lia)).
  unfold bind at 1, get. unfold gui_at at 1. cbn [file_list].
  fold (gui_at (peer_uploads_acks (lt_seq_no g + 3) queue ++ rest)
          (rev (handshake_writes (lt_seq_no g) s1 s2 s3) ++ []) true
          (lt_seq_no g + 3) (file_list g)
          ((debug_text g
            ++ [("Port " ++ name ++ " opened. Waiting for Newton...")%string])
           ++ ["Connected! Sending LR Frame..."%string;
               "Sending dockdock handshake..."%string;
               ("Newton Owner: "
                ++ owner_name (skipn 24 ([0x02; 0x04; s2] ++ i2)))%string])
          (progress g) (start_btn_enabled g)).
  rewrite Hlist at 1.
  erewrite bind_raise
    by (apply upload_all_missing; [exact Hmissing|exact Hfiles|lia|exact Hbegin]).
  unfold log, modify, gui_at, add_debug_text, set_start_btn.
  cbn [gui_port lt_seq_no file_list debug_text progress start_btn_enabled
         str_exn].
  rewrite !rev_app_distr, !app_nil_r, <- !app_assoc. reflexivity.
Qed.


Lemma handshake_overflows (request : list Z) (s1 : Z) (i1 input t : list Z)
      (o : bool) (files dt : list string) (pr : list Q) (sb : bool) :
  Forall is_byte request ->
  nth_error request 1 = Some 0x01 ->
  is_byte s1 ->
  Forall is_byte i1 ->
  handshake
    (gui_at (encode request None ++ peer_la 255 ++ peer_lt s1 i1 ++ input)
       t o 255 files dt pr sb)
  = (Raise (ValueError "bytes must be in range(0, 256)"),
     gui_at input
       (rev (encode LR_FRAME None ++ encode [0x03; 0x05; s1; 0x01] None) ++ t)
       o 256 files
       (dt ++ ["Connected! Sending LR Frame..."%string;
               "Sending dockdock handshake..."%string])
       pr sb).
Proof.
  intros Hreq Htag Hs1 Hi1.
  destruct (dock_frame_bytes s1 i1 Hs1 Hi1) as (Hh1 & Hp1 & Hb1).
  unfold handshake, peer_lt.
  erewrite bind_ret.
  2:{ rewrite await_accepts by (assumption || constructor
                                || (cbn [payload]; now rewrite app_nil_r)).
      reflexivity. }
  erewrite bind_ret by apply log_at.
  erewrite bind_ret by apply send_lr_frame.
  erewrite bind_ret by (apply wait_la_current_at; unfold is_byte; lia).
  erewrite bind_ret by apply incr_lt_seq_no_at.
  erewrite bind_ret.
  2:{ rewrite await_accepts by (assumption || reflexivity).
      now apply acknowledge_dock. }
  erewrite bind_ret by apply log_at.
  erewrite bind_raise by (apply send_lt_frame_not_byte; reflexivity).
  rewrite rev_app_distr, <- !app_assoc. reflexivity.
Qed.

(** X26: a session that finds the counter at 255.  The counter is not set
    back when a session starts and the handshake counts without wrapping:
    the link request is acknowledged under 255, the counter becomes 256,
    and the first command frame cannot be built.  The session ends with
    the error logged after the peer's first dock frame, the port open. *)
Theorem run_installer_counter_at_255
        (w : world) (g : gui) (name : string) (speed : Z)
        (request : list Z) (s1 : Z) (i1 rest : list Z) :
  port_combo w = name ->
  selectable name ->
  speed_combo w = Some speed ->
  serial_Serial w name
  = Some (encode request None ++ peer_la 255 ++ peer_lt s1 i1 ++ rest) ->
  Forall is_byte request ->
  nth_error request 1 = Some 0x01 ->
  is_byte s1 ->
  Forall is_byte i1 ->
  lt_seq_no g = 255 ->
  run_installer w g
  = (Ret tt,
     gui_at rest
       (rev (encode LR_FRAME None ++ encode [0x03; 0x05; s1; 0x01] None))
       true 256 (file_list g)
       (debug_text g
        ++ [("Port " ++ name ++ " opened. Waiting for Newton...")%string;
            "Connected! Sending LR Frame..."%string;
            "Sending dockdock handshake..."%string;
            "ERROR: bytes must be in range(0, 256)"%string])
       (progress g)
       true).
Proof.
  intros Hname Hsel Hspeed Hopen Hreq Htag Hs1 Hi1 Hn.
  unfold run_installer, try_finally, try_except, session.
  erewrite bind_ret by (eapply open_port_ok; eassumption).
  rewrite Hn.
  erewrite bind_raise by (apply handshake_overflows; assumption).
  unfold log, modify, gui_at, add_debug_text, set_start_btn.
  cbn [gui_port lt_seq_no file_list debug_text progress start_btn_enabled
         str_exn].
  rewrite !app_nil_r, <- !app_assoc. reflexivity.
Qed.

Lemma run_installer_counter_at_255_witness :
  run_installer
    (com1_world (encode LR_FRAME None ++ peer_la 255 ++ peer_lt 1 [] ++ [0x07]) [])
    (mkGui None 255 ["a.pkg"%string] [] [] false)
  = (Ret tt,
     gui_at [0x07]
       (rev (encode LR_FRAME None ++ encode [0x03; 0x05; 1; 0x01] None))
       true 256 (file_list (mkGui None 255 ["a.pkg"%string] [] [] false))
       (debug_text (mkGui None 255 ["a.pkg"%string] [] [] false)
        ++ [("Port " ++ "COM1" ++ " opened. Waiting for Newton...")%string;
            "Connected! Sending LR Frame..."%string;
            "Sending dockdock handshake..."%string;
            "ERROR: bytes must be in range(0, 256)"%string])
       (progress (mkGui None 255 ["a.pkg"%string] [] [] false))
       true).
Proof.
  apply (run_installer_counter_at_255
           (com1_world (encode LR_FRAME None ++ peer_la 255 ++ peer_lt 1 [] ++ [0x07]) [])
           (mkGui None 255 ["a.pkg"%string] [] [] false)
           "COM1" 38400 LR_FRAME 1 [] [0x07]).
  - reflexivity.
  - split; discriminate.
  - reflexivity.
  - reflexivity.
  - exact lr_frame_bytes.
  - reflexivity.
  - unfold is_byte; lia.
  - constructor.
  - reflexivity.
Defined.

Lemma run_installer_stops_at_missing_file_witness :
  exists reason : string,
  run_installer
    (com1_world
       (peer_handshake_frames LR_FRAME 0 1 [] 2
          (ascii_bytes "newtdockname" ++ repeat 0 9 ++ [0x41; 0; 0x6c; 0; 0; 0])
          3 []
        ++ peer_uploads_acks (0 + 3) [repeat 0x41 300] ++ [0x07])
       [("a.pkg"%string, repeat 0x41 300); ("c.pkg"%string, [])])
    (fresh_gui ["a.pkg"%string; "gone.pkg"%string; "c.pkg"%string])
  = (Ret tt,
     gui_at [0x07]
       (rev (handshake_writes 0 1 2 3 ++ uploads_writes (0 + 3) [repeat 0x41 300]))
       true
       (counter_after_all (0 + 3) [repeat 0x41 300])
       ["a.pkg"%string; "gone.pkg"%string; "c.pkg"%string]
       ([]
        ++ [("Port " ++ "COM1" ++ " opened. Waiting for Newton...")%string;
            "Connected! Sending LR Frame..."%string;
            "Sending dockdock handshake..."%string;
            ("Newton Owner: "
             ++ owner_name
                  (skipn 24 ([0x02; 0x04; 2]
                             ++ (ascii_bytes "newtdockname" ++ repeat 0 9
                                 ++ [0x41; 0; 0x6c; 0; 0; 0]))))%string]
        ++ uploads_log ["a.pkg"%string]
        ++ [("ERROR: " ++ reason)%string])
       ([] ++ uploads_progress [repeat 0x41 300])
       true).
Proof.
  assert (Hdata : Forall is_byte (repeat 0x41 300)).
  { apply Forall_forall. intros x Hx. apply repeat_spec in Hx. subst x.
    unfold is_byte. lia. }
  apply (run_installer_stops_at_missing_file
           (com1_world
              (peer_handshake_frames LR_FRAME 0 1 [] 2
                 (ascii_bytes "newtdockname" ++ repeat 0 9 ++ [0x41; 0; 0x6c; 0; 0; 0])
                 3 []
               ++ peer_uploads_acks (0 + 3) [repeat 0x41 300] ++ [0x07])
              [("a.pkg"%string, repeat 0x41 300); ("c.pkg"%string, [])])
           (fresh_gui ["a.pkg"%string; "gone.pkg"%string; "c.pkg"%string])
           "COM1" 38400 LR_FRAME 1 2 3 []
           (ascii_bytes "newtdockname" ++ repeat 0 9 ++ [0x41; 0; 0x6c; 0; 0; 0])
           [] ["a.pkg"%string] "gone.pkg" ["c.pkg"%string]
           [repeat 0x41 300] [0x07]).
  - reflexivity.
  - split; discriminate.
  - reflexivity.
  - reflexivity.
  - exact lr_frame_bytes.
  - reflexivity.
  - unfold is_byte; lia.
  - unfold is_byte; lia.
  - unfold is_byte; lia.
  - constructor.
  - exact sample_dock_bytes.
  - constructor.
  - cbn. lia.
  - reflexivity.
  - constructor; [|constructor].
    split; [reflexivity|]. split; [exact Hdata|]. rewrite repeat_length. cbn. lia.
  - cbn [begins_below_255 fresh_gui lt_seq_no]. split; [lia|exact I].
  - reflexivity.
Defined.


(** ** The port list and the session *)

(** X27: a machine without serial ports.  [refresh_ports] then shows
    "No ports found", and a session started on that selection is refused:
    both lines are logged, no port is opened and the button is enabled. *)
Theorem no_ports_no_session (w : world) (g : gui) :
  (w' <- refresh_ports [] w ;; run_installer w') g
  = (Ret tt,
     mkGui (gui_port g) (lt_seq_no g) (file_list g)
       (debug_text g ++ ["Enumerated 0 ports."%string;
                         "ERROR: Please select a valid serial port."%string])
       (progress g) true).
Proof.
  unfold refresh_ports, run_installer, try_finally, try_except, session,
    open_port, bind, log, modify, ret, raise, add_debug_text, set_start_btn.
  cbn. now rewrite <- app_assoc.
Qed.

(** X28: a machine with serial ports.  [refresh_ports] selects the first
    device; if the peer behind it stays silent, the session started next
    opens that device and waits on it without end. *)
Theorem first_port_is_opened (w : world) (g : gui) (first : string)
        (others : list string) (speed : Z) :
  selectable first ->
  speed_combo w = Some speed ->
  serial_Serial w first = Some [] ->
  (w' <- refresh_ports (first :: others) w ;; run_installer w') g
  = (Hang,
     gui_at [] [] true (lt_seq_no g) (file_list g)
       (debug_text g
        ++ [("Enumerated " ++ str_nat (S (length others)) ++ " ports.")%string;
            ("Port " ++ first ++ " opened. Waiting for Newton...")%string])
       (progress g) (start_btn_enabled g)).
Proof.
  intros Hsel Hspeed Hopen.
  assert (Hr : refresh_ports (first :: others) w g
               = (Ret (mkWorld first (speed_combo w) (serial_Serial w) (open_rb w)),
                  add_debug_text
                    ("Enumerated " ++ str_nat (S (length others)) ++ " ports.") g))
    by reflexivity.
  erewrite bind_ret by exact Hr. clear Hr.
  unfold run_installer, try_finally, try_except, session.
  erewrite bind_ret by (eapply open_port_ok; (reflexivity || eassumption)).
  rewrite (bind_hang handshake) with
    (s' := gui_at [] [] true (lt_seq_no g) (file_list g)
             (debug_text g
              ++ [("Enumerated " ++ str_nat (S (length others)) ++ " ports.")%string;
                  ("Port " ++ first ++ " opened. Waiting for Newton...")%string])
             (progress g) (start_btn_enabled g)).
  - reflexivity.
  - unfold handshake. apply bind_hang. cbn [lt_seq_no file_list debug_text
      progress start_btn_enabled add_debug_text]. rewrite <- app_assoc.
    now apply await_blocks.
Qed.

Lemma first_port_is_opened_witness :
  (w' <- refresh_ports ("COM1"%string :: ["COM2"%string])
           (mkWorld EmptyString (Some 38400)
              (fun name => if (name =? "COM1")%string then Some [] else None)
              (fun _ => None)) ;;
   run_installer w') (fresh_gui ["a.pkg"%string])
  = (Hang,
     gui_at [] [] true (lt_seq_no (fresh_gui ["a.pkg"%string]))
       (file_list (fresh_gui ["a.pkg"%string]))
       (debug_text (fresh_gui ["a.pkg"%string])
        ++ [("Enumerated " ++ str_nat (S (length ["COM2"%string])) ++ " ports.")%string;
            ("Port " ++ "COM1" ++ " opened. Waiting for Newton...")%string])
       (progress (fresh_gui ["a.pkg"%string]))
       (start_btn_enabled (fresh_gui ["a.pkg"%string]))).
Proof.
  apply (first_port_is_opened
           (mkWorld EmptyString (Some 38400)
              (fun name => if (name =? "COM1")%string then Some [] else None)
              (fun _ => None))
           (fresh_gui ["a.pkg"%string]) "COM1" ["COM2"%string] 38400).
  - split; discriminate.
  - reflexivity.
  - reflexivity.
Defined.
